(** * PIMX_PASS_BOT: the scan pipeline, embedded and verified

    A shallow embedding of the discovery-and-health-check pipeline of
    [pimx_bot]: the config parser ([parser.py]), the connectivity prober
    ([server_tester.py]), the store operations used by a scan ([db.py]) and
    the scan orchestrator ([scanner.py]).

    Conventions.
    - A Python [str] is a [string]; a character is a code point below 256.
    - A function that may raise returns a [result]; [Raise e] is the
      exception leaving the function.
    - The interpreter's library functions the code calls ([base64], [json],
      [urllib.parse]) are the fields of the class [PyRuntime]; the network
      and the clock are the fields of the class [Network].
    - SQL time stamps (text of the fixed form YYYY-MM-DD HH:MM:SS, compared
      as text by SQLite) are integers counting seconds: both orders agree. *)

From stdpp Require Import base numbers list gmap strings sorting pretty.
From Stdlib Require Import Ascii String QArith.

#[local] Close Scope Q_scope.

Set Warnings "-register-all".

(* ===================================================================== *)
(** * Python primitives                                                   *)
(* ===================================================================== *)

Module Py.

(** The exceptions that occur in the modelled code. *)
Inductive exn : Type :=
  | AttributeError
  | ValueError
  | UnboundLocalError
  | IntegrityError
  | OverflowError.

Inductive result (A : Type) : Type :=
  | Ok (a : A)
  | Raise (e : exn).
Arguments Ok {A} a.
Arguments Raise {A} e.

#[export] Instance result_ret : MRet result := fun A a => Ok a.
#[export] Instance result_bind : MBind result := fun A B k m =>
  match m with
  | Ok a => k a
  | Raise e => Raise e
  end.

Definition is_ok {A} (r : result A) : bool :=
  match r with Ok _ => true | Raise _ => false end.

(** ** Characters and [str] methods *)

Definition ord (c : ascii) : N := N_of_ascii c.

(** [str.isspace] on one character (code points below 256). *)
Definition isspace (c : ascii) : bool :=
  let n := ord c in
  ((9 <=? n) && (n <=? 13) || (28 <=? n) && (n <=? 32) || (n =? 133) || (n =? 160))%N.

Definition isdigit (c : ascii) : bool :=
  let n := ord c in ((48 <=? n) && (n <=? 57))%N.

(** ASCII lower-case letter, the class [[a-z]] of a regular expression. *)
Definition is_az (c : ascii) : bool :=
  let n := ord c in ((97 <=? n) && (n <=? 122))%N.

Definition lower_char (c : ascii) : ascii :=
  let n := ord c in
  if ((65 <=? n) && (n <=? 90) || (192 <=? n) && (n <=? 222) && negb (n =? 215))%N
  then ascii_of_N (n + 32) else c.

(** [str.upper] on a character matched by [[a-z]]; other characters are
    left alone (it is only applied to such matches). *)
Definition upper_char (c : ascii) : ascii :=
  if is_az c then ascii_of_N (ord c - 32) else c.

Fixpoint smap (f : ascii -> ascii) (s : string) : string :=
  match s with
  | EmptyString => EmptyString
  | String c s' => String (f c) (smap f s')
  end.

Definition lower : string -> string := smap lower_char.
Definition upper : string -> string := smap upper_char.

Definition is_empty (s : string) : bool :=
  match s with EmptyString => true | _ => false end.

Fixpoint lstrip (s : string) : string :=
  match s with
  | EmptyString => EmptyString
  | String c s' => if isspace c then lstrip s' else s
  end.

Definition rstrip (s : string) : string := String.rev (lstrip (String.rev s)).

Definition strip (s : string) : string := rstrip (lstrip s).

(** [s.split()]: maximal runs of non-space characters, in order. [cur] is
    the current run, reversed. *)
Fixpoint split_go (cur : string) (s : string) : list string :=
  match s with
  | EmptyString => if is_empty cur then [] else [String.rev cur]
  | String c s' =>
      if isspace c
      then (if is_empty cur then split_go EmptyString s'
            else String.rev cur :: split_go EmptyString s')
      else split_go (String c cur) s'
  end.

Definition split (s : string) : list string := split_go EmptyString s.

Definition startswith (s p : string) : bool := String.prefix p s.

(** [sub in s] *)
Fixpoint contains (sub s : string) : bool :=
  String.prefix sub s ||
  match s with
  | EmptyString => false
  | String _ s' => contains sub s'
  end.

(** [s[n:]] *)
Fixpoint sdrop (n : nat) (s : string) : string :=
  match n, s with
  | O, _ => s
  | S n', String _ s' => sdrop n' s'
  | S _, EmptyString => EmptyString
  end.

Fixpoint srepeat (c : ascii) (n : nat) : string :=
  match n with
  | O => EmptyString
  | S n' => String c (srepeat c n')
  end.

(** ** [int(s)] for a [str] in base ten

    Blanks around the number are ignored, one sign is allowed, and single
    underscores may separate digits. The blanks of [int] are not those of
    [str.strip]: the separators 28 to 31 are white space for [str.strip]
    and an error for [int]. A number of more digits than the limit of the
    interpreter ([sys.get_int_max_str_digits()], 0 when there is none) is
    an error too; the limit never applies to 640 digits or fewer. *)
Definition int_blank (c : ascii) : bool :=
  let n := ord c in
  ((9 <=? n) && (n <=? 13) || (n =? 32) || (n =? 133) || (n =? 160))%N.

(** The characters SQLite reads a number from: the digits, the signs, the
    point, the [e] of the exponent, and the blanks around. *)
Definition numeric_char (c : ascii) : bool :=
  let n := ord c in
  ((48 <=? n) && (n <=? 57) || (n =? 43) || (n =? 45) || (n =? 46)
   || (n =? 69) || (n =? 101) || (9 <=? n) && (n <=? 13) || (n =? 32))%N.

Fixpoint numeric_chars_only (s : string) : bool :=
  match s with
  | EmptyString => true
  | String c s' => numeric_char c && numeric_chars_only s'
  end.

Fixpoint int_lstrip (s : string) : string :=
  match s with
  | EmptyString => EmptyString
  | String c s' => if int_blank c then int_lstrip s' else s
  end.

Fixpoint int_rstrip (s : string) : string :=
  match s with
  | EmptyString => EmptyString
  | String c s' =>
      let rest := int_rstrip s' in
      if is_empty rest && int_blank c then EmptyString else String c rest
  end.

Fixpoint count_digits (s : string) : nat :=
  match s with
  | EmptyString => 0
  | String c s' => if isdigit c then S (count_digits s') else count_digits s'
  end.

Definition over_digit_limit (max_str_digits digits : nat) : bool :=
  (640 <? digits)%nat && (0 <? max_str_digits)%nat && (max_str_digits <? digits)%nat.

Fixpoint int_digits (acc : Z) (after_underscore : bool) (s : string) : option Z :=
  match s with
  | EmptyString => if after_underscore then None else Some acc
  | String c s' =>
      if isdigit c
      then int_digits (10 * acc + (Z.of_N (ord c) - 48))%Z false s'
      else if Ascii.eqb c "_"%char
           then (if after_underscore then None else int_digits acc true s')
           else None
  end.

Definition int_unsigned (s : string) : option Z :=
  match s with
  | EmptyString => None
  | String c _ => if isdigit c then int_digits 0 false s else None
  end.

Definition int_of_str (max_str_digits : nat) (s : string) : result Z :=
  let body := int_rstrip (int_lstrip s) in
  let parsed :=
    match body with
    | EmptyString => None
    | String c s' =>
        if Ascii.eqb c "-"%char then Z.opp <$> int_unsigned s'
        else if Ascii.eqb c "+"%char then int_unsigned s'
        else int_unsigned (String c s')
    end in
  match parsed with
  | Some z =>
      if over_digit_limit max_str_digits (count_digits body) then Raise ValueError
      else Ok z
  | None => Raise ValueError
  end.

(** ** Values

    The values [json.loads] can return. A float is carried by the two
    observations the code makes of it: its truth value and its [repr]. *)
Inductive pyval : Type :=
  | PNone
  | PBool (b : bool)
  | PInt (z : Z)
  | PFloat (nonzero : bool) (repr : string)
  | PStr (s : string)
  | PList (l : list pyval)
  | PDict (d : list (string * pyval)).

(** [bool(v)] *)
Definition truthy (v : pyval) : bool :=
  match v with
  | PNone => false
  | PBool b => b
  | PInt z => negb (z =? 0)%Z
  | PFloat nz _ => nz
  | PStr s => negb (is_empty s)
  | PList l => match l with [] => false | _ => true end
  | PDict d => match d with [] => false | _ => true end
  end.

(** [a or b] *)
Definition or_ (a b : pyval) : pyval := if truthy a then a else b.

(** [a or b] where [a] is an optional [str] and [b] a [str] *)
Definition or_str (a : option string) (b : string) : string :=
  match a with
  | Some s => if is_empty s then b else s
  | None => b
  end.

Fixpoint assoc (k : string) (d : list (string * pyval)) : option pyval :=
  match d with
  | [] => None
  | (k', v) :: d' => if String.eqb k k' then Some v else assoc k d'
  end.

(** [data.get(k)]: only a [dict] has the method. *)
Definition get (data : pyval) (k : string) : result pyval :=
  match data with
  | PDict d => Ok (default PNone (assoc k d))
  | _ => Raise AttributeError
  end.

End Py.

Import Py.

(** What [urllib.parse.urlparse] returns, as far as the parser reads it. *)
Module Urllib.
Record ParseResult : Type := {
  hostname : option string;
  (** the [port] property raises [ValueError] when the port is not a
      number or is out of range *)
  port : result (option Z);
  query : string;
  fragment : string;
}.
End Urllib.

(** The library functions of the interpreter used by the parser and the
    store. A field returning [option] is [None] when the function raises. *)
Class PyRuntime : Type := {
  (** [base64.urlsafe_b64decode(v.encode("utf-8")).decode("utf-8", errors="ignore")] *)
  b64decode_text : string -> option string;
  json_loads : string -> option pyval;
  json_dumps : pyval -> string;
  (** [str(v)] of a list or a dict *)
  repr_container : pyval -> string;
  urlparse : string -> option Urllib.ParseResult;
  (** [parse_qs(query)]: each key with its values, in order *)
  parse_qs : string -> list (string * list string);
  unquote : string -> option string;
  (** [sys.get_int_max_str_digits()]: the most digits [int] converts, 0
      when the interpreter has no limit *)
  int_max_str_digits : nat;
  (** sqlite3: [str(v)] of the value [v] that a column of NUMERIC
      affinity (a DATETIME column) gives back for a text stored in it:
      the text itself, unless it reads as a number *)
  numeric_column_text : string -> string;
  (** a text with a character that no number is written with, as a date
      in ISO format has, is stored as it is *)
  numeric_column_text_other :
    forall s, Py.numeric_chars_only s = false -> numeric_column_text s = s;
}.

(** [str(v)] of a value decoded by [json.loads], which gives no integer
    of more digits than the limit of the interpreter. *)
Definition str_ `{PyRuntime} (v : pyval) : string :=
  match v with
  | PNone => "None"
  | PBool true => "True"
  | PBool false => "False"
  | PInt z => pretty z
  | PFloat _ r => r
  | PStr s => s
  | PList _ | PDict _ => repr_container v
  end.

(* ===================================================================== *)
(** * parser.py                                                           *)
(* ===================================================================== *)

Module Parser.
Section Parser.
Context `{PyRuntime}.

Definition _safe_b64decode (value : string) : string :=
  let value := strip value in
  let value := value +:+ srepeat "="%char ((4 - String.length value mod 4) mod 4) in
  default EmptyString (b64decode_text value).

Record ParsedConfig : Type := {
  original_string : string;
  protocol : string;
  transport : string;
  ps : string;
  add : string;
  port : Z;
  host : string;
  path : string;
  tls : string;
  source_id : option Z;
}.

Definition _parse_vmess (line : string) (source_id : option Z)
  : result (option ParsedConfig) :=
  let b64 := sdrop 8 line in
  let payload := _safe_b64decode b64 in
  if is_empty payload then Ok None else
  match json_loads payload with
  | None => Ok None
  | Some data =>
      v_add ← get data "add";
      let add := strip (str_ (or_ v_add (PStr ""))) in
      v_port ← get data "port";
      let port_text := str_ (or_ v_port (PStr "0")) in
      port ← int_of_str int_max_str_digits
               (if is_empty port_text then "0" else port_text);
      if is_empty add || String.eqb add "unknown" || (port <=? 0)%Z || (65536 <=? port)%Z
      then Ok None
      else
        v_net ← get data "net";
        v_ps ← get data "ps";
        v_host ← get data "host";
        v_path ← get data "path";
        v_tls ← get data "tls";
        Ok (Some {|
          original_string := line;
          protocol := "vmess";
          transport := str_ (or_ v_net (PStr "tcp"));
          ps := str_ (or_ v_ps (PStr "vmess-node"));
          add := add;
          port := port;
          host := str_ (or_ v_host (PStr ""));
          path := str_ (or_ v_path (PStr ""));
          tls := str_ (or_ v_tls (PStr ""));
          source_id := source_id |})
  end.

(** [qs.get(k, [None])[0]] *)
Definition qs_first (qs : list (string * list string)) (k : string) : option string :=
  match List.find (fun kv => String.eqb k (fst kv)) qs with
  | Some (_, v :: _) => Some v
  | _ => None
  end.

(** [a or b or c] over optional strings, the last one a literal *)
Definition or3 (a b : option string) (c : string) : string :=
  or_str a (or_str b c).

Definition _parse_url_config (line : string) (protocol : string)
    (default_port : Z) (source_id : option Z) : result (option ParsedConfig) :=
  match urlparse line with
  | None => Ok None
  | Some parsed =>
      let hostname := strip (or_str (Urllib.hostname parsed) "") in
      if is_empty hostname || String.eqb hostname "unknown" then Ok None else
      p ← Urllib.port parsed;
      let port :=
        match p with
        | Some n => if (n =? 0)%Z then default_port else n
        | None => default_port
        end in
      let qs := parse_qs (Urllib.query parsed) in
      let transport := strip (or3 (qs_first qs "type") (qs_first qs "net") "tcp") in
      let tls := strip (or_str (qs_first qs "security") "") in
      let host := strip (or3 (qs_first qs "host") (qs_first qs "sni") "") in
      let path := strip (or3 (qs_first qs "path") (qs_first qs "serviceName") "") in
      let name :=
        if is_empty (Urllib.fragment parsed) then EmptyString
        else default (Urllib.fragment parsed) (unquote (Urllib.fragment parsed)) in
      let name := if is_empty name then protocol +:+ "-node" else name in
      Ok (Some {|
        original_string := line;
        protocol := protocol;
        transport := transport;
        ps := name;
        add := hostname;
        port := port;
        host := host;
        path := path;
        tls := tls;
        source_id := source_id |})
  end.

(** The body of the loop over the tokens: what one token contributes. *)
Definition parse_token (line : string) (source_id : option Z)
  : result (option ParsedConfig) :=
  let line := strip line in
  if is_empty line then Ok None
  else if startswith line "vmess://" then _parse_vmess line source_id
  else if startswith line "vless://" then _parse_url_config line "vless" 443 source_id
  else if startswith line "trojan://" then _parse_url_config line "trojan" 443 source_id
  else Ok None.

Fixpoint parse_tokens (lines : list string) (source_id : option Z)
    (configs : list ParsedConfig) : result (list ParsedConfig) :=
  match lines with
  | [] => Ok configs
  | line :: rest =>
      parsed ← parse_token line source_id;
      parse_tokens rest source_id
        (match parsed with Some c => configs ++ [c] | None => configs end)
  end.

(** [unique.setdefault(c.original_string, c)] over an insertion-ordered
    dict: the first config of each string, in the order of first sight. *)
Fixpoint setdefault_all (configs : list ParsedConfig)
    (unique : list (string * ParsedConfig)) : list (string * ParsedConfig) :=
  match configs with
  | [] => unique
  | c :: rest =>
      setdefault_all rest
        (if existsb (fun kv => String.eqb (original_string c) (fst kv)) unique
         then unique else unique ++ [(original_string c, c)])
  end.

Definition parse_server_configs (content : string) (source_id : option Z)
  : result (list ParsedConfig) :=
  let raw := strip content in
  if is_empty raw then Ok [] else
  let raw :=
    if contains "://" raw then raw
    else
      let decoded := _safe_b64decode raw in
      if negb (is_empty decoded) && contains "://" decoded then decoded else raw in
  configs ← parse_tokens (split raw) source_id [];
  Ok (snd <$> setdefault_all configs []).

End Parser.
End Parser.

Import Parser.

(* ===================================================================== *)
(** * server_tester.py                                                    *)
(* ===================================================================== *)

Module ServerTester.

Record ProbeResult : Type := {
  ok : bool;
  latency_ms : Z;
}.

(** The network and the clock, seen from one process. Every operation
    takes the world and returns it: what the network answers may change
    between two calls. A socket operation that raises or runs into its
    timeout answers [None] (or [false]). *)
Class Network (W : Type) : Type := {
  (** the current time, in seconds *)
  now : W -> Z;
  (** [session.get(url)] then [resp.text()]; [None] when either raises *)
  http_get : string -> W -> option string * W;
  (** the lookup of [_geo_country_code] for a host: the upper-cased,
      non-empty country code of a success answer, [None] otherwise *)
  geo_lookup : string -> W -> option string * W;
  (** an open connection: the reader and the writer *)
  Stream : Type;
  (** a reading of [time.perf_counter()] *)
  Instant : Type;
  perf_counter : W -> Instant * W;
  (** [int((time.perf_counter() - start) * 1000)] *)
  elapsed_ms : Instant -> W -> Z * W;
  (** [_open_stream(host, port, ssl_ctx=..., server_hostname=..., timeout_s=...)];
      the bool says whether [ssl_ctx] is the unverified context *)
  _open_stream : string -> Z -> bool -> option string -> Q -> W -> option Stream * W;
  (** [writer.write(data)] and the awaited [writer.drain()] *)
  write_drain : Stream -> string -> Q -> W -> bool * W;
  (** the awaited [reader.readline()] *)
  readline : Stream -> Q -> W -> option string * W;
  (** the awaited [reader.read(n)] *)
  read : Stream -> nat -> Q -> W -> option string * W;
  (** [writer.close()] and [writer.wait_closed()], what they raise being
      suppressed *)
  close : Stream -> W -> W;
  (** [base64.b64encode(os.urandom(16)).decode("ascii")] *)
  websocket_key : W -> string * W;
}.

Definition _normalize_path (path : string) : string :=
  let path := strip path in
  if is_empty path then "/"
  else if negb (startswith path "/") then "/" +:+ path
  else path.

Definition _tls_expected (config : ParsedConfig) : bool :=
  let tls := lower (strip (tls config)) in
  if String.eqb tls "tls" || String.eqb tls "reality" then true
  else if String.eqb tls "" || String.eqb tls "none" then (port config =? 443)%Z
  else (port config =? 443)%Z.

(** Carriage return and line feed. *)
Definition crlf : string := String "013" (String "010" EmptyString).

Definition _H2_PREFACE : string :=
  "PRI * HTTP/2.0" +:+ crlf +:+ crlf +:+ "SM" +:+ crlf +:+ crlf.

Definition _H2_SETTINGS_EMPTY : string :=
  String "000" (String "000" (String "000" (String "004" (String "000"
    (String "000" (String "000" (String "000" (String "000" EmptyString)))))))).

(** What every probe answers when a socket operation raises. *)
Definition probe_failed : ProbeResult := {| ok := false; latency_ms := 999 |}.

Section Probes.
Context {W : Type} `{Network W}.

(** The three probes [test_server] dispatches to. When [_open_stream]
    raises, [writer] holds nothing and the [finally] block does nothing;
    otherwise the block closes the stream. *)
Definition _probe_ws (host : string) (port : Z) (path host_header : string)
    (use_ssl : bool) (server_hostname : option string) (timeout_s : Q)
  : W -> ProbeResult * W :=
  fun w =>
    let '(start, w) := perf_counter w in
    match _open_stream host port use_ssl server_hostname timeout_s w with
    | (None, w) => (probe_failed, w)
    | (Some stream, w) =>
        let '(key, w) := websocket_key w in
        let req :=
          "GET " +:+ path +:+ " HTTP/1.1" +:+ crlf +:+
          "Host: " +:+ host_header +:+ crlf +:+
          "Upgrade: websocket" +:+ crlf +:+
          "Connection: Upgrade" +:+ crlf +:+
          "Sec-WebSocket-Key: " +:+ key +:+ crlf +:+
          "Sec-WebSocket-Version: 13" +:+ crlf +:+
          "User-Agent: Mozilla/5.0" +:+ crlf +:+
          crlf in
        match write_drain stream req timeout_s w with
        | (false, w) => (probe_failed, close stream w)
        | (true, w) =>
            match readline stream timeout_s w with
            | (None, w) => (probe_failed, close stream w)
            | (Some line, w) =>
                let ok := contains " 101 " line
                          || startswith line "HTTP/1.1 101"
                          || startswith line "HTTP/1.0 101" in
                let '(latency, w) := if ok then elapsed_ms start w else (999%Z, w) in
                ({| ok := ok; latency_ms := latency |}, close stream w)
            end
        end
    end.

Definition _probe_http2 (host : string) (port : Z)
    (use_ssl : bool) (server_hostname : option string) (timeout_s : Q)
  : W -> ProbeResult * W :=
  fun w =>
    let '(start, w) := perf_counter w in
    match _open_stream host port use_ssl server_hostname timeout_s w with
    | (None, w) => (probe_failed, w)
    | (Some stream, w) =>
        match write_drain stream (_H2_PREFACE +:+ _H2_SETTINGS_EMPTY) timeout_s w with
        | (false, w) => (probe_failed, close stream w)
        | (true, w) =>
            match read stream 9 timeout_s w with
            | (None, w) => (probe_failed, close stream w)
            | (Some data, w) =>
                let ok := negb (is_empty data) in
                let '(latency, w) := if ok then elapsed_ms start w else (999%Z, w) in
                ({| ok := ok; latency_ms := latency |}, close stream w)
            end
        end
    end.

Definition _probe_tcp (host : string) (port : Z)
    (use_ssl : bool) (server_hostname : option string) (timeout_s : Q)
  : W -> ProbeResult * W :=
  fun w =>
    let '(start, w) := perf_counter w in
    match _open_stream host port use_ssl server_hostname timeout_s w with
    | (None, w) => (probe_failed, w)
    | (Some stream, w) =>
        let '(latency, w) := elapsed_ms start w in
        ({| ok := true; latency_ms := latency |}, close stream w)
    end.

End Probes.

Definition _probe_best_of_two {W : Type} (probe : W -> ProbeResult * W)
  : W -> ProbeResult * W :=
  fun w =>
    let '(first, w1) := probe w in
    if ok first then (first, w1)
    else
      let '(second, w2) := probe w1 in
      (second, w2).

(** A probe that also counts how often it is invoked. *)
Definition counting {W : Type} (probe : W -> ProbeResult * W)
  : W * nat -> ProbeResult * (W * nat) :=
  fun '(w, calls) =>
    let '(r, w') := probe w in (r, (w', S calls)).

(** The dict [test_server] returns. *)
Record TestOutcome : Type := {
  latency : Z;
  status : string;
  scanned : bool;
  reachable : bool;
}.

Section Tester.
Context {W : Type} `{Network W}.

(** The closure [do_probe] of [test_server]. The list [unique_paths] the
    source builds next to it is never read and is left out. *)
Definition do_probe (config : ParsedConfig) (timeout_s : Q) : W -> ProbeResult * W :=
  let host := add config in
  let port := port config in
  let transport := lower (strip (or_str (Some (transport config)) "tcp")) in
  let use_ssl := _tls_expected config in
  let host_header :=
    or_str (Some (strip (or_str (Some (Parser.host config)) (add config)))) (add config) in
  let server_hostname := if use_ssl then Some host_header else None in
  let path := _normalize_path (path config) in
  if String.eqb transport "ws" || String.eqb transport "websocket"
  then _probe_ws host port path host_header use_ssl server_hostname timeout_s
  else if String.eqb transport "grpc" || String.eqb transport "h2"
          || String.eqb transport "http2"
  then _probe_http2 host port use_ssl server_hostname timeout_s
  else _probe_tcp host port use_ssl server_hostname timeout_s.

Definition test_server (config : ParsedConfig) (timeout_s : Q) (max_latency_ms : Z)
  : W -> TestOutcome * W :=
  fun w =>
    let '(result, w') := _probe_best_of_two (do_probe config timeout_s) w in
    if negb (ok result) || (max_latency_ms <? latency_ms result)%Z
    then ({| latency := latency_ms result; status := "timeout";
             scanned := true; reachable := false |}, w')
    else ({| latency := latency_ms result; status := "active";
             scanned := true; reachable := true |}, w').

End Tester.
End ServerTester.

(* ===================================================================== *)
(** * db.py                                                               *)
(* ===================================================================== *)

Module Db.

(** A row of the table [sources]. *)
Record SourceRow : Type := {
  src_id : Z;
  url : string;
  src_name : string;
  active : bool;
  last_scan : option Z;
  src_created_at : Z;
}.

(** A row of the table [servers]. A column declared without NOT NULL is an
    [option]; the BOOLEAN columns, [status], [quality_score] and [dislikes]
    hold their declared type, as every statement of this module writes
    them. *)
Record ServerRow : Type := {
  id : Z;
  config_string : string;
  protocol : string;
  transport : option string;
  tls : option string;
  name : string;
  address : string;
  port : Z;
  host : option string;
  path : option string;
  country : option string;
  latency : option Z;
  status : string;
  operators : option string;
  packet_loss : option Q;
  speed : option Q;
  quality_score : Z;
  reachable : bool;
  scanned : bool;
  source_id : option Z;
  is_selected : bool;
  dislikes : Z;
  created_at : Z;
  updated_at : Z;
}.

(** The connection: both tables, the rows in the order of their rowid,
    and the next AUTOINCREMENT id of [servers]. *)
Record Store : Type := {
  sources : list SourceRow;
  servers : list ServerRow;
  next_id : Z;
}.

(** The dict [upsert_server] receives, as the worker of the scanner
    builds it. A key read with [server[k]] is present; a key read with
    [server.get(k)] is [None] when it is absent or holds [None]. Values
    have the type of the column they are written to. A dict without one
    of the keys read with [server[k]], or with a port [int] refuses,
    makes the call raise [KeyError] or [ValueError] before the statement
    runs; this type holds no such dict. *)
Record ServerDict : Type := {
  d_config_string : string;
  d_protocol : string;
  d_transport : option string;
  d_tls : option string;
  d_name : option string;
  d_address : string;
  d_port : Z;
  d_host : option string;
  d_path : option string;
  d_country : option string;
  d_latency : option Z;
  d_status : option string;
  d_operators : option pyval;
  d_packet_loss : option Q;
  d_speed : option Q;
  d_quality_score : option Z;
  d_reachable : option bool;
  d_scanned : option bool;
  d_source_id : option Z;
  d_is_selected : option bool;
}.

Definition get_active_sources (db : Store) : list SourceRow :=
  filter (fun s => active s = true) (sources db).

(** [x or 0] for an optional number *)
Definition or_zero_Q (x : option Q) : Q :=
  match x with
  | Some q => if Qeq_bool q 0 then 0%Q else q
  | None => 0%Q
  end.

(** [1 if x else 0] for an optional bool *)
Definition flag (x : option bool) : bool := default false x.

Section Upsert.
Context `{PyRuntime}.

(** The columns bound by the VALUES clause, as a row whose [id],
    [dislikes] and [created_at] are those of a fresh insert. *)
Definition excluded (db : Store) (server : ServerDict) (ts : Z) : ServerRow := {|
  id := next_id db;
  config_string := d_config_string server;
  protocol := d_protocol server;
  transport := Some (or_str (d_transport server) "tcp");
  tls := Some (or_str (d_tls server) "");
  name := or_str (d_name server) "Unnamed";
  address := d_address server;
  port := d_port server;
  host := Some (or_str (d_host server) (d_address server));
  path := Some (or_str (d_path server) "/");
  country := Some (or_str (d_country server) "Unknown");
  latency := d_latency server;
  status := or_str (d_status server) "pending";
  operators := Some (json_dumps (or_ (default PNone (d_operators server)) (PDict [])));
  packet_loss := Some (or_zero_Q (d_packet_loss server));
  speed := Some (or_zero_Q (d_speed server));
  quality_score := default 0%Z (d_quality_score server);
  reachable := flag (d_reachable server);
  scanned := flag (d_scanned server);
  source_id := d_source_id server;
  is_selected := flag (d_is_selected server);
  dislikes := 0;
  created_at := ts;
  updated_at := ts;
|}.

(** ON CONFLICT(config_string) DO UPDATE SET ...: every column of the
    SET list is taken from [excluded]; the others stay. *)
Definition do_update (old new : ServerRow) : ServerRow := {|
  id := id old;
  config_string := config_string old;
  protocol := protocol new;
  transport := transport new;
  tls := tls new;
  name := name new;
  address := address new;
  port := port new;
  host := host new;
  path := path new;
  country := country new;
  latency := latency new;
  status := status new;
  operators := operators new;
  packet_loss := packet_loss new;
  speed := speed new;
  quality_score := quality_score new;
  reachable := reachable new;
  scanned := scanned new;
  source_id := source_id new;
  is_selected := is_selected new;
  dislikes := dislikes old;
  created_at := created_at old;
  updated_at := updated_at new;
|}.

(** FOREIGN KEY (source_id) REFERENCES sources (id), enforced by the
    pragma of [connect]. *)
Definition foreign_key_ok (db : Store) (sid : option Z) : bool :=
  match sid with
  | None => true
  | Some i => existsb (fun s => (src_id s =? i)%Z) (sources db)
  end.

Definition has_config (db : Store) (key : string) : bool :=
  existsb (fun r => String.eqb (config_string r) key) (servers db).

(** The integers sqlite3 binds: those of 64 bits. Binding another one
    raises [OverflowError] before the statement runs. *)
Definition fits_int64 (z : Z) : bool := (- 2 ^ 63 <=? z)%Z && (z <? 2 ^ 63)%Z.

Definition binds (new : ServerRow) : bool :=
  fits_int64 (port new) && default true (fits_int64 <$> latency new)
  && fits_int64 (quality_score new) && default true (fits_int64 <$> source_id new).

(** [upsert_server]; [ts] is CURRENT_TIMESTAMP. The parameters are bound
    before the statement runs, so an integer that does not fit is
    reported before the foreign key is looked at, and the table is as it
    was in both cases. The statement takes the next AUTOINCREMENT id
    whether it inserts the row or, on a conflict, updates the one that is
    there, so the counter moves on in both cases. *)
Definition upsert_server (db : Store) (server : ServerDict) (ts : Z) : result Store :=
  let new := excluded db server ts in
  if negb (binds new) then Raise OverflowError
  else if negb (foreign_key_ok db (source_id new)) then Raise IntegrityError
  else if has_config db (config_string new)
  then Ok {|
    sources := sources db;
    servers := (fun r => if String.eqb (config_string r) (config_string new)
                         then do_update r new else r) <$> servers db;
    next_id := (next_id db + 1)%Z |}
  else Ok {|
    sources := sources db;
    servers := servers db ++ [new];
    next_id := (next_id db + 1)%Z |}.

End Upsert.

Definition selected_active (r : ServerRow) : bool :=
  is_selected r && String.eqb (status r) "active".

Definition count_selected_active (db : Store) : Z :=
  Z.of_nat (List.length (filter (fun r => selected_active r = true) (servers db))).

(** COALESCE(latency, 99999) *)
Definition coalesce_latency (r : ServerRow) : Z := default 99999%Z (latency r).

(** ORDER BY COALESCE(latency, 99999) DESC, dislikes DESC, updated_at ASC:
    [a] is listed no later than [b]. *)
Definition worst_first (a b : ServerRow) : Prop :=
  (coalesce_latency b < coalesce_latency a)%Z ∨
  (coalesce_latency a = coalesce_latency b ∧
   ((dislikes b < dislikes a)%Z ∨
    (dislikes a = dislikes b ∧ (updated_at a ≤ updated_at b)%Z))).

(** ORDER BY COALESCE(latency, 99999) ASC, dislikes ASC, updated_at DESC *)
Definition best_first (a b : ServerRow) : Prop :=
  (coalesce_latency a < coalesce_latency b)%Z ∨
  (coalesce_latency a = coalesce_latency b ∧
   ((dislikes a < dislikes b)%Z ∨
    (dislikes a = dislikes b ∧ (updated_at b ≤ updated_at a)%Z))).

#[export] Instance worst_first_dec : RelDecision worst_first.
Proof. intros a b. unfold worst_first. apply _. Defined.

#[export] Instance best_first_dec : RelDecision best_first.
Proof. intros a b. unfold best_first. apply _. Defined.

(** WHERE is_selected = 0 AND status = "active" AND
    COALESCE(latency, 99999) < 250 *)
Definition promotable (r : ServerRow) : bool :=
  negb (is_selected r) && String.eqb (status r) "active" && (coalesce_latency r <? 250)%Z.

(** ORDER BY: the rows sorted by the order. The table holds its rows in
    the order of their rowid, and rows that the ORDER BY does not separate
    stay in that order. SQL does not promise the order of such rows. *)
Fixpoint insert_ordered {A : Type} (order : relation A) `{!RelDecision order}
    (x : A) (l : list A) : list A :=
  match l with
  | [] => [x]
  | y :: l' => if decide (order x y) then x :: l else y :: insert_ordered order x l'
  end.

Definition order_by {A : Type} (order : relation A) `{!RelDecision order}
    (l : list A) : list A :=
  foldr (insert_ordered order) [] l.

(** SELECT id FROM servers WHERE ... ORDER BY ... LIMIT n *)
Definition select_ids (cond : ServerRow -> bool) (order : relation ServerRow)
    `{!RelDecision order} (n : Z) (db : Store) : list Z :=
  id <$> take (Z.to_nat n) (order_by order (filter (fun r => cond r = true) (servers db))).

Definition set_is_selected (b : bool) (r : ServerRow) : ServerRow := {|
  id := id r;
  config_string := config_string r;
  protocol := protocol r;
  transport := transport r;
  tls := tls r;
  name := name r;
  address := address r;
  port := port r;
  host := host r;
  path := path r;
  country := country r;
  latency := latency r;
  status := status r;
  operators := operators r;
  packet_loss := packet_loss r;
  speed := speed r;
  quality_score := quality_score r;
  reachable := reachable r;
  scanned := scanned r;
  source_id := source_id r;
  is_selected := b;
  dislikes := dislikes r;
  created_at := created_at r;
  updated_at := updated_at r;
|}.

(** UPDATE servers SET is_selected = b WHERE id IN ids *)
Definition update_is_selected (b : bool) (ids : list Z) (db : Store) : Store := {|
  sources := sources db;
  servers := (fun r => if bool_decide (id r ∈ ids) then set_is_selected b r else r)
               <$> servers db;
  next_id := next_id db |}.

Definition manage_selected_servers (db : Store) (min_selected max_selected : Z) : Store :=
  let current_selected := count_selected_active db in
  if (max_selected <? current_selected)%Z then
    let to_remove := (current_selected - max_selected)%Z in
    update_is_selected false (select_ids selected_active worst_first to_remove db) db
  else if (current_selected <? min_selected)%Z then
    let to_add := (min_selected - current_selected)%Z in
    update_is_selected true (select_ids promotable best_first to_add db) db
  else db.

Definition delete_servers_before (db : Store) (before_ts : Z) : Store := {|
  sources := sources db;
  servers := filter (fun r => ¬ (updated_at r < before_ts)%Z) (servers db);
  next_id := next_id db |}.

(** ** The read side *)



Record ListedServer : Type := {
  ls_id : Z;
  ls_name : string;
  ls_latency : option Z;
  ls_country : option string;
  ls_config_string : string;
}.

Definition listed (r : ServerRow) : ListedServer := {|
  ls_id := id r;
  ls_name := name r;
  ls_latency := latency r;
  ls_country := country r;
  ls_config_string := config_string r;
|}.

(** LENGTH(s) of a text: the number of characters before the first NUL. *)
Fixpoint sql_length (s : string) : nat :=
  match s with
  | EmptyString => 0
  | String c s' => if Ascii.eqb c "000" then 0 else S (sql_length s')
  end.

(** WHERE status = "active" [AND LENGTH(config_string) <= ?] *)
Definition active_within (max_config_len : option Z) (r : ServerRow) : bool :=
  String.eqb (status r) "active" &&
  match max_config_len with
  | Some m => (Z.of_nat (sql_length (config_string r)) <=? m)%Z
  | None => true
  end.

(** ORDER BY COALESCE(latency, 99999) ASC, updated_at DESC *)
Definition listing_order (a b : ServerRow) : Prop :=
  (coalesce_latency a < coalesce_latency b)%Z ∨
  (coalesce_latency a = coalesce_latency b ∧ (updated_at b ≤ updated_at a)%Z).

#[export] Instance listing_order_dec : RelDecision listing_order.
Proof. intros a b. unfold listing_order. apply _. Defined.

(** LIMIT n: a negative n is no limit. OFFSET n: a negative n is 0. *)
Definition sql_limit {A : Type} (n : Z) (l : list A) : list A :=
  if (n <? 0)%Z then l else take (Z.to_nat n) l.

Definition sql_offset {A : Type} (n : Z) (l : list A) : list A := drop (Z.to_nat n) l.

Definition get_selected_servers_page (db : Store) (offset limit : Z)
    (max_config_len : option Z) : list ListedServer :=
  listed <$>
    sql_limit limit
      (sql_offset offset
         (order_by listing_order
            (filter (fun r => active_within max_config_len r = true) (servers db)))).

Definition get_selected_servers_total_with_max_len (db : Store)
    (max_config_len : option Z) : Z :=
  Z.of_nat (List.length
              (filter (fun r => active_within max_config_len r = true) (servers db))).

Definition get_selected_servers_total (db : Store) : Z :=
  get_selected_servers_total_with_max_len db None.

Definition get_server_config_string (db : Store) (server_id : Z) : option string :=
  config_string <$> List.find (fun r => (id r =? server_id)%Z) (servers db).

(** ** The tables [stats] and [sources] *)

Definition DEFAULT_SOURCES : list string := [
  "https://raw.githubusercontent.com/MrAbolfazlNorouzi/iran-configs/refs/heads/main/configs/working-configs.txt";
  "https://raw.githubusercontent.com/Arianlavi/RebeldevConfig/refs/heads/main/RebelLink/trojan_subscriptions.txt";
  "https://raw.githubusercontent.com/nyeinkokoaung404/V2ray-Configs/refs/heads/main/Sub2.txt";
  "https://raw.githubusercontent.com/V2RAYCONFIGSPOOL/V2RAY_SUB/refs/heads/main/v2ray_configs_no4.txt";
  "https://raw.githubusercontent.com/V2RAYCONFIGSPOOL/V2RAY_SUB/refs/heads/main/v2ray_configs_no3.txt";
  "https://raw.githubusercontent.com/V2RAYCONFIGSPOOL/V2RAY_SUB/refs/heads/main/v2ray_configs_no8.txt";
  "https://raw.githubusercontent.com/Arianlavi/RebeldevConfig/refs/heads/main/RebelLink/vless_subscriptions.txt";
  "https://raw.githubusercontent.com/V2RAYCONFIGSPOOL/V2RAY_SUB/refs/heads/main/v2ray_configs_no1.txt";
  "https://raw.githubusercontent.com/V2RAYCONFIGSPOOL/V2RAY_SUB/refs/heads/main/v2ray_configs_no6.txt";
  "https://raw.githubusercontent.com/ShatakVPN/ConfigForge-V2Ray/refs/heads/main/configs/us/all.txt";
  "https://raw.githubusercontent.com/barry-far/V2ray-Config/refs/heads/main/Sub25.txt";
  "https://raw.githubusercontent.com/Danialsamadi/v2go/refs/heads/main/Sub21.txt";
  "https://raw.githubusercontent.com/nyeinkokoaung404/V2ray-Configs/refs/heads/main/Sub1.txt";
  "https://raw.githubusercontent.com/ShatakVPN/ConfigForge-V2Ray/refs/heads/main/configs/ua/all.txt"
].

(** The row of the table [stats]. *)
Record StatsRow : Type := {
  total_scanned : Z;
  total_active : Z;
  total_selected : Z;
  total_dislikes : Z;
  stats_last_scan : option Z;
  scan_completed_at : option string;
  next_scan_at : option string;
  stats_updated_at : Z;
}.

(** The whole database: the two tables of [Store], the row of [stats]
    with id 1 if there is one, and the next AUTOINCREMENT id of
    [sources]. *)
Record Database : Type := {
  tables : Store;
  stats : option StatsRow;
  next_source_id : Z;
}.

(** INSERT OR IGNORE INTO stats (id) VALUES (1) *)
Definition fresh_stats (ts : Z) : StatsRow := {|
  total_scanned := 0; total_active := 0; total_selected := 0; total_dislikes := 0;
  stats_last_scan := None; scan_completed_at := None; next_scan_at := None;
  stats_updated_at := ts |}.

(** INSERT OR IGNORE INTO sources (url, name) VALUES (?, ?): the column
    [url] is UNIQUE. The statement takes the next AUTOINCREMENT id also
    when the row is ignored. *)
Definition insert_source_or_ignore (d : Database) (u n : string) (ts : Z) : Database :=
  if existsb (fun s => String.eqb (url s) u) (sources (tables d))
  then {| tables := tables d; stats := stats d;
          next_source_id := (next_source_id d + 1)%Z |}
  else {|
    tables := {|
      sources := sources (tables d) ++
        [{| src_id := next_source_id d; url := u; src_name := n; active := true;
            last_scan := None; src_created_at := ts |}];
      servers := servers (tables d);
      next_id := next_id (tables d) |};
    stats := stats d;
    next_source_id := (next_source_id d + 1)%Z |}.

(** [enumerate(l, start=n)] *)
Fixpoint enumerate {A : Type} (n : Z) (l : list A) : list (Z * A) :=
  match l with
  | [] => []
  | x :: l' => (n, x) :: enumerate (n + 1)%Z l'
  end.

(** [init_db] on a database whose tables exist or not: CREATE TABLE IF NOT
    EXISTS leaves what is there. *)
Definition init_db (d : Database) (ts : Z) : Database :=
  let d0 := {| tables := tables d;
               stats := Some (default (fresh_stats ts) (stats d));
               next_source_id := next_source_id d |} in
  foldl (fun d '(idx, u) => insert_source_or_ignore d u ("Source " +:+ pretty idx) ts)
        d0 (enumerate 1 DEFAULT_SOURCES).

(** [update_stats]. The two scan times go to DATETIME columns, of
    NUMERIC affinity; the row holds the texts that reading them gives. *)
Definition update_stats `{PyRuntime} (d : Database)
    (scan_completed_at next_scan_at : option string) (ts : Z) : Database :=
  let rows := servers (tables d) in {|
  tables := tables d;
  stats :=
    (fun _ => {|
       total_scanned := Z.of_nat (List.length rows);
       total_active :=
         Z.of_nat (List.length (filter (fun r => status r = "active") rows));
       total_selected :=
         Z.of_nat (List.length (filter (fun r => is_selected r = true) rows));
       total_dislikes := foldr Z.add 0%Z (dislikes <$> rows);
       stats_last_scan := Some ts;
       scan_completed_at := numeric_column_text <$> scan_completed_at;
       next_scan_at := numeric_column_text <$> next_scan_at;
       stats_updated_at := ts |}) <$> stats d;
  next_source_id := next_source_id d |}.

Definition get_scan_times (d : Database) : option string * option string :=
  match stats d with
  | None => (None, None)
  | Some row => (scan_completed_at row, next_scan_at row)
  end.

End Db.

(* ===================================================================== *)
(** * providers.py                                                        *)
(* ===================================================================== *)

Module Providers.
Import Db.

Record PagedServers : Type := {
  paged_servers : list ListedServer;
  total : Z;
}.

(** What a method of [DbProvider] may raise. *)
Inductive raised : Type :=
  | RuntimeError
  | ZeroDivisionError.

(** [DbProvider]: each connection of the pool with the database it reads,
    and the index of the connection used last. *)
Record DbProvider : Type := {
  _dbs : list Store;
  _idx : nat;
}.

Definition _pick_db (p : DbProvider) : DbProvider * (raised + Store) :=
  match _dbs p with
  | [] => (p, inl RuntimeError)
  | first :: _ =>
      let idx := ((_idx p + 1) mod List.length (_dbs p))%nat in
      ({| _dbs := _dbs p; _idx := idx |}, inr (default first (_dbs p !! idx)))
  end.

(** [get_servers_page], for a page size and a length limit of 64 bits,
    the integers the queries can bind; the offset is then one too. With a
    larger one the query raises [OverflowError], which [raised] does not
    hold. *)
Definition get_servers_page (p : DbProvider) (page per_page : Z)
    (max_config_len : option Z) : DbProvider * (raised + PagedServers) :=
  match _pick_db p with
  | (p', inl e) => (p', inl e)
  | (p', inr db) =>
      let total :=
        match max_config_len with
        | None => get_selected_servers_total db
        | Some m => get_selected_servers_total_with_max_len db (Some m)
        end in
      if (total <=? 0)%Z then (p', inr {| paged_servers := []; total := 0 |})
      else if (per_page =? 0)%Z then (p', inl ZeroDivisionError)
      else
        let max_page := Z.max 0 ((total - 1) / per_page) in
        let page := Z.max 0 (Z.min page max_page) in
        let offset := (page * per_page)%Z in
        (p', inr {| paged_servers :=
                      get_selected_servers_page db offset per_page max_config_len;
                    total := total |})
  end.

Definition get_server_config (p : DbProvider) (server_id : Z)
  : DbProvider * (raised + option string) :=
  match _pick_db p with
  | (p', inl e) => (p', inl e)
  | (p', inr db) => (p', inr (get_server_config_string db server_id))
  end.

End Providers.

(* ===================================================================== *)
(** * scanner.py                                                          *)
(* ===================================================================== *)

Module Scanner.
Import ServerTester Db.

(** The settings [_run_scan] reads. *)
Record Settings : Type := {
  servers_to_test : Z;
  min_selected_servers : Z;
  max_selected_servers : Z;
  test_timeout_seconds : Q;
  max_latency_ms : Z;
}.

(** ** [_infer_country_code] *)

(** [re.findall(r"/([a-z]{2})/", url)]: the groups of the matches, found
    left to right without overlap. [skip] counts the characters of the
    last match still to be passed over. *)
Fixpoint findall_segment (skip : nat) (s : string) : list string :=
  match s with
  | EmptyString => []
  | String c s' =>
      match skip with
      | S k => findall_segment k s'
      | O =>
          match s' with
          | String a (String b (String d _)) =>
              if Ascii.eqb c "/" && is_az a && is_az b && Ascii.eqb d "/"
              then String a (String b EmptyString) :: findall_segment 3 s'
              else findall_segment 0 s'
          | _ => findall_segment 0 s'
          end
      end
  end.

(** One character of the class [[-_/]]. *)
Definition is_sep (c : ascii) : bool :=
  Ascii.eqb c "-" || Ascii.eqb c "_" || Ascii.eqb c "/".

(** [re.search(r"[-_/]([a-z]{2})\\.txt", url)]: the group of the leftmost
    match. In a raw string the two backslashes are the pattern of one
    literal backslash, and the dot after them matches any character but a
    newline. *)
Fixpoint search_suffix (s : string) : option string :=
  match s with
  | EmptyString => None
  | String sep s' =>
      match s' with
      | String a (String b (String bs (String any (String t1 (String x (String t2 _)))))) =>
          if is_sep sep && is_az a && is_az b && Ascii.eqb bs "\"
             && negb (Ascii.eqb any "010")
             && Ascii.eqb t1 "t" && Ascii.eqb x "x" && Ascii.eqb t2 "t"
          then Some (String a (String b EmptyString))
          else search_suffix s'
      | _ => search_suffix s'
      end
  end.

Definition _infer_country_code (source_url : string) : option string :=
  let url := lower source_url in
  let path_matches := findall_segment 0 url in
  match last path_matches with
  | Some g => Some (upper g)
  | None =>
      match search_suffix url with
      | Some g => Some (upper g)
      | None => None
      end
  end.

(** ** Names of [worker]

    [worker] is a closure of [_run_scan]. A name it assigns is a local of
    [worker] unless its [nonlocal] statement lists it; reading a local that
    holds no value yet raises [UnboundLocalError]. *)
Definition worker_assigned : list string :=
  ["result"; "host_for_geo"; "country_code"; "server_row";
   "processed"; "active"; "cleared_old"].

Definition worker_nonlocal : list string := ["processed"; "active"].

Definition is_local (x : string) : bool :=
  bool_decide (x ∈ worker_assigned) && negb (bool_decide (x ∈ worker_nonlocal)).

(** The variables of [_run_scan] its closures share. *)
Record Cells : Type := {
  processed : Z;
  active : Z;
  cleared_old : bool;
}.

(** The state of the testing phase. [purges] counts the calls of
    [delete_servers_before]; the code has no such counter. *)
Record ScanState (W : Type) : Type := {
  world : W;
  db : Store;
  write_queue : list ServerDict;
  cells : Cells;
  geo_cache : gmap string (option string);
  purges : nat;
}.
Arguments world {W} _.
Arguments db {W} _.
Arguments write_queue {W} _.
Arguments cells {W} _.
Arguments geo_cache {W} _.
Arguments purges {W} _.

Section Scan.
Context `{PyRuntime} {W : Type} `{Network W}.

Definition _geo_country_code (host : string) (cache : gmap string (option string))
    (w : W) : option string * gmap string (option string) * W :=
  let key := lower (strip host) in
  if is_empty key then (None, cache, w)
  else
    match cache !! key with
    | Some code => (code, cache, w)
    | None =>
        let '(code, w') := geo_lookup key w in
        (code, <[key := code]> cache, w')
    end.

(** [source_country_map.get(cfg.source_id) or await _geo_country_code(...)] *)
Definition country_code_for (source_country_map : gmap Z (option string))
    (cfg : ParsedConfig) (cache : gmap string (option string)) (w : W)
  : option string * gmap string (option string) * W :=
  let host_for_geo :=
    strip (or_str (Some (Parser.host cfg)) (or_str (Some (add cfg)) "")) in
  let inferred :=
    match Parser.source_id cfg with
    | Some sid => default None (source_country_map !! sid)
    | None => None
    end in
  match inferred with
  | Some code =>
      if is_empty code then _geo_country_code host_for_geo cache w
      else (Some code, cache, w)
  | None => _geo_country_code host_for_geo cache w
  end.

Definition server_row (cfg : ParsedConfig) (result : TestOutcome)
    (country_code : option string) : ServerDict :=
  let is_active := String.eqb (ServerTester.status result) "active" in {|
  d_config_string := original_string cfg;
  d_protocol := Parser.protocol cfg;
  d_transport := Some (Parser.transport cfg);
  d_tls := Some (Parser.tls cfg);
  d_name := Some (ps cfg);
  d_address := add cfg;
  d_port := Parser.port cfg;
  d_host := Some (or_str (Some (Parser.host cfg)) (add cfg));
  d_path := Some (or_str (Some (Parser.path cfg)) "/");
  d_country := country_code;
  d_latency := Some (ServerTester.latency result);
  d_status := Some (ServerTester.status result);
  d_operators := None;
  d_packet_loss := None;
  d_speed := None;
  d_quality_score := Some (if is_active then 85 else 0)%Z;
  d_reachable := Some (ServerTester.reachable result);
  d_scanned := Some (ServerTester.scanned result);
  d_source_id := Parser.source_id cfg;
  d_is_selected := Some is_active;
|}.

(** The statements of [worker] under [counter_lock], after
    [processed += 1] and [active += 1]: the test of [cleared_old] and the
    purge it guards. [frame] is the value the local [cleared_old] of this
    call holds, if any. *)
Definition purge_once (scan_started_at : Z) (frame : option bool) (st : ScanState W)
  : result unit * ScanState W :=
  let loaded :=
    if is_local "cleared_old"
    then match frame with Some b => Ok b | None => Raise UnboundLocalError end
    else Ok (cleared_old (cells st)) in
  match loaded with
  | Raise e => (Raise e, st)
  | Ok true => (Ok (), st)
  | Ok false =>
      let cells' :=
        if is_local "cleared_old" then cells st
        else {| processed := processed (cells st); active := active (cells st);
                cleared_old := true |} in
      (Ok (), {|
        world := world st;
        db := delete_servers_before (db st) scan_started_at;
        write_queue := write_queue st;
        cells := cells';
        geo_cache := geo_cache st;
        purges := S (purges st) |})
  end.

(** One call of [worker]: the exception it ends with, if any, and the
    state it leaves. *)
Definition worker (settings : Settings) (source_country_map : gmap Z (option string))
    (scan_started_at : Z) (cfg : ParsedConfig) (st : ScanState W)
  : result unit * ScanState W :=
  let '(result, w1) :=
    test_server cfg (test_timeout_seconds settings) (max_latency_ms settings) (world st) in
  let '(country_code, cache, w2) :=
    country_code_for source_country_map cfg (geo_cache st) w1 in
  let row := server_row cfg result country_code in
  let is_active := String.eqb (ServerTester.status result) "active" in
  let st1 := {|
    world := w2;
    db := db st;
    write_queue := write_queue st ++ [row];
    cells := {| processed := processed (cells st) + 1;
                active := if is_active then active (cells st) + 1 else active (cells st);
                cleared_old := cleared_old (cells st) |};
    geo_cache := cache;
    purges := purges st |} in
  if is_active then purge_once scan_started_at None st1 else (Ok (), st1).

(** [asyncio.gather] with [return_exceptions=True] over one batch, in
    the schedule where the probes finish in the order of the batch: what a
    task raises is dropped. In this schedule a worker sees the geo cache
    as the worker before it left it; workers that overlap may each miss
    it. *)
Definition run_batch (settings : Settings) (source_country_map : gmap Z (option string))
    (scan_started_at : Z) (batch : list ParsedConfig) (st : ScanState W) : ScanState W :=
  foldl (fun st cfg => snd (worker settings source_country_map scan_started_at cfg st))
        st batch.

(** [writer] up to [write_queue.join()]: one upsert per queued row, in
    the order of the queue. An upsert that raises ends the writer task;
    the cycle then never completes, which [Raise] stands for. *)
Fixpoint writer (items : list ServerDict) (db : Store) (ts : Z) : result Store :=
  match items with
  | [] => Ok db
  | item :: rest =>
      db' ← upsert_server db item ts;
      writer rest db' ts
  end.

Definition join_queue (st : ScanState W) : result (ScanState W) :=
  db' ← writer (write_queue st) (db st) (now (world st));
  Ok {| world := world st; db := db'; write_queue := []; cells := cells st;
        geo_cache := geo_cache st; purges := purges st |}.

(** The loop over the batches of ten. [fuel] bounds the number of
    batches; the number of configs is enough. *)
Fixpoint run_batches (fuel : nat) (settings : Settings)
    (source_country_map : gmap Z (option string)) (scan_started_at : Z)
    (configs : list ParsedConfig) (st : ScanState W) : result (ScanState W) :=
  match fuel, configs with
  | _, [] => Ok st
  | O, _ => Ok st
  | S fuel', _ =>
      let st1 := run_batch settings source_country_map scan_started_at (take 10 configs) st in
      st2 ← join_queue st1;
      run_batches fuel' settings source_country_map scan_started_at (drop 10 configs) st2
  end.

Definition testing (settings : Settings) (source_country_map : gmap Z (option string))
    (scan_started_at : Z) (configs : list ParsedConfig) (db : Store) (w : W)
  : result (ScanState W) :=
  run_batches (List.length configs) settings source_country_map scan_started_at configs {|
    world := w; db := db; write_queue := [];
    cells := {| processed := 0; active := 0; cleared_old := false |};
    geo_cache := ∅; purges := 0 |}.

(** ** Harvesting *)

(** UPDATE sources SET last_scan = CURRENT_TIMESTAMP WHERE id = ? *)
Definition update_last_scan (db : Store) (sid : Z) (ts : Z) : Store := {|
  sources := (fun s => if (src_id s =? sid)%Z
                       then {| src_id := src_id s; url := url s; src_name := src_name s;
                               Db.active := Db.active s; last_scan := Some ts;
                               src_created_at := src_created_at s |}
                       else s) <$> sources db;
  servers := servers db;
  next_id := next_id db |}.

(** [if cfg.original_string not in unique: unique[...] = cfg], over the
    parsed configs of one source. *)
Definition merge_unique (parsed : list ParsedConfig) (unique : list (string * ParsedConfig))
  : list (string * ParsedConfig) :=
  setdefault_all parsed unique.

(** The body of the loop over the sources, after the test that ends the
    loop. *)
Definition harvest_source (source : SourceRow) (unique : list (string * ParsedConfig))
    (db : Store) (w : W) : result (list (string * ParsedConfig) * Store * W) :=
  let '(resp, w1) := http_get (url source) w in
  match resp with
  | None => Ok (unique, db, w1)
  | Some text =>
      parsed ← parse_server_configs text (Some (src_id source));
      Ok (merge_unique parsed unique, update_last_scan db (src_id source) (now w1), w1)
  end.

Fixpoint harvest (sources : list SourceRow) (servers_needed : Z)
    (unique : list (string * ParsedConfig)) (db : Store) (w : W)
  : result (list (string * ParsedConfig) * Store * W) :=
  match sources with
  | [] => Ok (unique, db, w)
  | source :: rest =>
      if (servers_needed <=? Z.of_nat (List.length unique))%Z then Ok (unique, db, w)
      else
        '(unique', db', w') ← harvest_source source unique db w;
        harvest rest servers_needed unique' db' w'
  end.

(** UPDATE servers SET is_selected = 0 *)
Definition reset_selected (db : Store) : Store := {|
  sources := sources db;
  servers := set_is_selected false <$> servers db;
  next_id := next_id db |}.

(** [l[:n]] *)
Definition slice_to {A} (n : Z) (l : list A) : list A :=
  if (n <? 0)%Z then take (List.length l - Z.to_nat (- n)) l else take (Z.to_nat n) l.

(** [_run_scan], without the bookkeeping of [ScanStatus] and of the table
    [stats]. *)
Definition _run_scan (settings : Settings) (db : Store) (w : W) : result (Store * W) :=
  let scan_started_at := now w in
  let sources := get_active_sources db in
  match sources with
  | [] => Ok (db, w)
  | _ =>
      let source_country_map : gmap Z (option string) :=
        foldl (fun m src => <[src_id src := _infer_country_code (url src)]> m) ∅ sources in
      let servers_needed := servers_to_test settings in
      '(unique, db1, w1) ← harvest sources servers_needed [] db w;
      let configs := slice_to servers_needed (snd <$> unique) in
      match configs with
      | [] => Ok (db1, w1)
      | _ =>
          let db2 := reset_selected db1 in
          st ← testing settings source_country_map scan_started_at configs db2 w1;
          Ok (manage_selected_servers (Scanner.db st)
                (min_selected_servers settings) (max_selected_servers settings),
              world st)
      end
  end.

End Scan.
End Scanner.

(* ===================================================================== *)
(** * Vocabulary of the specification                                     *)
(* ===================================================================== *)

Module Spec.
Import ServerTester Db Scanner.

(** The invariants of a ServerRecord. *)
Definition row_invariant (r : ServerRow) : Prop :=
  (is_selected r = true → status r = "active") ∧
  (reachable r = true ↔ status r = "active").

Definition store_invariant (db : Store) : Prop := Forall row_invariant (servers db).

(** The keys of the table [servers]: [id] is the PRIMARY KEY, handed out
    below [next_id]; [config_string] is UNIQUE. *)
Definition well_formed (db : Store) : Prop :=
  NoDup (id <$> servers db) ∧
  NoDup (config_string <$> servers db) ∧
  Forall (fun r => (id r < next_id db)%Z) (servers db).

(** The rows the workers queue: the row of some config with the outcome
    of its test. *)
Definition tested_row {W : Type} `{Network W} (row : ServerDict) : Prop :=
  ∃ cfg timeout_s max_latency_ms (w : W) country_code,
    row = server_row cfg (test_server cfg timeout_s max_latency_ms w).1 country_code.

(** A row as the test of a config leaves it: scanned, with a latency,
    active or timed out, and selected, reachable and scored 85 exactly
    when active. *)
Definition carries_verdict (r : ServerRow) : Prop :=
  scanned r = true ∧ latency r ≠ None ∧
  ((status r = "active" ∧ is_selected r = true ∧ reachable r = true ∧
    quality_score r = 85%Z) ∨
   (status r = "timeout" ∧ is_selected r = false ∧ reachable r = false ∧
    quality_score r = 0%Z)).

(** An ASCII capital letter. *)
Definition is_capital (c : ascii) : bool := ((65 <=? ord c) && (ord c <=? 90))%N.

(** The columns of a source that only an operator changes: all of them
    but [last_scan]. *)
Definition source_identity (s : SourceRow) : Z * string * string * bool * Z :=
  (src_id s, url s, src_name s, Db.active s, src_created_at s).

(** What the three probes share: a failure is reported with the latency
    999, and the stream, once open, is closed last; when the connection
    is not opened the probe fails at once and does nothing more. *)
Definition probe_contract {W : Type} `{Network W}
    (opened : option Stream * W) (out : ProbeResult * W) : Prop :=
  (ok out.1 = false → latency_ms out.1 = 999%Z) ∧
  match opened.1 with
  | Some stream => ∃ w', out.2 = close stream w'
  | None => out = (probe_failed, opened.2)
  end.

(** What a probe does to connections: a call of [_open_stream], with its
    arguments and what it gave, or a call of [close]. *)
Inductive Event (S : Type) : Type :=
  | Opens (host : string) (port : Z) (use_ssl : bool) (server_hostname : option string)
          (timeout_s : Q) (got : option S)
  | Closes (stream : S).
Arguments Opens {S} host port use_ssl server_hostname timeout_s got.
Arguments Closes {S} stream.

(** A call that leaves the log as it is. *)
Definition unlogged {W E A : Type} (f : W -> A * W) : W * list E -> A * (W * list E) :=
  fun '(w, log) => let '(r, w') := f w in (r, (w', log)).

(** The network [N] with a log: every call goes to [N], and each call of
    [_open_stream] and of [close] is appended to the log, in order. *)
Definition traced {W : Type} (N : Network W) : Network (W * list (Event (@Stream W N))) := {|
  now := fun '(w, _) => @now W N w;
  http_get := fun url => unlogged (@http_get W N url);
  geo_lookup := fun host => unlogged (@geo_lookup W N host);
  Stream := @Stream W N;
  Instant := @Instant W N;
  perf_counter := unlogged (@perf_counter W N);
  elapsed_ms := fun start => unlogged (@elapsed_ms W N start);
  _open_stream := fun host port use_ssl server_hostname timeout_s '(w, log) =>
    let '(got, w') := @_open_stream W N host port use_ssl server_hostname timeout_s w in
    (got, (w', log ++ [Opens host port use_ssl server_hostname timeout_s got]));
  write_drain := fun stream data timeout_s => unlogged (@write_drain W N stream data timeout_s);
  readline := fun stream timeout_s => unlogged (@readline W N stream timeout_s);
  read := fun stream n timeout_s => unlogged (@read W N stream n timeout_s);
  close := fun stream '(w, log) => (@close W N stream w, log ++ [Closes stream]);
  websocket_key := unlogged (@websocket_key W N);
|}.

(** The log of a probe that does what it should: one call of
    [_open_stream] and, when it gave a stream, one call of [close], on
    that stream. *)
Definition one_connection {S : Type} (host : string) (port : Z) (use_ssl : bool)
    (server_hostname : option string) (timeout_s : Q) (got : option S) : list (Event S) :=
  Opens host port use_ssl server_hostname timeout_s got ::
  match got with
  | Some stream => [Closes stream]
  | None => []
  end.

(** The text [parse_server_configs] splits into tokens: the stripped
    content, or its base64 decoding when the content holds no scheme marker
    and the decoding does. *)
Definition tokenized `{PyRuntime} (content : string) : string :=
  let raw := strip content in
  if contains "://" raw then raw
  else
    let decoded := _safe_b64decode raw in
    if negb (is_empty decoded) && contains "://" decoded then decoded else raw.

(** The text [_parse_vmess] hands to [int] for the dict [d]. *)
Definition vmess_port_text `{PyRuntime} (d : list (string * pyval)) : string :=
  let text := str_ (or_ (default PNone (assoc "port" d)) (PStr "0")) in
  if is_empty text then "0" else text.

(** The host name [_parse_url_config] goes on with. *)
Definition usable_hostname (parsed : Urllib.ParseResult) : Prop :=
  let hostname := strip (or_str (Urllib.hostname parsed) "") in
  is_empty hostname = false ∧ hostname ≠ "unknown".

(** Following the words of the specification: the first occurrence of
    every fingerprint, in the order of first sight. *)
Fixpoint first_seen (configs : list ParsedConfig) : list ParsedConfig :=
  match configs with
  | [] => []
  | c :: rest =>
      c :: filter (fun c' => original_string c' ≠ original_string c) (first_seen rest)
  end.

(** A token starts with one of the three schemes. *)
Definition known_scheme (token : string) : bool :=
  startswith token "vmess://" || startswith token "vless://"
  || startswith token "trojan://".

(** What the parser promises of a config it returns for [source_id]: the
    source, a fingerprint that starts with the scheme of its protocol, a
    usable address and a port that is not zero, within range for vmess. *)
Definition sound_config (source_id : option Z) (c : ParsedConfig) : Prop :=
  Parser.source_id c = source_id ∧
  startswith (original_string c) (Parser.protocol c +:+ "://") = true ∧
  known_scheme (original_string c) = true ∧
  is_empty (add c) = false ∧ add c ≠ "unknown" ∧
  Parser.port c ≠ 0%Z ∧
  (Parser.protocol c = "vmess" → (0 < Parser.port c < 65536)%Z).

(** Every character of the string satisfies the test. *)
Fixpoint every (test : ascii -> bool) (s : string) : bool :=
  match s with
  | EmptyString => true
  | String c s' => test c && every test s'
  end.

Definition no_space : string -> bool := every (fun c => negb (isspace c)).
Definition all_space : string -> bool := every isspace.

(** A key read with [server.get(k) or fallback] counts as missing when it
    is absent, None or the empty string. *)
Definition missing (x : option string) : Prop := x = None ∨ x = Some EmptyString.

(** The rows whose [is_selected] went from [negb b] to [b] between two
    states of the table, compared position by position. *)
Definition flipped (b : bool) (db db' : Store) : list ServerRow :=
  fst <$> filter (fun p => is_selected p.1 = negb b ∧ is_selected p.2 = b)
                 (zip (servers db) (servers db')).

Definition demoted : Store -> Store -> list ServerRow := flipped false.
Definition promoted : Store -> Store -> list ServerRow := flipped true.

(** Nothing but [is_selected] differs between the two states. *)
Definition only_selection_changed (db db' : Store) : Prop :=
  sources db' = sources db ∧ next_id db' = next_id db ∧
  Forall2 (fun r r' => r' = set_is_selected (is_selected r') r) (servers db) (servers db').

(** [chosen] are taken from [pool], and none of them comes after a row of
    the pool that was left. *)
Definition chosen_first (order : relation ServerRow) (pool chosen : list ServerRow) : Prop :=
  chosen ⊆ pool ∧
  ∀ c r, c ∈ chosen → r ∈ pool → r ∉ chosen → order c r.

(** Latency [a] is strictly worse than latency [b], a null latency being
    the worst. *)
Definition latency_worse (a b : option Z) : Prop :=
  match a, b with
  | None, Some _ => True
  | Some x, Some y => (y < x)%Z
  | _, None => False
  end.

(** Following the words of the specification: latency descending (null
    worst), then dislikes descending, then [updated_at] ascending. *)
Definition spec_worst_first (a b : ServerRow) : Prop :=
  latency_worse (latency a) (latency b) ∨
  (latency a = latency b ∧
   ((dislikes b < dislikes a)%Z ∨
    (dislikes a = dislikes b ∧ (updated_at a ≤ updated_at b)%Z))).

(** Following the words of the specification: latency ascending, then
    dislikes ascending, then [updated_at] descending. *)
Definition spec_best_first (a b : ServerRow) : Prop :=
  latency_worse (latency b) (latency a) ∨
  (latency a = latency b ∧
   ((dislikes a < dislikes b)%Z ∨
    (dislikes a = dislikes b ∧ (updated_at b ≤ updated_at a)%Z))).

Definition is_selected_active (r : ServerRow) : Prop :=
  is_selected r = true ∧ status r = "active".

(** Not yet selected, active, and with a latency below 250. *)
Definition is_promotable (r : ServerRow) : Prop :=
  is_selected r = false ∧ status r = "active" ∧
  ∃ l, latency r = Some l ∧ (l < 250)%Z.

#[export] Instance is_selected_active_dec r : Decision (is_selected_active r).
Proof. unfold is_selected_active. apply _. Defined.

#[export] Instance is_promotable_dec r : Decision (is_promotable r).
Proof.
  unfold is_promotable. destruct (latency r) as [l|].
  - destruct (decide (is_selected r = false ∧ status r = "active" ∧ (l < 250)%Z))
      as [Hd|Hd]; [left|right].
    + destruct Hd as (? & ? & ?). eauto.
    + intros (? & ? & l' & [= <-] & ?). tauto.
  - right. intros (_ & _ & l & [=] & _).
Defined.

(** The rebalance as the specification words it, for one store and one
    pair of bounds, clause by clause. *)
Definition demotion_as_specified (db : Store) (min_selected max_selected : Z) : Prop :=
  let c := count_selected_active db in
  let db' := manage_selected_servers db min_selected max_selected in
  (max_selected < c)%Z →
    Z.of_nat (List.length (demoted db db')) = (c - max_selected)%Z ∧
    chosen_first spec_worst_first (filter is_selected_active (servers db)) (demoted db db').

Definition promotion_as_specified (db : Store) (min_selected max_selected : Z) : Prop :=
  let c := count_selected_active db in
  let db' := manage_selected_servers db min_selected max_selected in
  let candidates := filter is_promotable (servers db) in
  (c < min_selected)%Z →
    Z.of_nat (List.length (promoted db db'))
      = Z.min (min_selected - c) (Z.of_nat (List.length candidates)) ∧
    chosen_first spec_best_first candidates (promoted db db').

Definition idle_as_specified (db : Store) (min_selected max_selected : Z) : Prop :=
  let c := count_selected_active db in
  (min_selected ≤ c ≤ max_selected)%Z →
    manage_selected_servers db min_selected max_selected = db.

Definition rebalance_as_specified (db : Store) (min_selected max_selected : Z) : Prop :=
  demotion_as_specified db min_selected max_selected ∧
  promotion_as_specified db min_selected max_selected ∧
  idle_as_specified db min_selected max_selected.

(** The harvest as the specification words it, for one source the loop
    reaches: whatever the fetch gives, the source's [last_scan] is the time
    of the attempt afterwards. *)
Definition last_scan_after_every_attempt `{PyRuntime} {W : Type} `{Network W}
    (source : SourceRow) (unique : list (string * ParsedConfig)) (db : Store) (w : W) : Prop :=
  ∀ unique' db' w',
    harvest_source source unique db w = Ok (unique', db', w') →
    ∀ s, s ∈ sources db' → src_id s = src_id source → last_scan s = Some (now w').

End Spec.

(* ===================================================================== *)
(** * Concrete runs                                                       *)
(* ===================================================================== *)

(** A runtime and a network given by finite tables, to run the pipeline on
    concrete inputs. *)
Module Scenario.
Import ServerTester Db Scanner.

Definition table_get {A : Type} (k : string) (t : list (string * A)) : option A :=
  snd <$> List.find (fun kv => String.eqb k (fst kv)) t.

(** The double quote. *)
Definition q : string := String "034" EmptyString.

(** Each library function answers as its table says; outside the table a
    decoder raises, a query string has no field and a fragment is left as
    it is. [json.dumps] is only given for the empty dict, the one value the
    scan passes to it. The limit of [int] is the default of the
    interpreter, and a DATETIME column keeps every text: the runs store no
    text that reads as a number. *)
Definition table_runtime (b64 : list (string * string)) (json : list (string * pyval))
    (urls : list (string * Urllib.ParseResult))
    (queries : list (string * list (string * list string))) : PyRuntime := {|
  b64decode_text := fun s => table_get s b64;
  json_loads := fun s => table_get s json;
  json_dumps := fun v => match v with PDict [] => "{}" | _ => EmptyString end;
  repr_container := fun _ => EmptyString;
  urlparse := fun s => table_get s urls;
  parse_qs := fun s => default [] (table_get s queries);
  unquote := fun s => Some s;
  int_max_str_digits := 4300;
  numeric_column_text := fun s => s;
  numeric_column_text_other := fun _ _ => eq_refl;
|}.

(** A scripted network: the pages by URL, the countries by host, and for
    each connection the probes open, in the order they open them, whether
    it is accepted, what the peer answers to a read, and the milliseconds
    the clock shows afterwards. Every connection takes one second. *)
Record Attempt : Type := {
  connects : bool;
  reply : option string;
  millis : Z;
}.

Record Script : Type := {
  clock : Z;
  pages : list (string * string);
  attempts : list Attempt;
  last_millis : Z;
  countries : list (string * string);
}.

Definition next_attempt (w : Script) : option Attempt * Script :=
  let w' := fun ms rest => {|
    clock := clock w + 1; pages := pages w; attempts := rest;
    last_millis := ms; countries := countries w |} in
  match attempts w with
  | [] => (None, w' (last_millis w) [])
  | a :: rest => (if connects a then Some a else None, w' (millis a) rest)
  end.

#[export] Instance script_network : Network Script := {|
  now := clock;
  http_get := fun url w => (table_get url (pages w), w);
  geo_lookup := fun host w => (table_get host (countries w), w);
  Stream := Attempt;
  Instant := unit;
  perf_counter := fun w => (tt, w);
  elapsed_ms := fun _ w => (last_millis w, w);
  _open_stream := fun _ _ _ _ _ => next_attempt;
  write_drain := fun _ _ _ w => (true, w);
  readline := fun a _ w => (reply a, w);
  read := fun a _ _ w => (reply a, w);
  close := fun _ w => w;
  websocket_key := fun w => ("AAAAAAAAAAAAAAAAAAAAAA==", w);
|}.

(** A connection that is refused, and one that is accepted after [ms]
    milliseconds and answers nothing. *)
Definition refused : Attempt := {| connects := false; reply := None; millis := 0 |}.
Definition accepted (ms : Z) : Attempt :=
  {| connects := true; reply := None; millis := ms |}.

Definition blank_row : ServerRow := {|
  id := 0; config_string := EmptyString; protocol := "vless";
  transport := Some "tcp"; tls := Some EmptyString; name := "n";
  address := "h.example"; port := 443; host := Some "h.example";
  path := Some "/"; country := Some "Unknown"; latency := None;
  status := "active"; operators := Some "{}"; packet_loss := Some 0%Q;
  speed := Some 0%Q; quality_score := 85; reachable := true; scanned := true;
  source_id := None; is_selected := false; dislikes := 0;
  created_at := 0; updated_at := 0 |}.

(** An active row with the given id, latency and selection. *)
Definition row (i : Z) (lat : option Z) (sel : bool) : ServerRow := {|
  id := i; config_string := pretty i; protocol := protocol blank_row;
  transport := transport blank_row; tls := tls blank_row; name := name blank_row;
  address := address blank_row; port := port blank_row; host := host blank_row;
  path := path blank_row; country := country blank_row; latency := lat;
  status := "active"; operators := operators blank_row;
  packet_loss := packet_loss blank_row; speed := speed blank_row;
  quality_score := 85; reachable := true; scanned := true;
  source_id := None; is_selected := sel; dislikes := 0;
  created_at := 0; updated_at := 0 |}.

Definition store_of (rows : list ServerRow) : Store :=
  {| sources := []; servers := rows; next_id := 100 |}.

(** Two selected rows, one without latency and one slower than 99999 ms,
    and one fast row that is not selected. *)
Definition crowded : Store :=
  store_of [row 1 None true; row 2 (Some 100000%Z) true; row 3 (Some 50%Z) false].

Definition lonely : Store := store_of [row 1 (Some 10%Z) true].

(** A vmess token whose JSON body is
    {"add":"1.2.3.4","port":"abc"}: a port that is not a number. *)
Definition bad_port_body : string :=
  "{" +:+ q +:+ "add" +:+ q +:+ ":" +:+ q +:+ "1.2.3.4" +:+ q +:+ ","
      +:+ q +:+ "port" +:+ q +:+ ":" +:+ q +:+ "abc" +:+ q +:+ "}".

Definition bad_port_dict : pyval :=
  PDict [("add", PStr "1.2.3.4"); ("port", PStr "abc")].

Definition bad_port_token : string :=
  "vmess://eyJhZGQiOiIxLjIuMy40IiwicG9ydCI6ImFiYyJ9".

(** A vless token with a port above 65535. *)
Definition big_port_token : string := "vless://id@a.example:99999".

Definition good_token : string := "vless://id@a.example:443#n1".

Definition runtime : PyRuntime :=
  table_runtime
    [("eyJhZGQiOiIxLjIuMy40IiwicG9ydCI6ImFiYyJ9", bad_port_body)]
    [(bad_port_body, bad_port_dict)]
    [(good_token,
      {| Urllib.hostname := Some "a.example"; Urllib.port := Ok (Some 443%Z);
         Urllib.query := EmptyString; Urllib.fragment := "n1" |});
     (big_port_token,
      {| Urllib.hostname := Some "a.example"; Urllib.port := Raise ValueError;
         Urllib.query := EmptyString; Urllib.fragment := EmptyString |})]
    [].

(** A vmess token whose JSON body is
    {"add":"5.6.7.8","port":8443,"net":"ws"}; the token carries the
    base64 text without its padding. *)
Definition vmess_body : string :=
  "{" +:+ q +:+ "add" +:+ q +:+ ":" +:+ q +:+ "5.6.7.8" +:+ q +:+ ","
      +:+ q +:+ "port" +:+ q +:+ ":8443,"
      +:+ q +:+ "net" +:+ q +:+ ":" +:+ q +:+ "ws" +:+ q +:+ "}".

Definition vmess_dict : list (string * pyval) :=
  [("add", PStr "5.6.7.8"); ("port", PInt 8443); ("net", PStr "ws")].

Definition vmess_token : string :=
  "vmess://eyJhZGQiOiI1LjYuNy44IiwicG9ydCI6ODQ0MywibmV0Ijoid3MifQ".

Definition vmess_runtime : PyRuntime :=
  table_runtime
    [("eyJhZGQiOiI1LjYuNy44IiwicG9ydCI6ODQ0MywibmV0Ijoid3MifQ==", vmess_body)]
    [(vmess_body, PDict vmess_dict)] [] [].

Definition feed : SourceRow := {|
  src_id := 1; url := "https://example.org/sub.txt"; src_name := "Source 1";
  Db.active := true; last_scan := None; src_created_at := 0 |}.

(** The feed answers with one config, the host of the config accepts the
    connection in 40 ms. *)
Definition online : Script := {|
  clock := 1000;
  pages := [("https://example.org/sub.txt", good_token)];
  attempts := [accepted 40];
  last_millis := 0;
  countries := [("a.example", "DE")] |}.

(** No feed answers. *)
Definition offline : Script := {|
  clock := 1000; pages := []; attempts := []; last_millis := 0; countries := [] |}.

(** The first connection is refused, the second one is accepted after
    [ms] milliseconds. *)
Definition flaky (ms : Z) : Script := {|
  clock := 1000; pages := []; attempts := [refused; accepted ms];
  last_millis := 0; countries := [] |}.

Definition candidate : ParsedConfig := {|
  original_string := good_token; Parser.protocol := "vless";
  Parser.transport := "tcp"; ps := "n1"; add := "a.example";
  Parser.port := 443; Parser.host := EmptyString;
  Parser.path := EmptyString; Parser.tls := EmptyString;
  Parser.source_id := Some 1%Z |}.

(** A record of an earlier cycle, written at time 100, that the feed does
    not list any more. *)
Definition stale : ServerRow := {|
  id := 1; config_string := "vless://old@b.example:443"; protocol := "vless";
  transport := Some "tcp"; tls := Some EmptyString; name := "old";
  address := "b.example"; port := 443; host := Some "b.example";
  path := Some "/"; country := Some "Unknown"; latency := Some 30%Z;
  status := "active"; operators := Some "{}"; packet_loss := Some 0%Q;
  speed := Some 0%Q; quality_score := 85; reachable := true; scanned := true;
  source_id := Some 1%Z; is_selected := true; dislikes := 3;
  created_at := 100; updated_at := 100 |}.

(** The dict of a later test of the same config, now timing out. *)
Definition rescan : ServerDict := {|
  d_config_string := "vless://old@b.example:443"; d_protocol := "vless";
  d_transport := Some "ws"; d_tls := Some "tls"; d_name := Some "renamed";
  d_address := "b.example"; d_port := 8443; d_host := Some "cdn.example";
  d_path := Some "/ws"; d_country := Some "DE"; d_latency := Some 999%Z;
  d_status := Some "timeout"; d_operators := None; d_packet_loss := None;
  d_speed := None; d_quality_score := Some 0%Z; d_reachable := Some false;
  d_scanned := Some true; d_source_id := Some 1%Z; d_is_selected := Some false |}.

(** A dict that holds the required keys only. *)
Definition bare : ServerDict := {|
  d_config_string := "vless://new@c.example:443"; d_protocol := "vless";
  d_transport := None; d_tls := None; d_name := None;
  d_address := "c.example"; d_port := 443; d_host := None;
  d_path := None; d_country := None; d_latency := None;
  d_status := None; d_operators := None; d_packet_loss := None;
  d_speed := None; d_quality_score := None; d_reachable := None;
  d_scanned := None; d_source_id := None; d_is_selected := None |}.

Definition stocked : Store := {| sources := [feed]; servers := [stale]; next_id := 2 |}.

Definition paused_feed : SourceRow := {|
  src_id := 1; url := "https://example.org/sub.txt"; src_name := "Source 1";
  Db.active := false; last_scan := None; src_created_at := 0 |}.

Definition paused : Store :=
  {| sources := [paused_feed]; servers := [stale]; next_id := 2 |}.

(** A provider with one connection, and a database whose [stats] row was
    never updated. *)
Definition pool : Providers.DbProvider :=
  {| Providers._dbs := [crowded]; Providers._idx := 0 |}.

Definition database : Database :=
  {| tables := crowded; stats := Some (fresh_stats 0); next_source_id := 1 |}.

Definition settings : Settings := {|
  servers_to_test := 1000; min_selected_servers := 100;
  max_selected_servers := 150; test_timeout_seconds := 3%Q;
  max_latency_ms := 2000 |}.

Definition idle_settings : Settings := {|
  servers_to_test := 0; min_selected_servers := 100;
  max_selected_servers := 150; test_timeout_seconds := 3%Q;
  max_latency_ms := 2000 |}.

End Scenario.

(* ===================================================================== *)
(** * Checks of the primitives                                            *)
(* ===================================================================== *)

Import ServerTester Db Scanner Spec.
Import (hints) Scenario.

Example strip_both_sides : strip "  vless://a  " = "vless://a".
Proof. reflexivity. Qed.

Example split_on_runs : split " a  b c " = ["a"; "b"; "c"].
Proof. reflexivity. Qed.

Example contains_scheme : contains "://" "vmess://x" = true ∧ contains "://" "dm1lc3M" = false.
Proof. split; reflexivity. Qed.

Example int_of_str_examples :
  int_of_str 4300 " 443 " = Ok 443%Z ∧ int_of_str 4300 "-1_0" = Ok (-10)%Z ∧
  int_of_str 4300 "abc" = Raise ValueError ∧ int_of_str 4300 "443.5" = Raise ValueError ∧
  int_of_str 4300 "1__0" = Raise ValueError ∧ int_of_str 4300 "" = Raise ValueError ∧
  int_of_str 4300 (String "031" "443") = Raise ValueError ∧
  int_of_str 4300 (String "160" "443") = Ok 443%Z ∧
  strip (String "031" "443") = "443" ∧
  int_of_str 4300 (srepeat "4" 4300) ≠ Raise ValueError ∧
  int_of_str 4300 (srepeat "4" 4301) = Raise ValueError ∧
  int_of_str 0 (srepeat "4" 4301) ≠ Raise ValueError.
Proof. repeat split; try reflexivity; vm_compute; discriminate. Qed.

Example infer_path_segment :
  _infer_country_code
    "https://raw.githubusercontent.com/ShatakVPN/ConfigForge-V2Ray/refs/heads/main/configs/us/all.txt"
  = Some "US".
Proof. reflexivity. Qed.

Example findall_does_not_overlap : findall_segment 0 "/aa/bb/cc/" = ["aa"; "cc"].
Proof. reflexivity. Qed.

(* ===================================================================== *)
(** * The prober                                                          *)
(* ===================================================================== *)

Lemma best_of_two_unfold {W : Type} (probe : W -> ProbeResult * W) (w : W) :
  _probe_best_of_two probe w =
    if ok (probe w).1 then probe w else probe (probe w).2.
Proof.
  unfold _probe_best_of_two.
  destruct (probe w) as [first w1]; simpl.
  destruct (ok first); [reflexivity|].
  by destruct (probe w1).
Qed.

Lemma counting_fst {W : Type} (probe : W -> ProbeResult * W) (w : W) (n : nat) :
  counting probe (w, n) = ((probe w).1, ((probe w).2, S n)).
Proof. unfold counting. by destruct (probe w). Qed.

(** C5. Best of two: the probe runs once and its result is returned when it
    succeeded; when it failed the probe runs exactly once more and that
    second result is returned, whatever it is. The probe is invoked once in
    the first case and twice in the second, never a third time. *)
Theorem probe_best_of_two_policy {W : Type} (probe : W -> ProbeResult * W) (w : W) :
  let first := probe w in
  let second := probe first.2 in
  let counted := _probe_best_of_two (counting probe) (w, 0) in
  _probe_best_of_two probe w = (if ok first.1 then first else second) ∧
  counted.1 = (_probe_best_of_two probe w).1 ∧
  counted.2.1 = (_probe_best_of_two probe w).2 ∧
  counted.2.2 = (if ok first.1 then 1 else 2).
Proof.
  cbv zeta.
  rewrite (best_of_two_unfold probe), (best_of_two_unfold (counting probe)).
  rewrite counting_fst. cbn [fst snd].
  destruct (ok (probe w).1); [done|].
  by rewrite counting_fst.
Qed.

Section TesterFacts.
Context {W : Type} `{Network W}.

Lemma test_server_unfold (config : ParsedConfig) (timeout_s : Q) (max_latency_ms : Z) (w : W) :
  let r := (_probe_best_of_two (do_probe config timeout_s) w).1 in
  (test_server config timeout_s max_latency_ms w).1 =
    if negb (ok r) || (max_latency_ms <? latency_ms r)%Z
    then {| ServerTester.latency := latency_ms r; ServerTester.status := "timeout";
            ServerTester.scanned := true; ServerTester.reachable := false |}
    else {| ServerTester.latency := latency_ms r; ServerTester.status := "active";
            ServerTester.scanned := true; ServerTester.reachable := true |}.
Proof.
  unfold test_server. cbv zeta.
  destruct (_probe_best_of_two (do_probe config timeout_s) w) as [r w']; simpl.
  by destruct (negb (ok r) || (max_latency_ms <? latency_ms r)%Z).
Qed.

(** C4. [test_server] answers "timeout" with [reachable] false exactly
    when the retried probe failed or its latency is strictly above
    [max_latency_ms], and "active" with [reachable] true otherwise: a
    successful probe at exactly [max_latency_ms] is active, one
    millisecond more is a timeout. The status "error" is never produced. *)
Theorem test_server_classification (config : ParsedConfig) (timeout_s : Q)
    (max_latency_ms : Z) (w : W) :
  let r := (_probe_best_of_two (do_probe config timeout_s) w).1 in
  let out := (test_server config timeout_s max_latency_ms w).1 in
  let failed := ok r = false ∨ (max_latency_ms < latency_ms r)%Z in
  (ServerTester.status out = "timeout" ∧ ServerTester.reachable out = false ↔ failed) ∧
  (ServerTester.status out = "active" ∧ ServerTester.reachable out = true ↔ ¬ failed) ∧
  (ok r = true ∧ latency_ms r = max_latency_ms → ServerTester.status out = "active") ∧
  (ok r = true ∧ latency_ms r = (max_latency_ms + 1)%Z → ServerTester.status out = "timeout") ∧
  ServerTester.status out ≠ "error" ∧
  ServerTester.latency out = latency_ms r ∧
  ServerTester.scanned out = true ∧
  (test_server config timeout_s max_latency_ms w).2
    = (_probe_best_of_two (do_probe config timeout_s) w).2.
Proof.
  cbv zeta. rewrite test_server_unfold. cbv zeta.
  assert (Hw : (test_server config timeout_s max_latency_ms w).2
               = (_probe_best_of_two (do_probe config timeout_s) w).2).
  { unfold test_server.
    destruct (_probe_best_of_two (do_probe config timeout_s) w) as [r w']; simpl.
    by destruct (negb (ok r) || (max_latency_ms <? latency_ms r)%Z). }
  destruct (_probe_best_of_two (do_probe config timeout_s) w) as [r w']; simpl in *.
  destruct (ok r) eqn:Hok; simpl.
  - destruct (Z.ltb_spec max_latency_ms (latency_ms r)); simpl;
      repeat split; try done; try lia; try (intros [? ?]; done);
      try (intros [[=]|?]; lia); try (intros; exfalso; lia); intuition (try done; lia).
  - repeat split; try done; auto; try (intros [[=] _]); intuition done.
Qed.

End TesterFacts.

(* ===================================================================== *)
(** * The store                                                           *)
(* ===================================================================== *)

Section StoreFacts.
Context `{PyRuntime}.

Lemma has_config_elem (db : Store) (key : string) :
  has_config db key = true ↔ ∃ r, r ∈ servers db ∧ config_string r = key.
Proof.
  unfold has_config. rewrite existsb_exists. split.
  - intros (r & Hin & Heq). exists r. split; [by apply list_elem_of_In|].
    by apply String.eqb_eq.
  - intros (r & Hin & Heq). exists r. split; [by apply list_elem_of_In|].
    by apply String.eqb_eq.
Qed.

(** What an upsert that does not raise leaves: the rows of the key are
    overwritten in place, or one row is appended. *)
Lemma upsert_server_ok (db : Store) (server : ServerDict) (ts : Z) (db' : Store) :
  upsert_server db server ts = Ok db' →
  sources db' = sources db ∧
  ((has_config db (d_config_string server) = true ∧
    next_id db' = (next_id db + 1)%Z ∧
    servers db' =
      (fun r => if String.eqb (config_string r) (d_config_string server)
                then do_update r (excluded db server ts) else r) <$> servers db)
   ∨
   (has_config db (d_config_string server) = false ∧
    next_id db' = (next_id db + 1)%Z ∧
    servers db' = servers db ++ [excluded db server ts])).
Proof.
  unfold upsert_server. cbv zeta.
  destruct (negb (binds (excluded db server ts))); [done|].
  destruct (negb (foreign_key_ok db (source_id (excluded db server ts)))); [done|].
  change (config_string (excluded db server ts)) with (d_config_string server).
  destruct (has_config db (d_config_string server)) eqn:Hc;
    intros [= <-]; simpl; split; auto.
Qed.

(** C6. An upsert that meets a row with the same fingerprint overwrites
    every mutable column with the bound value and sets [updated_at] to the
    current time; [id], the fingerprint, [created_at] and [dislikes] of the
    row stay as they were. The rows of other fingerprints do not change.
    (The AUTOINCREMENT counter moves on, as after an insert; no row shows
    it.) *)
Theorem upsert_conflict_keeps_identity (db : Store) (server : ServerDict) (ts : Z)
    (i : nat) (old : ServerRow) (db' : Store) :
  servers db !! i = Some old →
  config_string old = d_config_string server →
  upsert_server db server ts = Ok db' →
  ∃ new, servers db' !! i = Some new ∧
    (id new = id old ∧ config_string new = config_string old ∧
     created_at new = created_at old ∧ dislikes new = dislikes old) ∧
    updated_at new = ts ∧
    (protocol new = d_protocol server ∧
     transport new = Some (or_str (d_transport server) "tcp") ∧
     tls new = Some (or_str (d_tls server) "") ∧
     name new = or_str (d_name server) "Unnamed" ∧
     address new = d_address server ∧
     port new = d_port server ∧
     host new = Some (or_str (d_host server) (d_address server)) ∧
     path new = Some (or_str (d_path server) "/") ∧
     country new = Some (or_str (d_country server) "Unknown") ∧
     latency new = d_latency server ∧
     status new = or_str (d_status server) "pending" ∧
     operators new = Some (json_dumps (or_ (default PNone (d_operators server)) (PDict []))) ∧
     packet_loss new = Some (or_zero_Q (d_packet_loss server)) ∧
     speed new = Some (or_zero_Q (d_speed server)) ∧
     quality_score new = default 0%Z (d_quality_score server) ∧
     reachable new = flag (d_reachable server) ∧
     scanned new = flag (d_scanned server) ∧
     source_id new = d_source_id server ∧
     is_selected new = flag (d_is_selected server)) ∧
    (List.length (servers db') = List.length (servers db) ∧
     sources db' = sources db ∧
     ∀ j r, servers db !! j = Some r →
            config_string r ≠ d_config_string server → servers db' !! j = Some r).
Proof.
  intros Hi Hkey Hup.
  apply upsert_server_ok in Hup as [Hsrc [(_ & Hnext & Hrows)|(Hno & _)]].
  - exists (do_update old (excluded db server ts)). rewrite Hrows.
    split.
    { rewrite list_lookup_fmap, Hi. simpl. rewrite Hkey, String.eqb_refl. done. }
    repeat split; try done.
    + by rewrite length_fmap.
    + intros j r Hj Hne. rewrite list_lookup_fmap, Hj. simpl.
      destruct (String.eqb_spec (config_string r) (d_config_string server)); done.
  - exfalso. assert (has_config db (d_config_string server) = true) as Hyes.
    { apply has_config_elem. exists old. split; [|done].
      by eapply list_elem_of_lookup_2. }
    congruence.
Qed.

(** C10. A row written by [upsert_server] holds a value in every optional
    column the code gives a fallback for: a missing country is stored as
    "Unknown" (not NULL), a missing display name as "Unnamed", a missing
    host header as the address, a missing path as "/", a missing transport
    as "tcp". A key is missing when it is absent, None or empty. *)
Theorem upsert_stores_fallbacks (db : Store) (server : ServerDict) (ts : Z) (db' : Store) :
  upsert_server db server ts = Ok db' →
  (∃ r, r ∈ servers db' ∧ config_string r = d_config_string server) ∧
  ∀ r, r ∈ servers db' → config_string r = d_config_string server →
    (country r ≠ None ∧ transport r ≠ None ∧ host r ≠ None ∧ path r ≠ None) ∧
    (missing (d_country server) → country r = Some "Unknown") ∧
    (missing (d_name server) → name r = "Unnamed") ∧
    (missing (d_host server) → host r = Some (d_address server)) ∧
    (missing (d_path server) → path r = Some "/") ∧
    (missing (d_transport server) → transport r = Some "tcp").
Proof.
  intros Hup.
  assert (Hmiss : ∀ x d, missing x → or_str x d = d).
  { intros x d [->| ->]; done. }
  assert (Hnew : ∀ r : ServerRow,
    (∃ old, r = do_update old (excluded db server ts)) ∨ r = excluded db server ts →
    (country r ≠ None ∧ transport r ≠ None ∧ host r ≠ None ∧ path r ≠ None) ∧
    (missing (d_country server) → country r = Some "Unknown") ∧
    (missing (d_name server) → name r = "Unnamed") ∧
    (missing (d_host server) → host r = Some (d_address server)) ∧
    (missing (d_path server) → path r = Some "/") ∧
    (missing (d_transport server) → transport r = Some "tcp")).
  { intros r [[old ->]| ->]; simpl;
      (split; [done|]); repeat split; intros Hm; by rewrite (Hmiss _ _ Hm). }
  apply upsert_server_ok in Hup as [_ [(Hyes & _ & Hrows)|(Hno & _ & Hrows)]];
    rewrite Hrows; split.
  - apply has_config_elem in Hyes as (old & Hin & Hkey).
    exists (do_update old (excluded db server ts)). split; [|done].
    apply list_elem_of_fmap. exists old. split; [|done].
    by rewrite Hkey, String.eqb_refl.
  - intros r (old & -> & Hin)%list_elem_of_fmap Hkey.
    destruct (String.eqb_spec (config_string old) (d_config_string server)).
    + apply Hnew. eauto.
    + done.
  - exists (excluded db server ts). split; [|done].
    apply elem_of_app. right. by apply list_elem_of_singleton.
  - intros r [Hin| ->%list_elem_of_singleton]%elem_of_app Hkey.
    + exfalso. assert (has_config db (d_config_string server) = true) as Hyes.
      { apply has_config_elem. eauto. }
      congruence.
    + apply Hnew. auto.
Qed.

End StoreFacts.

(* ===================================================================== *)
(** * The invariants of a ServerRecord                                    *)
(* ===================================================================== *)

Lemma row_invariant_unselect (r : ServerRow) :
  row_invariant r → row_invariant (set_is_selected false r).
Proof. intros [_ Hr]. split; [done|exact Hr]. Qed.

Lemma row_invariant_select (r : ServerRow) :
  status r = "active" → row_invariant r → row_invariant (set_is_selected true r).
Proof. intros Ha [_ Hr]. split; [done|exact Hr]. Qed.

Lemma store_invariant_reset (db : Store) :
  store_invariant db → store_invariant (reset_selected db).
Proof.
  unfold store_invariant. simpl. intros Hinv.
  apply Forall_fmap. eapply Forall_impl; [exact Hinv|].
  intros r Hr. by apply row_invariant_unselect.
Qed.

Lemma store_invariant_purge (db : Store) (before_ts : Z) :
  store_invariant db → store_invariant (delete_servers_before db before_ts).
Proof.
  unfold store_invariant. simpl. intros Hinv.
  apply Forall_forall. intros r [_ Hin]%list_elem_of_filter.
  by eapply Forall_forall in Hinv.
Qed.

Section OrderBy.
Context {A : Type} (order : relation A) `{!RelDecision order}.

Lemma insert_ordered_Permutation (x : A) (l : list A) :
  insert_ordered order x l ≡ₚ x :: l.
Proof.
  induction l as [|y l IH]; [done|]. cbn [insert_ordered].
  destruct (decide (order x y)); [done|]. rewrite IH. apply Permutation_swap.
Qed.

Lemma order_by_Permutation (l : list A) : order_by order l ≡ₚ l.
Proof.
  unfold order_by. induction l as [|x l IH]; [done|]. cbn [foldr].
  by rewrite insert_ordered_Permutation, IH.
Qed.

Lemma insert_ordered_sorted `{!Transitive order, !Total order} (x : A) (l : list A) :
  StronglySorted order l → StronglySorted order (insert_ordered order x l).
Proof.
  induction l as [|y l IH]; intros Hl; cbn [insert_ordered].
  { repeat constructor. }
  apply StronglySorted_inv in Hl as [Hl Hy].
  destruct (decide (order x y)) as [Hxy|Hxy].
  - constructor; [by constructor|]. constructor; [done|].
    eapply Forall_impl; [exact Hy|]. intros z Hz. by trans y.
  - constructor; [by apply IH|].
    rewrite insert_ordered_Permutation. constructor; [|done].
    by destruct (total order x y).
Qed.

Lemma StronglySorted_order_by `{!Transitive order, !Total order} (l : list A) :
  StronglySorted order (order_by order l).
Proof.
  unfold order_by. induction l as [|x l IH]; [constructor|]. cbn [foldr].
  by apply insert_ordered_sorted.
Qed.

Lemma order_by_fmap (f : A → A) (l : list A) :
  (∀ a b, order (f a) (f b) ↔ order a b) →
  order_by order (f <$> l) = f <$> order_by order l.
Proof.
  intros Hf. unfold order_by. induction l as [|x l IH]; [done|].
  rewrite fmap_cons. cbn [foldr]. rewrite IH. clear IH.
  induction (foldr (insert_ordered order) [] l) as [|y k IH]; [done|].
  rewrite fmap_cons. cbn [insert_ordered].
  destruct (decide (order x y)) as [Hxy|Hxy].
  - rewrite decide_True by (by apply Hf). by rewrite !fmap_cons.
  - rewrite decide_False by (by rewrite Hf). by rewrite fmap_cons, IH.
Qed.

End OrderBy.

Lemma select_ids_from_pool (cond : ServerRow → bool) (order : relation ServerRow)
    `{!RelDecision order} (n : Z) (db : Store) (i : Z) :
  i ∈ select_ids cond order n db → ∃ r, r ∈ servers db ∧ cond r = true ∧ id r = i.
Proof.
  unfold select_ids. intros (r & -> & Hin)%list_elem_of_fmap.
  apply elem_of_take in Hin as (j & Hj & _).
  apply list_elem_of_lookup_2 in Hj.
  exists r. rewrite order_by_Permutation in Hj.
  apply list_elem_of_filter in Hj as [? ?]. done.
Qed.

(** Ids are a key: a row is known by its id. *)
Lemma id_is_key (rows : list ServerRow) (a b : ServerRow) :
  NoDup (id <$> rows) → a ∈ rows → b ∈ rows → id a = id b → a = b.
Proof.
  induction rows as [|x rows IH]; simpl; intros Hnd Ha Hb Heq.
  - by apply elem_of_nil in Ha.
  - apply NoDup_cons in Hnd as [Hx Hnd].
    apply elem_of_cons in Ha as [->|Ha]; apply elem_of_cons in Hb as [->|Hb].
    + done.
    + exfalso. apply Hx. rewrite Heq. by apply list_elem_of_fmap_2.
    + exfalso. apply Hx. rewrite <- Heq. by apply list_elem_of_fmap_2.
    + by apply IH.
Qed.

Lemma select_ids_cond (cond : ServerRow → bool) (order : relation ServerRow)
    `{!RelDecision order} (n : Z) (db : Store) (r : ServerRow) :
  NoDup (id <$> servers db) → r ∈ servers db →
  id r ∈ select_ids cond order n db → cond r = true.
Proof.
  intros Hnd Hin (r' & Hin' & Hc & Heq)%select_ids_from_pool.
  by rewrite (id_is_key _ _ _ Hnd Hin Hin' (eq_sym Heq)).
Qed.

Lemma store_invariant_demote (db : Store) (ids : list Z) :
  store_invariant db → store_invariant (update_is_selected false ids db).
Proof.
  unfold store_invariant. simpl. intros Hinv.
  apply Forall_fmap. eapply Forall_impl; [exact Hinv|].
  intros r Hr. simpl. case_bool_decide; [by apply row_invariant_unselect|done].
Qed.

(** Promotion keeps the invariants when every promoted id belongs to
    active rows only. *)
Lemma store_invariant_promote (db : Store) (ids : list Z) :
  (∀ r, r ∈ servers db → id r ∈ ids → status r = "active") →
  store_invariant db → store_invariant (update_is_selected true ids db).
Proof.
  unfold store_invariant. simpl. intros Hact Hinv.
  apply Forall_fmap, Forall_forall. intros r Hin. simpl.
  eapply Forall_forall in Hinv; [|exact Hin].
  case_bool_decide; [|done].
  apply row_invariant_select; auto.
Qed.

(** ** The keys are kept *)

Lemma fmap_key_preserved {K : Type} (key : ServerRow → K) (f : ServerRow → ServerRow)
    (rows : list ServerRow) :
  (∀ r, key (f r) = key r) → key <$> (f <$> rows) = key <$> rows.
Proof.
  intros Hf. rewrite <- list_fmap_compose. apply list_fmap_ext.
  intros _ r _. apply Hf.
Qed.

Lemma well_formed_update_is_selected (b : bool) (ids : list Z) (db : Store) :
  well_formed db → well_formed (update_is_selected b ids db).
Proof.
  intros (Hid & Hcs & Hlt). unfold well_formed. simpl.
  rewrite !fmap_key_preserved; try (intros r; by case_bool_decide).
  repeat split; try done.
  apply Forall_fmap. eapply Forall_impl; [exact Hlt|].
  intros r Hr. simpl. by case_bool_decide.
Qed.

Lemma well_formed_manage (db : Store) (min_selected max_selected : Z) :
  well_formed db → well_formed (manage_selected_servers db min_selected max_selected).
Proof.
  intros Hwf. unfold manage_selected_servers. cbv zeta.
  repeat case_match; auto using well_formed_update_is_selected.
Qed.

Lemma well_formed_reset (db : Store) : well_formed db → well_formed (reset_selected db).
Proof.
  intros (Hid & Hcs & Hlt). unfold well_formed. simpl.
  rewrite !fmap_key_preserved; try done.
  repeat split; try done.
  apply Forall_fmap. eapply Forall_impl; [exact Hlt|]. done.
Qed.

Lemma well_formed_purge (db : Store) (before_ts : Z) :
  well_formed db → well_formed (delete_servers_before db before_ts).
Proof.
  intros (Hid & Hcs & Hlt). unfold well_formed. simpl.
  repeat split.
  - eapply sublist_NoDup; [exact Hid|apply fmap_sublist, sublist_filter].
  - eapply sublist_NoDup; [exact Hcs|apply fmap_sublist, sublist_filter].
  - apply Forall_forall. intros r [_ Hin]%list_elem_of_filter.
    by eapply Forall_forall in Hlt.
Qed.

Lemma well_formed_upsert `{PyRuntime} (db : Store) (server : ServerDict) (ts : Z)
    (db' : Store) :
  upsert_server db server ts = Ok db' → well_formed db → well_formed db'.
Proof.
  intros Hup (Hid & Hcs & Hlt).
  apply upsert_server_ok in Hup as [_ [(_ & Hnext & Hrows)|(Hno & Hnext & Hrows)]];
    unfold well_formed; rewrite Hrows, Hnext.
  - rewrite !fmap_key_preserved; try (intros r; by case_match).
    repeat split; try done.
    apply Forall_fmap. eapply Forall_impl; [exact Hlt|].
    intros r Hr. unfold compose. cbv beta in Hr |- *.
    destruct (String.eqb (config_string r) (d_config_string server));
      cbn [id do_update]; lia.
  - rewrite !fmap_app. simpl. repeat split.
    + apply NoDup_app. repeat split; [done| |apply NoDup_singleton].
      intros i (r & -> & Hin)%list_elem_of_fmap Heq%list_elem_of_singleton.
      eapply Forall_forall in Hlt; [|exact Hin]. simpl in *. lia.
    + apply NoDup_app. repeat split; [done| |apply NoDup_singleton].
      intros k (r & -> & Hin)%list_elem_of_fmap Hk%list_elem_of_singleton.
      assert (has_config db (d_config_string server) = true) as Hyes.
      { apply has_config_elem. eauto. }
      congruence.
    + apply Forall_app. split.
      * eapply Forall_impl; [exact Hlt|]. intros r Hr. simpl in *. lia.
      * apply Forall_singleton. simpl. lia.
Qed.

Lemma store_invariant_manage (db : Store) (min_selected max_selected : Z) :
  well_formed db → store_invariant db →
  store_invariant (manage_selected_servers db min_selected max_selected).
Proof.
  intros (Hid & _) Hinv. unfold manage_selected_servers. cbv zeta.
  repeat case_match; auto using store_invariant_demote.
  apply store_invariant_promote; [|done].
  intros r Hin Hsel. apply select_ids_cond in Hsel; [|done..].
  unfold promotable in Hsel.
  apply andb_prop in Hsel as [Hsel _]. apply andb_prop in Hsel as [_ Hact].
  by apply String.eqb_eq.
Qed.

(** The row the worker queues for a tested config satisfies the invariants
    once written, as a fresh row and over any row it replaces. *)
Lemma tested_row_invariant `{PyRuntime} {W : Type} `{Network W}
    (cfg : ParsedConfig) (timeout_s : Q) (max_latency_ms : Z) (w : W)
    (country_code : option string) (db : Store) (ts : Z) :
  let row := server_row cfg (test_server cfg timeout_s max_latency_ms w).1 country_code in
  row_invariant (excluded db row ts) ∧
  ∀ old, row_invariant (do_update old (excluded db row ts)).
Proof.
  cbv zeta. rewrite test_server_unfold. cbv zeta.
  destruct (negb _ || _); split; try intros old; split; simpl; try done.
Qed.

Lemma store_invariant_upsert_tested `{PyRuntime} {W : Type} `{Network W}
    (cfg : ParsedConfig) (timeout_s : Q) (max_latency_ms : Z) (w : W)
    (country_code : option string) (db : Store) (ts : Z) (db' : Store) :
  upsert_server db
    (server_row cfg (test_server cfg timeout_s max_latency_ms w).1 country_code) ts = Ok db' →
  store_invariant db → store_invariant db'.
Proof.
  intros Hup Hinv. unfold store_invariant in *.
  apply upsert_server_ok in Hup as [_ [(_ & _ & Hrows)|(_ & _ & Hrows)]]; rewrite Hrows.
  - apply Forall_fmap. eapply Forall_impl; [exact Hinv|].
    intros r Hr. simpl. case_match; [|done].
    apply tested_row_invariant.
  - apply Forall_app. split; [done|]. apply Forall_singleton.
    apply tested_row_invariant.
Qed.

(** C7. Every operation of the pipeline keeps the invariants of the
    ServerRecords, [is_selected] implies status "active" and [reachable]
    holds exactly for status "active": the reset of [is_selected] before
    the tests, every upsert of a tested result, and the promotions and
    demotions of the selection policy. Each also keeps the keys of the
    table, so the operations can follow one another. *)
Theorem pipeline_preserves_invariants `{PyRuntime} {W : Type} `{Network W} (db : Store) :
  well_formed db → store_invariant db →
  (well_formed (reset_selected db) ∧ store_invariant (reset_selected db)) ∧
  (∀ cfg timeout_s max_latency_ms (w : W) country_code ts db',
     upsert_server db
       (server_row cfg (test_server cfg timeout_s max_latency_ms w).1 country_code) ts
       = Ok db' →
     well_formed db' ∧ store_invariant db') ∧
  (∀ min_selected max_selected,
     well_formed (manage_selected_servers db min_selected max_selected) ∧
     store_invariant (manage_selected_servers db min_selected max_selected)).
Proof.
  intros Hwf Hinv. split; [|split].
  - split; [by apply well_formed_reset|by apply store_invariant_reset].
  - intros cfg timeout_s max_latency_ms w country_code ts db' Hup. split.
    + by eapply well_formed_upsert.
    + by eapply store_invariant_upsert_tested.
  - intros min_selected max_selected. split.
    + by apply well_formed_manage.
    + by apply store_invariant_manage.
Qed.

(* ===================================================================== *)
(** * The selection policy                                                *)
(* ===================================================================== *)

Lemma worst_first_total : Total worst_first.
Proof. intros a b. unfold worst_first. lia. Qed.

Lemma worst_first_transitive : Transitive worst_first.
Proof. intros a b c. unfold worst_first. lia. Qed.

Lemma best_first_total : Total best_first.
Proof. intros a b. unfold best_first. lia. Qed.

Lemma best_first_transitive : Transitive best_first.
Proof. intros a b c. unfold best_first. lia. Qed.

Lemma filter_zip_fmap {A : Type} (f : A → A) (P : A * A → Prop)
    `{!∀ p, Decision (P p)} (l : list A) :
  (filter P (zip l (f <$> l))).*1 = filter (fun r => P (r, f r)) l.
Proof.
  induction l as [|x l IH]; [done|].
  change (zip (x :: l) (f <$> x :: l)) with ((x, f x) :: zip l (f <$> l)).
  rewrite !filter_cons. destruct (decide (P (x, f x))); [|exact IH].
  rewrite fmap_cons. by f_equal.
Qed.

(** The rows an UPDATE of [is_selected] flips are those of the listed ids
    that held the other value; it flips none the other way. *)
Lemma flipped_update (b : bool) (ids : list Z) (db : Store) :
  flipped b db (update_is_selected b ids db)
    = filter (fun r => is_selected r = negb b ∧ id r ∈ ids) (servers db) ∧
  flipped (negb b) db (update_is_selected b ids db) = [].
Proof.
  unfold flipped. cbn [servers update_is_selected].
  rewrite !filter_zip_fmap. split.
  - apply list_filter_iff. intros r. cbn [fst snd].
    case_bool_decide; destruct (is_selected r), b; simpl; intuition congruence.
  - apply elem_of_nil_inv. intros r [Hr _]%list_elem_of_filter.
    cbn [fst snd] in Hr. revert Hr.
    case_bool_decide; destruct (is_selected r), b; simpl; intuition congruence.
Qed.

Lemma only_selection_changed_update (b : bool) (ids : list Z) (db : Store) :
  only_selection_changed db (update_is_selected b ids db).
Proof.
  unfold only_selection_changed. simpl. repeat split.
  apply Forall2_fmap_r. apply Forall_Forall2_diag. apply Forall_forall.
  intros r _. simpl. case_bool_decide; by destruct r.
Qed.

Lemma only_selection_changed_refl (db : Store) : only_selection_changed db db.
Proof.
  unfold only_selection_changed. repeat split.
  apply Forall_Forall2_diag. apply Forall_forall. intros r _. by destruct r.
Qed.

Section Selection.
Context (cond : ServerRow → bool) (order : relation ServerRow).
Context `{!RelDecision order} (order_total : Total order)
        (order_transitive : Transitive order).

(** SELECT ... ORDER BY ... LIMIT n followed by the UPDATE: the rows
    flipped are as many as the limit allows, they come from the rows of
    the WHERE clause, and none of them is listed after a row left
    unchanged. *)
Lemma select_then_update (n : Z) (db : Store) (b : bool) :
  NoDup (id <$> servers db) →
  (∀ r, cond r = true → is_selected r = negb b) →
  let pool := filter (fun r => cond r = true) (servers db) in
  let db' := update_is_selected b (select_ids cond order n db) db in
  List.length (flipped b db db') = Nat.min (Z.to_nat n) (List.length pool) ∧
  chosen_first order pool (flipped b db db') ∧
  flipped (negb b) db db' = [].
Proof.
  intros Hnd Hcond pool db'.
  destruct (flipped_update b (select_ids cond order n db) db) as [Hf Hnone].
  fold db' in Hf, Hnone. split; [|split]; [| |exact Hnone].
  all: set (sorted := order_by order pool).
  all: set (top := take (Z.to_nat n) sorted).
  all: assert (Hrows : NoDup (servers db)) by (by eapply NoDup_fmap_1).
  all: assert (Hsorted : ∀ r, r ∈ sorted ↔ r ∈ pool)
         by (intros r; unfold sorted; by rewrite order_by_Permutation).
  all: assert (Htop : ∀ r, r ∈ top → r ∈ pool)
         by (intros r (j & Hj & _)%elem_of_take; apply Hsorted;
             by eapply list_elem_of_lookup_2).
  all: assert (Hmem : ∀ r, r ∈ flipped b db db' ↔ r ∈ top).
  1,3: intros r; rewrite Hf, list_elem_of_filter; split.
  1,3: intros [[Hs (t & Hid & Ht)%list_elem_of_fmap] Hin];
       assert (r = t) as ->; [|done];
       apply (id_is_key (servers db)); auto;
       by apply Htop, list_elem_of_filter in Ht as [_ ?].
  1,2: intros Ht; pose proof (Htop _ Ht) as [Hc Hin]%list_elem_of_filter;
       repeat split; auto; by apply list_elem_of_fmap_2.
  - assert (flipped b db db' ≡ₚ top) as ->.
    { apply NoDup_Permutation; [rewrite Hf; by apply NoDup_filter| |exact Hmem].
      eapply sublist_NoDup; [|apply sublist_take].
      unfold sorted. rewrite order_by_Permutation. by apply NoDup_filter. }
    unfold top. rewrite length_take. unfold sorted.
    by rewrite order_by_Permutation.
  - split.
    + intros r Hr. by apply Htop, Hmem.
    + intros c r Hc%Hmem Hr Hnot.
      assert (StronglySorted order (top ++ drop (Z.to_nat n) sorted)) as Hss.
      { unfold top. rewrite take_drop. by apply StronglySorted_order_by. }
      eapply StronglySorted_app_1_elem_of; [exact Hss|exact Hc|].
      apply Hsorted in Hr. rewrite <- (take_drop (Z.to_nat n) sorted) in Hr.
      apply elem_of_app in Hr as [Hr|Hr]; [|done].
      exfalso. by apply Hnot, Hmem.
Qed.

End Selection.

Lemma selected_active_iff (r : ServerRow) :
  selected_active r = true ↔ is_selected_active r.
Proof.
  unfold selected_active, is_selected_active.
  rewrite andb_true_iff, String.eqb_eq. done.
Qed.

Lemma promotable_iff (r : ServerRow) : promotable r = true ↔ is_promotable r.
Proof.
  unfold promotable, is_promotable, coalesce_latency.
  rewrite !andb_true_iff, negb_true_iff, String.eqb_eq, Z.ltb_lt.
  destruct (latency r) as [l|]; simpl; split.
  - intros [[? ?] ?]. eauto.
  - intros (? & ? & l' & [= <-] & ?). done.
  - intros [_ ?]. lia.
  - intros (_ & _ & l' & [=] & _).
Qed.

Lemma count_selected_active_length (db : Store) :
  count_selected_active db
    = Z.of_nat (List.length (filter is_selected_active (servers db))).
Proof.
  unfold count_selected_active. do 2 f_equal.
  apply list_filter_iff, selected_active_iff.
Qed.

(** Among rows that have a latency the order of the query and the order
    of the specification agree. *)
Lemma best_first_spec (a b : ServerRow) :
  is_promotable a → is_promotable b → best_first a b → spec_best_first a b.
Proof.
  intros (_ & _ & la & Ha & _) (_ & _ & lb & Hb & _).
  unfold best_first, spec_best_first, coalesce_latency, latency_worse.
  rewrite Ha, Hb. simpl. intros [?|[-> ?]]; auto.
Qed.

Lemma chosen_first_impl (order order' : relation ServerRow) (pool chosen : list ServerRow) :
  (∀ a b, a ∈ pool → b ∈ pool → order a b → order' a b) →
  chosen_first order pool chosen → chosen_first order' pool chosen.
Proof.
  intros Himpl [Hsub Hord]. split; [done|].
  intros c r Hc Hr Hnot. apply Himpl; auto.
Qed.

(** C3, as the code has it. With C the number of selected active rows:
    when C exceeds [max_selected] the C - [max_selected] worst selected
    active rows are demoted (all C of them when [max_selected] is
    negative), worst meaning latency descending with a null latency counted
    as 99999, then dislikes descending, then [updated_at] ascending, and
    nothing is promoted; otherwise, when C is below [min_selected], up to
    [min_selected] - C rows that are not selected, active and of latency
    below 250 are promoted, best first by latency ascending, dislikes
    ascending, [updated_at] descending; otherwise nothing changes. *)
Theorem manage_selected_servers_rebalance (db : Store) (min_selected max_selected : Z) :
  NoDup (id <$> servers db) →
  let c := count_selected_active db in
  let db' := manage_selected_servers db min_selected max_selected in
  let selected := filter is_selected_active (servers db) in
  let candidates := filter is_promotable (servers db) in
  only_selection_changed db db' ∧
  ((max_selected < c)%Z →
     Z.of_nat (List.length (demoted db db')) = Z.min (c - max_selected) c ∧
     chosen_first worst_first selected (demoted db db') ∧
     promoted db db' = []) ∧
  ((c ≤ max_selected)%Z → (c < min_selected)%Z →
     Z.of_nat (List.length (promoted db db'))
       = Z.min (min_selected - c) (Z.of_nat (List.length candidates)) ∧
     chosen_first spec_best_first candidates (promoted db db') ∧
     demoted db db' = []) ∧
  ((c ≤ max_selected)%Z → (min_selected ≤ c)%Z → db' = db).
Proof.
  intros Hnd c db' selected candidates.
  assert (Hsel : filter (fun r => selected_active r = true) (servers db) = selected)
    by apply list_filter_iff, selected_active_iff.
  assert (Hcand : filter (fun r => promotable r = true) (servers db) = candidates)
    by apply list_filter_iff, promotable_iff.
  assert (Hc : c = Z.of_nat (List.length selected))
    by apply count_selected_active_length.
  unfold db', manage_selected_servers. fold c.
  destruct (Z.ltb_spec max_selected c) as [Hmax|Hmax];
    [|destruct (Z.ltb_spec c min_selected) as [Hmin|Hmin]].
  - split; [apply only_selection_changed_update|].
    split; [|split; intros; lia].
    intros _.
    destruct (select_then_update selected_active worst_first worst_first_total
                worst_first_transitive (c - max_selected) db false Hnd)
      as (Hlen & Hchosen & Hnone).
    { intros r [? _]%selected_active_iff. done. }
    rewrite Hsel in Hlen, Hchosen. unfold demoted, promoted.
    split; [rewrite Hlen; lia|]. split; [exact Hchosen|exact Hnone].
  - split; [apply only_selection_changed_update|].
    split; [intros; lia|]. split; [|intros; lia].
    intros _ _.
    destruct (select_then_update promotable best_first best_first_total
                best_first_transitive (min_selected - c) db true Hnd)
      as (Hlen & Hchosen & Hnone).
    { intros r (? & _)%promotable_iff. done. }
    rewrite Hcand in Hlen, Hchosen. unfold demoted, promoted.
    split; [rewrite Hlen; lia|]. split; [|exact Hnone].
    eapply chosen_first_impl; [|exact Hchosen].
    intros a b [Ha _]%list_elem_of_filter [Hb _]%list_elem_of_filter.
    by apply best_first_spec.
  - split; [apply only_selection_changed_refl|].
    split; [intros; lia|]. split; [intros; lia|]. done.
Qed.

Lemma manage_selected_servers_rebalance_witness :
  NoDup (id <$> servers Scenario.crowded) ∧
  only_selection_changed Scenario.crowded
    (manage_selected_servers Scenario.crowded 3 1) ∧
  Z.of_nat (List.length (demoted Scenario.crowded
                           (manage_selected_servers Scenario.crowded 3 1))) = 1%Z.
Proof.
  assert (Hids : NoDup (id <$> servers Scenario.crowded)).
  { apply (bool_decide_unpack _). vm_compute. exact I. }
  split; [exact Hids|].
  destruct (manage_selected_servers_rebalance Scenario.crowded 3 1 Hids)
    as (Honly & Hdemote & _).
  split; [exact Honly|].
  destruct Hdemote as (Hlen & _); [vm_compute; reflexivity|].
  rewrite Hlen. vm_compute. reflexivity.
Defined.

(** C3 as the specification states it fails on the code. In a store with
    two selected active rows, one of null latency and one of latency
    100000, and bounds min 3 and max 1, the row of latency 100000 is
    demoted although the null latency is stated to be the worst, and the
    fast unselected row is not promoted although C is below the minimum.
    With a negative maximum the number of demoted rows is C, not
    C - max. *)
Lemma rebalance_as_specified_fails :
  ¬ demotion_as_specified Scenario.crowded 3 1 ∧
  ¬ promotion_as_specified Scenario.crowded 3 1 ∧
  ¬ demotion_as_specified Scenario.lonely 0 (-1) ∧
  ¬ rebalance_as_specified Scenario.crowded 3 1.
Proof.
  assert (Hd : demoted Scenario.crowded (manage_selected_servers Scenario.crowded 3 1)
               = [Scenario.row 2 (Some 100000%Z) true]) by (vm_compute; reflexivity).
  assert (Hp : promoted Scenario.crowded (manage_selected_servers Scenario.crowded 3 1)
               = []) by (vm_compute; reflexivity).
  assert (Hc : count_selected_active Scenario.crowded = 2%Z) by (vm_compute; reflexivity).
  assert (Hcand : filter is_promotable (servers Scenario.crowded)
                  = [Scenario.row 3 (Some 50%Z) false]) by (vm_compute; reflexivity).
  assert (H1 : ¬ demotion_as_specified Scenario.crowded 3 1).
  { unfold demotion_as_specified. rewrite Hc, Hd. intros Hspec.
    destruct Hspec as [_ [_ Hord]]; [lia|].
    specialize (Hord (Scenario.row 2 (Some 100000%Z) true) (Scenario.row 1 None true)).
    destruct Hord as [Hw|[Heq _]].
    - apply list_elem_of_singleton. reflexivity.
    - apply list_elem_of_filter. split; [split; reflexivity|].
      apply elem_of_cons. left. reflexivity.
    - intros Heq%list_elem_of_singleton. discriminate Heq.
    - exact Hw.
    - discriminate Heq. }
  assert (H2 : ¬ promotion_as_specified Scenario.crowded 3 1).
  { unfold promotion_as_specified. rewrite Hc, Hp, Hcand. intros Hspec.
    destruct Hspec as [Hlen _]; [lia|]. simpl in Hlen. lia. }
  split; [exact H1|]. split; [exact H2|]. split.
  - unfold demotion_as_specified.
    assert (count_selected_active Scenario.lonely = 1%Z) as -> by (vm_compute; reflexivity).
    assert (demoted Scenario.lonely (manage_selected_servers Scenario.lonely 0 (-1))
            = [Scenario.row 1 (Some 10%Z) true]) as -> by (vm_compute; reflexivity).
    intros Hspec. destruct Hspec as [Hlen _]; [lia|]. simpl in Hlen. lia.
  - intros [Hspec _]. exact (H1 Hspec).
Qed.

(* ===================================================================== *)
(** * The stale purge                                                     *)
(* ===================================================================== *)

Section PurgeFacts.
Context `{PyRuntime} {W : Type} `{Network W}.

(** [cleared_old] is assigned in [worker] and not declared [nonlocal]:
    it is a local of [worker]. *)
Lemma cleared_old_is_local : is_local "cleared_old" = true.
Proof. reflexivity. Qed.

Lemma purge_once_unbound (scan_started_at : Z) (st : ScanState W) :
  purge_once scan_started_at None st = (Raise UnboundLocalError, st).
Proof. unfold purge_once. by rewrite cleared_old_is_local. Qed.

(** What one call of [worker] does: it queues the row of its config and
    leaves the store alone; when the config tested active it ends with
    [UnboundLocalError] before [delete_servers_before] is reached. *)
Lemma worker_effect (settings : Settings) (source_country_map : gmap Z (option string))
    (scan_started_at : Z) (cfg : ParsedConfig) (st : ScanState W) :
  let out := worker settings source_country_map scan_started_at cfg st in
  let tested :=
    (test_server cfg (test_timeout_seconds settings) (max_latency_ms settings) (world st)).1 in
  db out.2 = db st ∧ purges out.2 = purges st ∧
  (∃ row, d_config_string row = original_string cfg ∧ tested_row row ∧
          write_queue out.2 = write_queue st ++ [row]) ∧
  out.1 = (if String.eqb (ServerTester.status tested) "active"
           then Raise UnboundLocalError else Ok ()).
Proof.
  unfold worker. cbv zeta.
  destruct (test_server cfg _ _ (world st)) as [tested w1] eqn:Htest. cbn [fst].
  destruct (country_code_for source_country_map cfg (geo_cache st) w1)
    as [[country_code cache] w2].
  assert (tested_row (server_row cfg tested country_code)) as Hrow.
  { exists cfg, (test_timeout_seconds settings), (max_latency_ms settings),
      (world st), country_code. by rewrite Htest. }
  destruct (String.eqb (ServerTester.status tested) "active");
    rewrite ?purge_once_unbound; cbn [fst snd db purges write_queue];
    (split; [done|]); (split; [done|]); (split; [|done]);
    eexists; (split; [|split; [exact Hrow|reflexivity]]); reflexivity.
Qed.

Lemma run_batch_effect (settings : Settings) (source_country_map : gmap Z (option string))
    (scan_started_at : Z) (batch : list ParsedConfig) (st : ScanState W) :
  let st' := run_batch settings source_country_map scan_started_at batch st in
  db st' = db st ∧ purges st' = purges st ∧
  ∃ rows, d_config_string <$> rows = original_string <$> batch ∧
          Forall tested_row rows ∧
          write_queue st' = write_queue st ++ rows.
Proof.
  unfold run_batch. revert st.
  induction batch as [|cfg batch IH]; intros st; simpl.
  - repeat split. exists []. by rewrite app_nil_r.
  - destruct (worker_effect settings source_country_map scan_started_at cfg st)
      as (Hdb & Hp & (row & Hkey & Hrow & Hq) & _).
    destruct (IH (worker settings source_country_map scan_started_at cfg st).2)
      as (Hdb' & Hp' & rows & Hkeys & Hrows & Hq').
    rewrite Hdb', Hp', Hq', Hdb, Hp, Hq. repeat split.
    exists (row :: rows). split; [by rewrite !fmap_cons, Hkey, Hkeys|].
    split; [by constructor|]. by rewrite <- app_assoc.
Qed.

(** An upsert touches the rows of its own fingerprint only. *)
Lemma upsert_keeps_others (db : Store) (server : ServerDict) (ts : Z) (db' : Store)
    (r : ServerRow) :
  upsert_server db server ts = Ok db' →
  r ∈ servers db → config_string r ≠ d_config_string server → r ∈ servers db'.
Proof.
  intros Hup Hin Hne.
  apply upsert_server_ok in Hup as [_ [(_ & _ & Hrows)|(_ & _ & Hrows)]]; rewrite Hrows.
  - apply list_elem_of_fmap. exists r. split; [|done].
    by destruct (String.eqb_spec (config_string r) (d_config_string server)).
  - apply elem_of_app. by left.
Qed.

Lemma writer_keeps_others (items : list ServerDict) (db : Store) (ts : Z) (db' : Store)
    (r : ServerRow) :
  writer items db ts = Ok db' →
  r ∈ servers db → config_string r ∉ d_config_string <$> items → r ∈ servers db'.
Proof.
  revert db. induction items as [|item items IH]; intros db; simpl.
  - by intros [= <-].
  - destruct (upsert_server db item ts) as [db1|e] eqn:Hup; [|done].
    simpl. intros Hw Hin Hnot. apply not_elem_of_cons in Hnot as [Hne Hnot].
    eapply IH; [exact Hw| |exact Hnot].
    by eapply upsert_keeps_others.
Qed.

Lemma run_batches_cons (fuel : nat) (settings : Settings)
    (source_country_map : gmap Z (option string)) (scan_started_at : Z)
    (cfg : ParsedConfig) (configs : list ParsedConfig) (st : ScanState W) :
  run_batches (S fuel) settings source_country_map scan_started_at (cfg :: configs) st =
    (st2 ← join_queue (run_batch settings source_country_map scan_started_at
                         (take 10 (cfg :: configs)) st);
     run_batches fuel settings source_country_map scan_started_at
       (drop 10 (cfg :: configs)) st2).
Proof. reflexivity. Qed.

Lemma run_batches_effect (fuel : nat) (settings : Settings)
    (source_country_map : gmap Z (option string)) (scan_started_at : Z)
    (configs : list ParsedConfig) (st st' : ScanState W) (r : ServerRow) :
  run_batches fuel settings source_country_map scan_started_at configs st = Ok st' →
  purges st' = purges st ∧
  (write_queue st = [] → r ∈ servers (db st) →
   config_string r ∉ original_string <$> configs → r ∈ servers (db st')).
Proof.
  revert configs st. induction fuel as [|fuel IH]; intros configs st.
  - destruct configs; intros [= <-]; auto.
  - destruct configs as [|cfg configs]; [intros [= <-]; auto|].
    rewrite run_batches_cons.
    generalize (cfg :: configs). intros all.
    destruct (run_batch_effect settings source_country_map scan_started_at
                (take 10 all) st) as (Hdb & Hp & rows & Hkeys & _ & Hq).
    unfold join_queue.
    destruct (writer _ _ _) as [db1|e] eqn:Hw; [|done].
    cbn [mbind result_bind].
    intros Hrun. apply IH in Hrun as [Hp' Hkeep]. cbn [purges db write_queue] in *.
    split; [by rewrite Hp'|].
    intros Hempty Hin Hnot.
    rewrite <- (take_drop 10 all), fmap_app in Hnot.
    apply not_elem_of_app in Hnot as [Hnot1 Hnot2].
    apply Hkeep; [done| |done].
    eapply writer_keeps_others; [exact Hw|by rewrite Hdb|].
    by rewrite Hq, Hempty, app_nil_l, Hkeys.
Qed.

(** Whatever the probes answer, the testing phase never calls
    [delete_servers_before], and a record whose fingerprint is not among
    the tested configs is still in the table afterwards, whatever its
    age. *)
Lemma testing_never_purges (settings : Settings)
    (source_country_map : gmap Z (option string)) (scan_started_at : Z)
    (configs : list ParsedConfig) (db0 : Store) (w : W) (st : ScanState W) :
  testing settings source_country_map scan_started_at configs db0 w = Ok st →
  purges st = 0 ∧
  ∀ r, r ∈ servers db0 → config_string r ∉ original_string <$> configs →
       r ∈ servers (db st).
Proof.
  unfold testing. intros Hrun. split.
  - by destruct (run_batches_effect _ _ _ _ _ _ _ Scenario.stale Hrun) as [-> _].
  - intros r Hin Hnot.
    destruct (run_batches_effect _ _ _ _ _ _ _ r Hrun) as [_ Hkeep]. by apply Hkeep.
Qed.

End PurgeFacts.

(** C1. The purge of the records older than the start of the cycle does
    not fire. In this cycle the feed lists one config, its probe succeeds
    in 40 ms and it is written as active; the record written at time 100,
    which the feed does not list any more, is still in the table when the
    cycle ends, although the cycle started at time 1000. *)
Theorem stale_record_survives_active_scan :
  ∃ db' w',
    @_run_scan Scenario.runtime Scenario.Script Scenario.script_network
      Scenario.settings Scenario.stocked Scenario.online = Ok (db', w') ∧
    (∃ r, r ∈ servers db' ∧ config_string r = Scenario.good_token ∧
          status r = "active" ∧ (now Scenario.online ≤ updated_at r)%Z) ∧
    Scenario.stale ∈ servers db' ∧
    (updated_at Scenario.stale < now Scenario.online)%Z.
Proof.
  destruct (@_run_scan Scenario.runtime Scenario.Script Scenario.script_network
              Scenario.settings Scenario.stocked Scenario.online)
    as [[db' w']|e] eqn:Hrun; vm_compute in Hrun; [|discriminate Hrun].
  injection Hrun as <- <-. eexists _, _. split; [reflexivity|].
  split; [|split].
  - eexists. split; [apply elem_of_cons; right; apply elem_of_cons; left; reflexivity|].
    repeat split. vm_compute. discriminate.
  - apply elem_of_cons. left. reflexivity.
  - vm_compute. reflexivity.
Qed.

(* ===================================================================== *)
(** * Harvesting                                                          *)
(* ===================================================================== *)

(** C8 as the specification states it fails on the code: a source whose
    fetch raises is skipped, and its [last_scan] stays as it was. *)
Lemma last_scan_kept_when_fetch_raises :
  ¬ @last_scan_after_every_attempt Scenario.runtime Scenario.Script
      Scenario.script_network Scenario.feed [] Scenario.stocked Scenario.offline.
Proof.
  intros Hspec.
  specialize (Hspec [] Scenario.stocked Scenario.offline eq_refl Scenario.feed).
  assert (last_scan Scenario.feed = Some (now Scenario.offline)) as Habs.
  { apply Hspec; [|reflexivity]. apply elem_of_cons. left. reflexivity. }
  discriminate Habs.
Qed.

Section HarvestFacts.
Context `{PyRuntime} {W : Type} `{Network W}.

(** C8, as the code has it. For a source the loop reaches: when the
    fetch returns a text and the text is parsed, the rows of [sources]
    with the id of the source get the current time as [last_scan] and
    nothing else changes in the store; when the fetch raises, the source
    is skipped and the store, [last_scan] included, stays as it was. *)
Theorem harvest_source_last_scan (source : SourceRow)
    (unique : list (string * ParsedConfig)) (db : Store) (w : W) :
  let resp := (http_get (url source) w).1 in
  let w1 := (http_get (url source) w).2 in
  (∀ text parsed,
     resp = Some text →
     parse_server_configs text (Some (src_id source)) = Ok parsed →
     ∃ db',
       harvest_source source unique db w = Ok (merge_unique parsed unique, db', w1) ∧
       servers db' = servers db ∧ next_id db' = next_id db ∧
       List.length (sources db') = List.length (sources db) ∧
       (∀ s', s' ∈ sources db' → src_id s' = src_id source →
              last_scan s' = Some (now w1)) ∧
       (∀ s, s ∈ sources db → src_id s = src_id source →
             ∃ s', s' ∈ sources db' ∧ src_id s' = src_id s ∧ url s' = url s ∧
                   last_scan s' = Some (now w1)) ∧
       (∀ s, s ∈ sources db → src_id s ≠ src_id source → s ∈ sources db')) ∧
  (resp = None → harvest_source source unique db w = Ok (unique, db, w1)).
Proof.
  cbv zeta. unfold harvest_source.
  destruct (http_get (url source) w) as [resp w1]. cbn [fst snd]. split.
  - intros text parsed -> Hparse. rewrite Hparse. cbn [mbind result_bind].
    eexists. split; [reflexivity|]. cbn [servers next_id sources update_last_scan].
    split; [done|]. split; [done|]. split; [by rewrite length_fmap|].
    split; [|split].
    + intros s' (s & -> & Hin)%list_elem_of_fmap Hid.
      destruct (Z.eqb_spec (src_id s) (src_id source)); [done|].
      by exfalso.
    + intros s Hin Hid. eexists. split.
      * apply list_elem_of_fmap. exists s. split; [reflexivity|exact Hin].
      * rewrite Hid, Z.eqb_refl. done.
    + intros s Hin Hne. apply list_elem_of_fmap. exists s. split; [|done].
      by destruct (Z.eqb_spec (src_id s) (src_id source)).
  - by intros ->.
Qed.

End HarvestFacts.

Lemma harvest_source_last_scan_witness :
  (∃ db',
     @harvest_source Scenario.runtime Scenario.Script Scenario.script_network
       Scenario.feed [] Scenario.stocked Scenario.online
     = Ok (@merge_unique
             [{| original_string := Scenario.good_token; Parser.protocol := "vless";
                 Parser.transport := "tcp"; ps := "n1"; add := "a.example";
                 Parser.port := 443; Parser.host := EmptyString;
                 Parser.path := EmptyString; Parser.tls := EmptyString;
                 Parser.source_id := Some 1%Z |}] [],
           db', Scenario.online) ∧
     ∀ s', s' ∈ sources db' → src_id s' = 1%Z → last_scan s' = Some 1000%Z) ∧
  @harvest_source Scenario.runtime Scenario.Script Scenario.script_network
    Scenario.feed [] Scenario.stocked Scenario.offline
  = Ok ([], Scenario.stocked, Scenario.offline).
Proof.
  pose proof (@harvest_source_last_scan Scenario.runtime Scenario.Script
                Scenario.script_network Scenario.feed [] Scenario.stocked
                Scenario.online) as [Hfetched _].
  pose proof (@harvest_source_last_scan Scenario.runtime Scenario.Script
                Scenario.script_network Scenario.feed [] Scenario.stocked
                Scenario.offline) as [_ Hskipped].
  split.
  - destruct (Hfetched Scenario.good_token _ eq_refl eq_refl)
      as (db' & Hrun & _ & _ & _ & Hscan & _).
    exists db'. split; [exact Hrun|exact Hscan].
  - exact (Hskipped eq_refl).
Defined.

(* ===================================================================== *)
(** * The parser                                                          *)
(* ===================================================================== *)

Section ParserFacts.
Context `{PyRuntime}.

Lemma safe_b64decode_decoded (value decoded : string) :
  strip value = value → (String.length value mod 4)%nat = 0%nat →
  b64decode_text value = Some decoded → _safe_b64decode value = decoded.
Proof.
  intros Hstrip Hlen Hdec. unfold _safe_b64decode. cbv zeta.
  rewrite Hstrip, Hlen.
  change (srepeat "=" ((4 - 0) mod 4)) with EmptyString.
  assert (value +:+ EmptyString = value) as ->.
  { clear. induction value as [|c value IH]; [done|].
    change (String c (value +:+ EmptyString) = String c value). by rewrite IH. }
  by rewrite Hdec.
Qed.

(** A vmess body whose port is not a number: [int] raises [ValueError],
    outside of any [try]. *)
Lemma parse_vmess_raises_on_bad_port (payload : string) :
  b64decode_text "eyJhZGQiOiIxLjIuMy40IiwicG9ydCI6ImFiYyJ9" = Some payload →
  is_empty payload = false →
  json_loads payload = Some Scenario.bad_port_dict →
  _parse_vmess Scenario.bad_port_token None = Raise ValueError.
Proof.
  intros Hdec Hne Hjson. unfold _parse_vmess. cbv zeta.
  change (sdrop 8 Scenario.bad_port_token)
    with "eyJhZGQiOiIxLjIuMy40IiwicG9ydCI6ImFiYyJ9".
  rewrite (safe_b64decode_decoded _ payload); [|reflexivity|reflexivity|exact Hdec].
  rewrite Hne, Hjson. reflexivity.
Qed.

(** C2. [parse_server_configs] raises on a malformed token instead of
    dropping it: for the token vmess://eyJhZGQiOiIxLjIuMy40IiwicG9ydCI6ImFiYyJ9,
    whose body decodes to the JSON object with "add" "1.2.3.4" and "port"
    "abc", the call ends with [ValueError]. *)
Theorem parse_server_configs_raises_on_bad_port (payload : string) :
  b64decode_text "eyJhZGQiOiIxLjIuMy40IiwicG9ydCI6ImFiYyJ9" = Some payload →
  is_empty payload = false →
  json_loads payload = Some Scenario.bad_port_dict →
  parse_server_configs Scenario.bad_port_token None = Raise ValueError.
Proof.
  intros Hdec Hne Hjson. unfold parse_server_configs. cbv zeta.
  change (strip Scenario.bad_port_token) with Scenario.bad_port_token.
  change (is_empty Scenario.bad_port_token) with false.
  change (contains "://" Scenario.bad_port_token) with true. cbv iota.
  change (split Scenario.bad_port_token) with [Scenario.bad_port_token].
  unfold parse_tokens, parse_token. cbv zeta.
  change (strip Scenario.bad_port_token) with Scenario.bad_port_token.
  change (is_empty Scenario.bad_port_token) with false.
  change (startswith Scenario.bad_port_token "vmess://") with true. cbv iota.
  by rewrite (parse_vmess_raises_on_bad_port payload).
Qed.

(** The same for a vless or trojan token: the [port] property of the
    parsed URL raises [ValueError] for a port out of range, and it is read
    outside of the [try]. *)
Lemma parse_server_configs_raises_on_big_port (parsed : Urllib.ParseResult) :
  urlparse Scenario.big_port_token = Some parsed →
  Urllib.hostname parsed = Some "a.example" →
  Urllib.port parsed = Raise ValueError →
  parse_server_configs Scenario.big_port_token None = Raise ValueError.
Proof.
  intros Hurl Hhost Hport. unfold parse_server_configs. cbv zeta.
  change (strip Scenario.big_port_token) with Scenario.big_port_token.
  change (is_empty Scenario.big_port_token) with false.
  change (contains "://" Scenario.big_port_token) with true. cbv iota.
  change (split Scenario.big_port_token) with [Scenario.big_port_token].
  unfold parse_tokens, parse_token. cbv zeta.
  change (strip Scenario.big_port_token) with Scenario.big_port_token.
  change (is_empty Scenario.big_port_token) with false.
  change (startswith Scenario.big_port_token "vmess://") with false.
  change (startswith Scenario.big_port_token "vless://") with true. cbv iota.
  unfold _parse_url_config. rewrite Hurl. cbv zeta. rewrite Hhost, Hport.
  reflexivity.
Qed.

End ParserFacts.

Lemma parse_server_configs_raises_on_bad_port_witness :
  @parse_server_configs Scenario.runtime Scenario.bad_port_token None = Raise ValueError.
Proof.
  apply (@parse_server_configs_raises_on_bad_port Scenario.runtime Scenario.bad_port_body);
    reflexivity.
Defined.

(** A well-formed token next to others is parsed, and a repeated token is
    kept once. *)
Example parse_server_configs_dedup :
  @parse_server_configs Scenario.runtime
    ("x " +:+ Scenario.good_token +:+ " " +:+ Scenario.good_token) None
  = Ok [{| original_string := Scenario.good_token; Parser.protocol := "vless";
           Parser.transport := "tcp"; ps := "n1"; add := "a.example";
           Parser.port := 443; Parser.host := EmptyString;
           Parser.path := EmptyString; Parser.tls := EmptyString;
           Parser.source_id := None |}].
Proof. reflexivity. Qed.

(* ===================================================================== *)
(** * The country of a source                                             *)
(* ===================================================================== *)

(** C9. The inference misses the file name suffix: for a URL ending in
    -us.txt or _us.txt it yields nothing. The pattern of the code asks for
    a backslash and one more character between the two letters and txt. *)
Theorem infer_country_code_misses_suffix :
  _infer_country_code "https://example.com/feeds/list-us.txt" = None ∧
  _infer_country_code "https://example.com/feeds/list_us.txt" = None ∧
  _infer_country_code "https://example.com/feeds/list-us\.txt" = Some "US".
Proof. repeat split; reflexivity. Qed.

Lemma findall_segment_0 (c : ascii) (s' : string) :
  findall_segment 0 (String c s') =
    match s' with
    | String a (String b (String d _)) =>
        if Ascii.eqb c "/" && is_az a && is_az b && Ascii.eqb d "/"
        then String a (String b EmptyString) :: findall_segment 3 s'
        else findall_segment 0 s'
    | _ => findall_segment 0 s'
    end.
Proof. reflexivity. Qed.

Lemma findall_segment_skip (k : nat) (c : ascii) (s' : string) :
  findall_segment (S k) (String c s') = findall_segment k s'.
Proof. reflexivity. Qed.

(** Every group found is two letters of [[a-z]]. *)
Lemma findall_segment_letters (s : string) (skip : nat) (g : string) :
  g ∈ findall_segment skip s →
  ∃ a b, g = String a (String b EmptyString) ∧ is_az a = true ∧ is_az b = true.
Proof.
  revert skip. induction s as [|c s' IH]; intros skip.
  - simpl. by intros ?%elem_of_nil.
  - destruct skip as [|k]; [|rewrite findall_segment_skip; apply IH].
    rewrite findall_segment_0.
    destruct s' as [|a [|b [|d rest]]]; try apply IH.
    destruct (Ascii.eqb c "/" && is_az a && is_az b && Ascii.eqb d "/") eqn:Hm;
      [|apply IH].
    intros [->|Hin]%elem_of_cons; [|by eapply IH].
    apply andb_prop in Hm as [Hm _]. apply andb_prop in Hm as [Hm Hb].
    apply andb_prop in Hm as [_ Ha]. eauto.
Qed.

(** A text that holds a two-letter segment between slashes has a match. *)
Lemma findall_segment_found (s : string) (skip : nat) (pre post : string) (a b : ascii) :
  s = pre +:+ String "/" (String a (String b (String "/" post))) →
  is_az a = true → is_az b = true → skip ≤ String.length pre →
  findall_segment skip s ≠ [].
Proof.
  intros Hs Ha Hb. revert skip pre Hs.
  induction s as [|c s' IH]; intros skip pre Hs Hskip.
  - destruct pre; discriminate Hs.
  - destruct skip as [|k].
    + rewrite findall_segment_0. destruct pre as [|p pre'].
      * injection Hs as -> ->. by rewrite Ha, Hb.
      * injection Hs as -> Hs'.
        assert (findall_segment 0 s' ≠ []) as Hrest
          by (apply (IH 0 pre' Hs'); simpl; lia).
        destruct s' as [|x [|y [|d rest]]]; try done.
        by destruct (Ascii.eqb p "/" && is_az x && is_az y && Ascii.eqb d "/").
    + rewrite findall_segment_skip. destruct pre as [|p pre']; [simpl in Hskip; lia|].
      injection Hs as -> Hs'. apply (IH k pre' Hs'). simpl in Hskip. lia.
Qed.

(** The path rule of the inference: a URL whose lower-cased text holds a
    two-letter segment between slashes gets the upper-cased letters of
    such a segment, the last one found. *)
Lemma infer_country_code_path_segment (source_url pre post : string) (a b : ascii) :
  lower source_url = pre +:+ String "/" (String a (String b (String "/" post))) →
  is_az a = true → is_az b = true →
  ∃ x y, is_az x = true ∧ is_az y = true ∧
    String x (String y EmptyString) ∈ findall_segment 0 (lower source_url) ∧
    _infer_country_code source_url
      = Some (String (upper_char x) (String (upper_char y) EmptyString)).
Proof.
  intros Hurl Ha Hb. unfold _infer_country_code. cbv zeta.
  pose proof (findall_segment_found _ 0 _ _ _ _ Hurl Ha Hb (Nat.le_0_l _)) as Hne.
  destruct (last (findall_segment 0 (lower source_url))) as [g|] eqn:Hlast.
  - apply last_Some in Hlast as [l' Hl'].
    assert (g ∈ findall_segment 0 (lower source_url)) as Hin.
    { rewrite Hl'. apply elem_of_app. right. by apply list_elem_of_singleton. }
    destruct (findall_segment_letters _ _ _ Hin) as (x & y & -> & Hx & Hy).
    exists x, y. done.
  - by apply last_None in Hlast.
Qed.

(** The resolver is consulted only when the inference for the source of
    the config gave nothing: with an inferred code neither the network nor
    the cache of the resolver is touched. *)
Lemma country_code_for_inferred `{PyRuntime} {W : Type} `{Network W}
    (source_country_map : gmap Z (option string)) (cfg : ParsedConfig)
    (cache : gmap string (option string)) (w : W) (sid : Z) (code : string) :
  Parser.source_id cfg = Some sid →
  source_country_map !! sid = Some (Some code) →
  is_empty code = false →
  country_code_for source_country_map cfg cache w = (Some code, cache, w).
Proof.
  intros Hsid Hmap Hne. unfold country_code_for. cbv zeta.
  rewrite Hsid, Hmap. simpl. by rewrite Hne.
Qed.

(* ===================================================================== *)
(** * The theorems at concrete inputs                                     *)
(* ===================================================================== *)

Lemma upsert_conflict_keeps_identity_witness :
  ∃ db' new,
    @upsert_server Scenario.runtime Scenario.stocked Scenario.rescan 2000 = Ok db' ∧
    servers db' !! 0%nat = Some new ∧
    id new = 1%Z ∧ created_at new = 100%Z ∧ dislikes new = 3%Z ∧
    updated_at new = 2000%Z ∧ status new = "timeout".
Proof.
  destruct (@upsert_server Scenario.runtime Scenario.stocked Scenario.rescan 2000)
    as [db'|e] eqn:Hup; [|vm_compute in Hup; discriminate Hup].
  destruct (@upsert_conflict_keeps_identity Scenario.runtime Scenario.stocked
              Scenario.rescan 2000 0%nat Scenario.stale db' eq_refl eq_refl Hup)
    as (new & Hnew & (Hid & _ & Hcreated & Hdislikes) & Hupdated & Hset & _).
  exists db', new. split; [reflexivity|]. split; [exact Hnew|].
  split; [exact Hid|]. split; [exact Hcreated|]. split; [exact Hdislikes|].
  split; [exact Hupdated|]. apply Hset.
Defined.

Lemma upsert_stores_fallbacks_witness :
  ∃ db' r,
    @upsert_server Scenario.runtime Scenario.stocked Scenario.bare 2000 = Ok db' ∧
    r ∈ servers db' ∧ config_string r = "vless://new@c.example:443" ∧
    country r = Some "Unknown" ∧ name r = "Unnamed" ∧ host r = Some "c.example" ∧
    path r = Some "/" ∧ transport r = Some "tcp".
Proof.
  destruct (@upsert_server Scenario.runtime Scenario.stocked Scenario.bare 2000)
    as [db'|e] eqn:Hup; [|vm_compute in Hup; discriminate Hup].
  destruct (@upsert_stores_fallbacks Scenario.runtime Scenario.stocked
              Scenario.bare 2000 db' Hup) as [(r & Hin & Hkey) Hall].
  destruct (Hall r Hin Hkey) as (_ & Hcountry & Hname & Hhost & Hpath & Htransport).
  exists db', r. split; [reflexivity|]. split; [exact Hin|]. split; [exact Hkey|].
  split; [apply Hcountry; by left|]. split; [apply Hname; by left|].
  split; [apply Hhost; by left|]. split; [apply Hpath; by left|].
  apply Htransport; by left.
Defined.

Lemma pipeline_preserves_invariants_witness :
  well_formed Scenario.stocked ∧ store_invariant Scenario.stocked ∧
  store_invariant (reset_selected Scenario.stocked) ∧
  store_invariant (manage_selected_servers Scenario.stocked 100 150).
Proof.
  assert (Hwf : well_formed Scenario.stocked).
  { split; [|split].
    - apply (bool_decide_unpack _). vm_compute. exact I.
    - apply (bool_decide_unpack _). vm_compute. exact I.
    - constructor; [vm_compute; reflexivity|constructor]. }
  assert (Hinv : store_invariant Scenario.stocked).
  { constructor; [|constructor].
    split; [intros _; reflexivity|]. split; intros _; reflexivity. }
  destruct (@pipeline_preserves_invariants Scenario.runtime Scenario.Script
              Scenario.script_network Scenario.stocked Hwf Hinv)
    as ((_ & Hreset) & _ & Hmanage).
  split; [exact Hwf|]. split; [exact Hinv|]. split; [exact Hreset|].
  apply Hmanage.
Defined.

(* ===================================================================== *)
(** * A whole cycle                                                       *)
(* ===================================================================== *)

Section CycleFacts.
Context `{PyRuntime} {W : Type} `{Network W}.

Lemma writer_keeps_invariants (items : list ServerDict) (db : Store) (ts : Z)
    (db' : Store) :
  Forall tested_row items → writer items db ts = Ok db' →
  well_formed db ∧ store_invariant db → well_formed db' ∧ store_invariant db'.
Proof.
  intros Hitems. revert db.
  induction Hitems as [|item items Hitem _ IH]; intros db; simpl.
  - by intros [= <-].
  - destruct (upsert_server db item ts) as [db1|e] eqn:Hup; [|done].
    cbn [mbind result_bind]. intros Hw [Hwf Hinv]. apply (IH db1 Hw).
    destruct Hitem as (cfg & timeout_s & max_latency_ms & w & country_code & ->).
    split; [by eapply well_formed_upsert|by eapply store_invariant_upsert_tested].
Qed.

Lemma run_batches_keeps_invariants (fuel : nat) (settings : Settings)
    (source_country_map : gmap Z (option string)) (scan_started_at : Z)
    (configs : list ParsedConfig) (st st' : ScanState W) :
  run_batches fuel settings source_country_map scan_started_at configs st = Ok st' →
  Forall tested_row (write_queue st) →
  well_formed (db st) ∧ store_invariant (db st) →
  well_formed (db st') ∧ store_invariant (db st').
Proof.
  revert configs st. induction fuel as [|fuel IH]; intros configs st.
  - destruct configs; intros [= <-]; auto.
  - destruct configs as [|cfg configs]; [intros [= <-]; auto|].
    rewrite run_batches_cons.
    generalize (cfg :: configs). intros all.
    destruct (run_batch_effect settings source_country_map scan_started_at
                (take 10 all) st) as (Hdb & _ & rows & _ & Hrows & Hq).
    unfold join_queue.
    destruct (writer _ _ _) as [db1|e] eqn:Hw; [|done].
    cbn [mbind result_bind].
    intros Hrun Hqueue Hgood. apply IH in Hrun; [exact Hrun|by constructor|].
    cbn [db]. eapply writer_keeps_invariants; [|exact Hw|by rewrite Hdb].
    rewrite Hq. by apply Forall_app.
Qed.

(** Harvesting writes to the table [sources] only. *)
Lemma harvest_keeps_servers (sources : list SourceRow) (servers_needed : Z)
    (unique unique' : list (string * ParsedConfig)) (db db' : Store) (w w' : W) :
  harvest sources servers_needed unique db w = Ok (unique', db', w') →
  servers db' = servers db ∧ next_id db' = next_id db.
Proof.
  revert unique db w. induction sources as [|source sources IH]; intros unique db w; simpl.
  - by intros [= _ <- _].
  - destruct (servers_needed <=? _)%Z; [by intros [= _ <- _]|].
    unfold harvest_source.
    destruct (http_get (url source) w) as [[text|] w1].
    + destruct (parse_server_configs text _) as [parsed|e]; [|done].
      cbn [mbind result_bind]. intros Hrest. by apply IH in Hrest.
    + cbn [mbind result_bind]. intros Hrest. by apply IH in Hrest.
Qed.

(** A cycle that completes leaves a table whose keys and whose records'
    invariants hold, when they held before. *)
Lemma run_scan_keeps_invariants (settings : Settings) (db db' : Store) (w w' : W) :
  _run_scan settings db w = Ok (db', w') →
  well_formed db → store_invariant db →
  well_formed db' ∧ store_invariant db'.
Proof.
  unfold _run_scan. cbv zeta. intros Hrun Hwf Hinv.
  destruct (get_active_sources db) as [|source sources]; [by injection Hrun as <- <-|].
  destruct (harvest _ _ _ _ _) as [[[unique db1] w1]|e] eqn:Hharvest; [|done].
  cbn [mbind result_bind] in Hrun.
  apply harvest_keeps_servers in Hharvest as [Hservers Hnext].
  assert (well_formed db1 ∧ store_invariant db1) as [Hwf1 Hinv1].
  { unfold well_formed, store_invariant. by rewrite Hservers, Hnext. }
  destruct (slice_to _ _) as [|cfg configs]; [by injection Hrun as <- <-|].
  destruct (testing _ _ _ _ _ _) as [st|e] eqn:Htesting; [|done].
  cbn [mbind result_bind] in Hrun. injection Hrun as <- <-.
  unfold testing in Htesting.
  apply run_batches_keeps_invariants in Htesting as [Hwf2 Hinv2].
  - split; [by apply well_formed_manage|by apply store_invariant_manage].
  - constructor.
  - cbn [Scanner.db]. split; [by apply well_formed_reset|by apply store_invariant_reset].
Qed.

End CycleFacts.

(* ===================================================================== *)
(** * The testable properties of the specification, run                   *)
(* ===================================================================== *)

(** A probe that fails on its first call and succeeds on its second is
    classified by the second call. *)
Example retry_uses_second_result :
  (@test_server Scenario.Script Scenario.script_network
     Scenario.candidate 3%Q 2000 (Scenario.flaky 50)).1
  = {| ServerTester.latency := 50; ServerTester.status := "active";
       ServerTester.scanned := true; ServerTester.reachable := true |}.
Proof. reflexivity. Qed.

(** A latency at the bound is active, one millisecond more is a timeout. *)
Example latency_gate :
  ServerTester.status
    (@test_server Scenario.Script Scenario.script_network
       Scenario.candidate 3%Q 2000 (Scenario.flaky 2000)).1 = "active" ∧
  ServerTester.status
    (@test_server Scenario.Script Scenario.script_network
       Scenario.candidate 3%Q 2000 (Scenario.flaky 2001)).1 = "timeout".
Proof. split; reflexivity. Qed.

(** Two refused connections: the probe is not run a third time. *)
Example two_failures_are_a_timeout :
  @test_server Scenario.Script Scenario.script_network Scenario.candidate 3%Q 2000
    {| Scenario.clock := 0; Scenario.pages := [];
       Scenario.attempts := [Scenario.refused; Scenario.refused; Scenario.accepted 10];
       Scenario.last_millis := 0; Scenario.countries := [] |}
  = ({| ServerTester.latency := 999; ServerTester.status := "timeout";
        ServerTester.scanned := true; ServerTester.reachable := false |},
     {| Scenario.clock := 2; Scenario.pages := [];
        Scenario.attempts := [Scenario.accepted 10];
        Scenario.last_millis := 0; Scenario.countries := [] |}).
Proof. reflexivity. Qed.

(** Five active rows that are not selected, of latencies 50, 80, 120, 200
    and 240, with bounds 3 and 10: the three fastest get selected. *)
Example lower_bound_selects_fastest :
  let db := Scenario.store_of
    [Scenario.row 1 (Some 200%Z) false; Scenario.row 2 (Some 50%Z) false;
     Scenario.row 3 (Some 240%Z) false; Scenario.row 4 (Some 120%Z) false;
     Scenario.row 5 (Some 80%Z) false] in
  (fun r => (id r, is_selected r)) <$> servers (manage_selected_servers db 3 10)
  = [(1, false); (2, true); (3, false); (4, true); (5, true)]%Z.
Proof. vm_compute. reflexivity. Qed.

(** Ten selected active rows and a maximum of seven: the three of the
    worst latency, a null latency among them, are demoted. *)
Example upper_bound_demotes_slowest :
  let db := Scenario.store_of
    [Scenario.row 1 (Some 10%Z) true; Scenario.row 2 (Some 900%Z) true;
     Scenario.row 3 (Some 30%Z) true; Scenario.row 4 None true;
     Scenario.row 5 (Some 50%Z) true; Scenario.row 6 (Some 60%Z) true;
     Scenario.row 7 (Some 800%Z) true; Scenario.row 8 (Some 80%Z) true;
     Scenario.row 9 (Some 90%Z) true; Scenario.row 10 (Some 100%Z) true] in
  id <$> demoted db (manage_selected_servers db 0 7) = [2; 4; 7]%Z.
Proof. vm_compute. reflexivity. Qed.

(* ===================================================================== *)
(** * Facts about [str] methods                                           *)
(* ===================================================================== *)

Lemma append_empty_r (s : string) : s +:+ EmptyString = s.
Proof.
  induction s as [|c s IH]; [done|].
  change (String c (s +:+ EmptyString) = String c s). by rewrite IH.
Qed.

Lemma append_cons (c : ascii) (s t : string) : String c s +:+ t = String c (s +:+ t).
Proof. reflexivity. Qed.

Lemma append_assoc (s t u : string) : (s +:+ t) +:+ u = s +:+ (t +:+ u).
Proof.
  induction s as [|c s IH]; [done|]. by rewrite !append_cons, IH.
Qed.

Lemma rev_app_eq (s t : string) : String.rev_app s t = String.rev s +:+ t.
Proof.
  unfold String.rev. revert t. induction s as [|c s IH]; intros t; [done|].
  cbn [String.rev_app]. rewrite (IH (String c t)), (IH (String c EmptyString)).
  by rewrite append_assoc.
Qed.

Lemma rev_cons (c : ascii) (s : string) :
  String.rev (String c s) = String.rev s +:+ String c EmptyString.
Proof. unfold String.rev at 1. cbn [String.rev_app]. apply rev_app_eq. Qed.

Lemma rev_snoc (s : string) (c : ascii) :
  String.rev (s +:+ String c EmptyString) = String c (String.rev s).
Proof.
  induction s as [|a s IH]; [done|].
  by rewrite append_cons, !rev_cons, IH, append_cons.
Qed.

Lemma rev_involutive (s : string) : String.rev (String.rev s) = s.
Proof.
  induction s as [|c s IH]; [done|]. by rewrite rev_cons, rev_snoc, IH.
Qed.

(** [lstrip] stops at the first character that is no white space. *)
Lemma lstrip_head (s : string) :
  lstrip s = EmptyString ∨ ∃ c t, lstrip s = String c t ∧ isspace c = false.
Proof.
  induction s as [|c s IH]; [by left|]. simpl.
  destruct (isspace c) eqn:Hc; [exact IH|]. right. eauto.
Qed.

Lemma lstrip_fixed (c : ascii) (s : string) :
  isspace c = false → lstrip (String c s) = String c s.
Proof. intros Hc. simpl. by rewrite Hc. Qed.

Lemma lstrip_idempotent (s : string) : lstrip (lstrip s) = lstrip s.
Proof.
  destruct (lstrip_head s) as [->|(c & t & -> & Hc)]; [done|]. by apply lstrip_fixed.
Qed.

Lemma lstrip_snoc (s : string) (c : ascii) :
  isspace c = false →
  lstrip (s +:+ String c EmptyString) = lstrip s +:+ String c EmptyString.
Proof.
  intros Hc. induction s as [|a s IH]; [by apply lstrip_fixed|].
  rewrite append_cons. simpl. by destruct (isspace a).
Qed.

Lemma rstrip_cons (c : ascii) (s : string) :
  isspace c = false → rstrip (String c s) = String c (rstrip s).
Proof.
  intros Hc. unfold rstrip. by rewrite rev_cons, lstrip_snoc, rev_snoc.
Qed.

Lemma rstrip_idempotent (s : string) : rstrip (rstrip s) = rstrip s.
Proof. unfold rstrip. by rewrite rev_involutive, lstrip_idempotent. Qed.

Lemma strip_idempotent (s : string) : strip (strip s) = strip s.
Proof.
  unfold strip.
  assert (lstrip (rstrip (lstrip s)) = rstrip (lstrip s)) as ->.
  { destruct (lstrip_head s) as [->|(c & t & -> & Hc)]; [done|].
    rewrite (rstrip_cons _ _ Hc). by apply lstrip_fixed. }
  apply rstrip_idempotent.
Qed.

(** A string without white space is left alone by [strip]. *)
Lemma rstrip_no_space (s : string) : no_space s = true → rstrip s = s.
Proof.
  induction s as [|c s IH]; [done|]. simpl.
  intros [Hc Hs]%andb_prop. apply negb_true_iff in Hc.
  by rewrite (rstrip_cons _ _ Hc), IH.
Qed.

Lemma strip_no_space (s : string) : no_space s = true → strip s = s.
Proof.
  intros Hs. unfold strip.
  assert (lstrip s = s) as ->; [|by apply rstrip_no_space].
  destruct s as [|c s]; [done|].
  apply andb_prop in Hs as [Hc _]. apply negb_true_iff in Hc. by apply lstrip_fixed.
Qed.

Lemma lstrip_all_space (s : string) : all_space s = true → lstrip s = EmptyString.
Proof.
  induction s as [|c s IH]; [done|]. simpl.
  intros [Hc Hs]%andb_prop. rewrite Hc. by apply IH.
Qed.

Lemma strip_all_space (s : string) : all_space s = true → strip s = EmptyString.
Proof. intros Hs. unfold strip. by rewrite (lstrip_all_space _ Hs). Qed.

Lemma every_rev_app (test : ascii → bool) (s t : string) :
  every test (String.rev_app s t) = every test s && every test t.
Proof.
  revert t. induction s as [|c s IH]; intros t; [done|].
  cbn [String.rev_app]. rewrite IH. simpl.
  destruct (test c), (every test s), (every test t); done.
Qed.

(** The tokens of [split] are not empty and hold no white space. *)
Lemma split_go_tokens (cur s : string) (t : string) :
  no_space cur = true → t ∈ split_go cur s →
  no_space t = true ∧ is_empty t = false.
Proof.
  revert cur. induction s as [|c s IH]; intros cur Hcur; simpl.
  - destruct cur as [|a cur]; simpl; [by intros ?%elem_of_nil|].
    intros ->%list_elem_of_singleton. split.
    + unfold no_space, String.rev. by rewrite every_rev_app, andb_true_r.
    + rewrite rev_cons. by destruct (String.rev cur).
  - destruct (isspace c) eqn:Hc.
    + destruct cur as [|a cur]; simpl; [by apply IH|].
      intros [->|Hin]%elem_of_cons; [|exact (IH EmptyString eq_refl Hin)].
      split.
      * unfold no_space, String.rev. by rewrite every_rev_app, andb_true_r.
      * rewrite rev_cons. by destruct (String.rev cur).
    + apply IH. unfold no_space in *. cbn [every]. by rewrite Hc.
Qed.

Lemma split_tokens (s t : string) :
  t ∈ split s → no_space t = true ∧ is_empty t = false ∧ strip t = t.
Proof.
  intros Hin. destruct (split_go_tokens EmptyString s t eq_refl Hin) as [Hns Hne].
  auto using strip_no_space.
Qed.

(* ===================================================================== *)
(** * More on the prober                                                  *)
(* ===================================================================== *)

Section ProbeFacts.
Context {W : Type} `{Network W}.

Lemma probe_ws_contract (host : string) (port : Z) (path host_header : string)
    (use_ssl : bool) (server_hostname : option string) (timeout_s : Q) (w : W) :
  probe_contract
    (_open_stream host port use_ssl server_hostname timeout_s (perf_counter w).2)
    (_probe_ws host port path host_header use_ssl server_hostname timeout_s w).
Proof.
  unfold probe_contract, _probe_ws.
  destruct (perf_counter w) as [start w0]. cbn [fst snd].
  destruct (_open_stream _ _ _ _ _ w0) as [[stream|] w1]; cbn [fst snd]; [|done].
  destruct (websocket_key w1) as [key w2].
  destruct (write_drain _ _ _ w2) as [[] w3]; [|split; eauto].
  destruct (readline _ _ w3) as [[line|] w4]; [|split; eauto].
  destruct (contains " 101 " line || startswith line "HTTP/1.1 101"
            || startswith line "HTTP/1.0 101").
  - destruct (elapsed_ms start w4) as [ms w5]. split; [done|]. simpl. eauto.
  - split; [done|]. simpl. eauto.
Qed.

Lemma probe_http2_contract (host : string) (port : Z)
    (use_ssl : bool) (server_hostname : option string) (timeout_s : Q) (w : W) :
  probe_contract
    (_open_stream host port use_ssl server_hostname timeout_s (perf_counter w).2)
    (_probe_http2 host port use_ssl server_hostname timeout_s w).
Proof.
  unfold probe_contract, _probe_http2.
  destruct (perf_counter w) as [start w0]. cbn [fst snd].
  destruct (_open_stream _ _ _ _ _ w0) as [[stream|] w1]; cbn [fst snd]; [|done].
  destruct (write_drain _ _ _ w1) as [[] w2]; [|split; eauto].
  destruct (read _ _ _ w2) as [[data|] w3]; [|split; eauto].
  destruct (negb (is_empty data)).
  - destruct (elapsed_ms start w3) as [ms w4]. split; [done|]. simpl. eauto.
  - split; [done|]. simpl. eauto.
Qed.

Lemma probe_tcp_contract (host : string) (port : Z)
    (use_ssl : bool) (server_hostname : option string) (timeout_s : Q) (w : W) :
  probe_contract
    (_open_stream host port use_ssl server_hostname timeout_s (perf_counter w).2)
    (_probe_tcp host port use_ssl server_hostname timeout_s w).
Proof.
  unfold probe_contract, _probe_tcp.
  destruct (perf_counter w) as [start w0]. cbn [fst snd].
  destruct (_open_stream _ _ _ _ _ w0) as [[stream|] w1]; cbn [fst snd]; [|done].
  destruct (elapsed_ms start w1) as [ms w2]. split; [done|]. simpl. eauto.
Qed.

Section Traced.
Context (t : list (Event Stream)).

Ltac log_step :=
  cbn [traced perf_counter _open_stream websocket_key write_drain readline read
       elapsed_ms close unlogged fst snd].

Lemma probe_ws_traced (host : string) (port : Z) (path host_header : string)
    (use_ssl : bool) (server_hostname : option string) (timeout_s : Q) (w : W) :
  let opened := _open_stream host port use_ssl server_hostname timeout_s (perf_counter w).2 in
  let out := _probe_ws host port path host_header use_ssl server_hostname timeout_s w in
  @_probe_ws _ (traced _) host port path host_header use_ssl server_hostname timeout_s (w, t)
  = (out.1, (out.2, t ++ one_connection host port use_ssl server_hostname timeout_s opened.1)).
Proof.
  cbv zeta. unfold _probe_ws, one_connection. log_step.
  destruct (perf_counter w) as [start w0]. log_step.
  destruct (_open_stream _ _ _ _ _ w0) as [[stream|] w1]; log_step; [|done].
  destruct (websocket_key w1) as [key w2]. log_step.
  destruct (write_drain _ _ _ w2) as [[] w3]; log_step; [|by rewrite <- app_assoc].
  destruct (readline _ _ w3) as [[line|] w4]; log_step; [|by rewrite <- app_assoc].
  destruct (contains " 101 " line || startswith line "HTTP/1.1 101"
            || startswith line "HTTP/1.0 101").
  - log_step. destruct (elapsed_ms start w4) as [ms w5]. log_step.
    by rewrite <- app_assoc.
  - log_step. by rewrite <- app_assoc.
Qed.

Lemma probe_http2_traced (host : string) (port : Z)
    (use_ssl : bool) (server_hostname : option string) (timeout_s : Q) (w : W) :
  let opened := _open_stream host port use_ssl server_hostname timeout_s (perf_counter w).2 in
  let out := _probe_http2 host port use_ssl server_hostname timeout_s w in
  @_probe_http2 _ (traced _) host port use_ssl server_hostname timeout_s (w, t)
  = (out.1, (out.2, t ++ one_connection host port use_ssl server_hostname timeout_s opened.1)).
Proof.
  cbv zeta. unfold _probe_http2, one_connection. log_step.
  destruct (perf_counter w) as [start w0]. log_step.
  destruct (_open_stream _ _ _ _ _ w0) as [[stream|] w1]; log_step; [|done].
  destruct (write_drain _ _ _ w1) as [[] w2]; log_step; [|by rewrite <- app_assoc].
  destruct (read _ _ _ w2) as [[data|] w3]; log_step; [|by rewrite <- app_assoc].
  destruct (negb (is_empty data)).
  - log_step. destruct (elapsed_ms start w3) as [ms w4]. log_step.
    by rewrite <- app_assoc.
  - log_step. by rewrite <- app_assoc.
Qed.

Lemma probe_tcp_traced (host : string) (port : Z)
    (use_ssl : bool) (server_hostname : option string) (timeout_s : Q) (w : W) :
  let opened := _open_stream host port use_ssl server_hostname timeout_s (perf_counter w).2 in
  let out := _probe_tcp host port use_ssl server_hostname timeout_s w in
  @_probe_tcp _ (traced _) host port use_ssl server_hostname timeout_s (w, t)
  = (out.1, (out.2, t ++ one_connection host port use_ssl server_hostname timeout_s opened.1)).
Proof.
  cbv zeta. unfold _probe_tcp, one_connection. log_step.
  destruct (perf_counter w) as [start w0]. log_step.
  destruct (_open_stream _ _ _ _ _ w0) as [[stream|] w1]; log_step; [|done].
  destruct (elapsed_ms start w1) as [ms w2]. log_step. by rewrite <- app_assoc.
Qed.

End Traced.

(** Whatever the transport, one probe opens exactly one connection, to
    the address and port of the config, with TLS as [_tls_expected] says
    and the host header as server name, and closes it exactly once, on
    every path: run over the network with a log, the probe answers as it
    does without the log, and the log holds that one call of
    [_open_stream] followed, when it gave a stream, by one call of
    [close] on that stream and nothing else. The call of [close] is the
    last thing the probe does to the network; when the connection cannot
    be opened the probe fails and touches nothing else. *)
Theorem do_probe_closes_what_it_opens (config : ParsedConfig) (timeout_s : Q) (w : W) :
  let use_ssl := _tls_expected config in
  let host_header :=
    or_str (Some (strip (or_str (Some (Parser.host config)) (add config)))) (add config) in
  let server_hostname := if use_ssl then Some host_header else None in
  let opened :=
    _open_stream (add config) (Parser.port config) use_ssl server_hostname timeout_s
      (perf_counter w).2 in
  let out := do_probe config timeout_s w in
  @do_probe _ (traced _) config timeout_s (w, [])
  = (out.1, (out.2, one_connection (add config) (Parser.port config) use_ssl
                      server_hostname timeout_s opened.1)) ∧
  match opened.1 with
  | Some stream => ∃ w', out.2 = close stream w'
  | None => out = (probe_failed, opened.2)
  end.
Proof.
  cbv zeta. unfold do_probe. cbv zeta.
  destruct (String.eqb _ "ws" || String.eqb _ "websocket");
    [split; [exact (probe_ws_traced [] _ _ _ _ _ _ _ _)
            |exact (proj2 (probe_ws_contract _ _ _ _ _ _ _ _))]|].
  destruct (String.eqb _ "grpc" || String.eqb _ "h2" || String.eqb _ "http2");
    [split; [exact (probe_http2_traced [] _ _ _ _ _ _)
            |exact (proj2 (probe_http2_contract _ _ _ _ _ _))]|].
  split; [exact (probe_tcp_traced [] _ _ _ _ _ _)
         |exact (proj2 (probe_tcp_contract _ _ _ _ _ _))].
Qed.

Lemma do_probe_failure_sentinel (config : ParsedConfig) (timeout_s : Q) (w : W) :
  ok (do_probe config timeout_s w).1 = false →
  latency_ms (do_probe config timeout_s w).1 = 999%Z.
Proof.
  unfold do_probe. cbv zeta.
  destruct (String.eqb _ "ws" || String.eqb _ "websocket");
    [exact (proj1 (probe_ws_contract _ _ _ _ _ _ _ _))|].
  destruct (String.eqb _ "grpc" || String.eqb _ "h2" || String.eqb _ "http2");
    [exact (proj1 (probe_http2_contract _ _ _ _ _ _))|].
  exact (proj1 (probe_tcp_contract _ _ _ _ _ _)).
Qed.

(** The latency of an outcome: at most [max_latency_ms] when active; the
    fixed 999 of a failed probe, or a measured latency above
    [max_latency_ms], when the outcome is a timeout. *)
Theorem test_server_latency_bounds (config : ParsedConfig) (timeout_s : Q)
    (max_latency_ms : Z) (w : W) :
  let out := (test_server config timeout_s max_latency_ms w).1 in
  (ServerTester.status out = "active" ∧ (ServerTester.latency out ≤ max_latency_ms)%Z) ∨
  (ServerTester.status out = "timeout" ∧
   (ServerTester.latency out = 999%Z ∨ (max_latency_ms < ServerTester.latency out)%Z)).
Proof.
  cbv zeta. rewrite test_server_unfold. cbv zeta.
  rewrite best_of_two_unfold.
  set (first := do_probe config timeout_s w).
  set (second := do_probe config timeout_s first.2).
  assert (Hfirst : ok first.1 = false → latency_ms first.1 = 999%Z)
    by apply do_probe_failure_sentinel.
  assert (Hsecond : ok second.1 = false → latency_ms second.1 = 999%Z)
    by apply do_probe_failure_sentinel.
  destruct (ok first.1) eqn:Hok1.
  - rewrite Hok1. cbn [negb orb].
    destruct (Z.ltb_spec max_latency_ms (latency_ms first.1)); simpl; auto.
  - destruct (ok second.1) eqn:Hok2; cbn [negb orb]; [|simpl; auto].
    destruct (Z.ltb_spec max_latency_ms (latency_ms second.1)); simpl; auto.
Qed.

End ProbeFacts.

(** TLS is expected exactly when the mode of the config, stripped and in
    lower case, is tls or reality, or when the port is 443: every other
    mode, the explicit none like the empty one, leaves the decision to the
    port. *)
Theorem tls_expected_iff (config : ParsedConfig) :
  let mode := lower (strip (Parser.tls config)) in
  _tls_expected config = true ↔
  mode = "tls" ∨ mode = "reality" ∨ Parser.port config = 443%Z.
Proof.
  cbv zeta. unfold _tls_expected. cbv zeta.
  destruct (String.eqb_spec (lower (strip (Parser.tls config))) "tls") as [->|Htls];
    [simpl; tauto|].
  destruct (String.eqb_spec (lower (strip (Parser.tls config))) "reality") as [->|Hre];
    [simpl; tauto|].
  cbn [orb]. rewrite Tauto.if_same, Z.eqb_eq. tauto.
Qed.

(** A normalized path starts with a slash, and normalizing it again gives
    the same path. *)
Theorem normalize_path_idempotent (path : string) :
  startswith (_normalize_path path) "/" = true ∧
  _normalize_path (_normalize_path path) = _normalize_path path.
Proof.
  unfold _normalize_path. cbv zeta.
  destruct (strip path) as [|c t] eqn:Hstrip; [done|].
  cbn [is_empty].
  destruct (startswith (String c t) "/") eqn:Hslash; cbn [negb].
  - split; [done|].
    rewrite <- Hstrip, strip_idempotent, Hstrip. cbn [is_empty]. by rewrite Hslash.
  - split; [done|].
    assert (strip ("/" +:+ String c t) = "/" +:+ String c t) as ->.
    { change ("/" +:+ String c t) with (String "/" (String c t)).
      unfold strip. rewrite lstrip_fixed by done. rewrite rstrip_cons by done.
      f_equal. rewrite <- Hstrip. unfold strip. apply rstrip_idempotent. }
    done.
Qed.

(* ===================================================================== *)
(** * More on the parser                                                  *)
(* ===================================================================== *)

Section ParserMore.
Context `{PyRuntime}.

Lemma int_of_str_raises (max_str_digits : nat) (s : string) (e : exn) :
  int_of_str max_str_digits s = Raise e → e = ValueError.
Proof.
  unfold int_of_str. cbv zeta.
  destruct (match int_rstrip (int_lstrip s) with
            | EmptyString => None
            | String c s' =>
                if Ascii.eqb c "-" then Z.opp <$> int_unsigned s'
                else if Ascii.eqb c "+" then int_unsigned s'
                else int_unsigned (String c s')
            end) as [z|]; [|by intros [= <-]].
  destruct (over_digit_limit _ _); [by intros [= <-]|done].
Qed.

(** [_parse_vmess] raises in two cases only: the decoded JSON is no
    object ([AttributeError]), or it is an object whose port text [int]
    refuses ([ValueError]): a text that is no number once the blanks of
    [int] are taken off, or a number of more digits than the limit of
    the interpreter. *)
Theorem parse_vmess_raises_iff (line : string) (source_id : option Z) (e : exn) :
  let payload := _safe_b64decode (sdrop 8 line) in
  _parse_vmess line source_id = Raise e ↔
  is_empty payload = false ∧
  ∃ data, json_loads payload = Some data ∧
    ((e = AttributeError ∧ ∀ d, data ≠ PDict d) ∨
     (e = ValueError ∧ ∃ d, data = PDict d ∧
        int_of_str int_max_str_digits (vmess_port_text d) = Raise ValueError)).
Proof.
  cbv zeta. unfold _parse_vmess. cbv zeta.
  destruct (is_empty (_safe_b64decode (sdrop 8 line))) eqn:Hempty.
  { split; [done|]. by intros [[=] _]. }
  destruct (json_loads (_safe_b64decode (sdrop 8 line))) as [data|] eqn:Hjson.
  2:{ split; [done|]. by intros [_ (data & [=] & _)]. }
  assert (Hdict : (∃ d, data = PDict d) ∨ (∀ d, data ≠ PDict d)).
  { destruct data; eauto; right; done. }
  destruct Hdict as [[d ->]|Hnot].
  - cbn [get mbind result_bind]. fold (vmess_port_text d).
    destruct (int_of_str int_max_str_digits (vmess_port_text d)) as [port|e'] eqn:Hint.
    + cbn [mbind result_bind]. split.
      * by case_match.
      * intros [_ (data & [= <-] & [[_ Hd]|[_ (d' & [= <-] & Hraise)]])];
          [by destruct (Hd d)|congruence].
    + cbn [mbind result_bind]. pose proof (int_of_str_raises _ _ _ Hint) as ->.
      split.
      * intros [= <-]. split; [done|]. exists (PDict d). split; [done|]. right. eauto.
      * intros [_ (data & [= <-] & [[_ Hd]|[-> _]])]; [by destruct (Hd d)|done].
  - assert (get data "add" = Raise AttributeError) as Hget.
    { destruct data; try done. by destruct (Hnot d). }
    rewrite Hget. cbn [mbind result_bind]. split.
    + intros [= <-]. split; [done|]. exists data. split; [done|]. by left.
    + intros [_ (data' & [= <-] & [[-> _]|[_ (d & -> & _)]])]; [done|].
      by destruct (Hnot d).
Qed.

(** [_parse_url_config] raises exactly what the [port] property of the
    parsed URL raises, and only when the host name is usable. *)
Theorem parse_url_config_raises_iff (line protocol : string) (default_port : Z)
    (source_id : option Z) (e : exn) :
  _parse_url_config line protocol default_port source_id = Raise e ↔
  ∃ parsed, urlparse line = Some parsed ∧ usable_hostname parsed ∧
            Urllib.port parsed = Raise e.
Proof.
  unfold _parse_url_config, usable_hostname. cbv zeta.
  destruct (urlparse line) as [parsed|].
  2:{ split; [done|]. by intros (parsed & [=] & _). }
  destruct (is_empty (strip (or_str (Urllib.hostname parsed) ""))) eqn:Hempty.
  { cbn [orb]. split; [done|]. intros (p & [= <-] & [Hne _] & _). congruence. }
  destruct (String.eqb_spec (strip (or_str (Urllib.hostname parsed) "")) "unknown")
    as [Heq|Hne].
  { cbn [orb]. split; [done|]. intros (p & [= <-] & [_ Hne] & _). done. }
  cbn [orb]. destruct (Urllib.port parsed) as [p|e'] eqn:Hport; cbn [mbind result_bind].
  - split; [done|]. intros (p' & [= <-] & _ & Hp). congruence.
  - split.
    + intros [= <-]. exists parsed. by rewrite Hport.
    + intros (p' & [= <-] & _ & Hp). congruence.
Qed.

End ParserMore.

Section ParserOutput.
Context `{PyRuntime}.

Lemma parse_server_configs_unfold (content : string) (source_id : option Z) :
  parse_server_configs content source_id =
    if is_empty (strip content) then Ok []
    else configs ← parse_tokens (split (tokenized content)) source_id [];
         Ok (snd <$> setdefault_all configs []).
Proof. reflexivity. Qed.

Lemma parse_tokens_ok (lines : list string) (source_id : option Z)
    (configs out : list ParsedConfig) :
  parse_tokens lines source_id configs = Ok out ↔
  ∃ parsed, Forall2 (fun line p => parse_token line source_id = Ok p) lines parsed ∧
            out = configs ++ omap Datatypes.id parsed.
Proof.
  revert configs. induction lines as [|line rest IH]; intros configs; cbn [parse_tokens].
  - split.
    + intros [= <-]. exists []. split; [constructor|]. by rewrite app_nil_r.
    + intros (parsed & Hall & ->). inversion Hall; subst. by rewrite app_nil_r.
  - destruct (parse_token line source_id) as [p|e] eqn:Htoken; cbn [mbind result_bind].
    + rewrite IH. split.
      * intros (parsed & Hall & ->). exists (p :: parsed). split; [by constructor|].
        destruct p; cbn [omap Datatypes.id]; [by rewrite <- app_assoc|done].
      * intros (parsed & Hall & ->). inversion Hall as [|? p' ? parsed' Hp Hrest]; subst.
        assert (p' = p) as -> by congruence.
        exists parsed'. split; [done|].
        destruct p; cbn [omap Datatypes.id]; [by rewrite <- app_assoc|done].
    + split; [done|]. intros (parsed & Hall & _). inversion Hall; subst. congruence.
Qed.

Lemma existsb_key (k : string) (unique : list (string * ParsedConfig)) :
  existsb (fun kv => String.eqb k (fst kv)) unique = bool_decide (k ∈ unique.*1).
Proof.
  induction unique as [|[k' c] unique IH]; cbn [existsb fmap list_fmap fst].
  - symmetry. apply bool_decide_eq_false. by intros ?%elem_of_nil.
  - rewrite IH. destruct (String.eqb_spec k k') as [->|Hne]; cbn [orb].
    + symmetry. apply bool_decide_eq_true. by left.
    + apply bool_decide_ext. rewrite elem_of_cons. intuition congruence.
Qed.

Lemma setdefault_all_first_seen (configs : list ParsedConfig)
    (unique : list (string * ParsedConfig)) :
  (setdefault_all configs unique).*2 =
    unique.*2 ++ filter (fun c => original_string c ∉ unique.*1) (first_seen configs).
Proof.
  revert unique. induction configs as [|c rest IH]; intros unique;
    cbn [setdefault_all first_seen].
  - by rewrite filter_nil, app_nil_r.
  - rewrite IH, existsb_key. case_bool_decide as Hseen.
    + rewrite filter_cons_False by (intros Hc; by apply Hc).
      f_equal. rewrite list_filter_filter. apply list_filter_iff. intros c'.
      split; [|by intros [? ?]]. intros Hc'. split; [done|].
      intros Heq. apply Hc'. by rewrite Heq.
    + rewrite filter_cons_True by done.
      rewrite !fmap_app. cbn [fmap list_fmap fst snd]. rewrite <- app_assoc. cbn [app].
      do 2 f_equal. rewrite list_filter_filter. apply list_filter_iff. intros c'.
      rewrite elem_of_app, list_elem_of_singleton. split.
      * intros Hc'. split; intros ?; apply Hc'; [by left|by right].
      * intros [Hc' Hne] [?|?]; [by apply Hc'|by apply Hne].
Qed.

Lemma filter_all {A : Type} (P : A → Prop) `{!∀ x, Decision (P x)} (l : list A) :
  (∀ x, P x) → filter P l = l.
Proof.
  intros HP. induction l as [|x l IH]; [done|].
  rewrite filter_cons_True by done. by rewrite IH.
Qed.

Lemma first_seen_sublist (configs : list ParsedConfig) :
  first_seen configs `sublist_of` configs.
Proof.
  induction configs as [|c rest IH]; cbn [first_seen]; [done|].
  constructor. etrans; [apply sublist_filter|done].
Qed.

Lemma first_seen_NoDup (configs : list ParsedConfig) :
  NoDup (original_string <$> first_seen configs).
Proof.
  induction configs as [|c rest IH]; cbn [first_seen]; [constructor|].
  rewrite fmap_cons. constructor.
  - rewrite list_elem_of_fmap. intros (c' & Heq & Hin%list_elem_of_filter).
    destruct Hin as [Hne _]. by apply Hne.
  - eapply sublist_NoDup; [|apply fmap_sublist, sublist_filter]. done.
Qed.

Lemma first_seen_keys (configs : list ParsedConfig) (c : ParsedConfig) :
  c ∈ configs → original_string c ∈ original_string <$> first_seen configs.
Proof.
  induction configs as [|c0 rest IH]; cbn [first_seen]; [by intros ?%elem_of_nil|].
  intros [->|Hin]%elem_of_cons; [rewrite fmap_cons; by left|].
  rewrite fmap_cons.
  destruct (decide (original_string c = original_string c0)) as [->|Hne]; [by left|].
  right. apply IH in Hin. apply list_elem_of_fmap in Hin as (c' & Heq & Hin).
  apply list_elem_of_fmap. exists c'. split; [done|].
  apply list_elem_of_filter. split; [congruence|done].
Qed.

(** The result of [parse_server_configs] is empty for blank content;
    otherwise, when no token raises, it is what the tokens of the text
    contribute, in order, with every later occurrence of a fingerprint
    removed. *)
Theorem parse_server_configs_first_seen (content : string) (source_id : option Z)
    (out : list ParsedConfig) :
  parse_server_configs content source_id = Ok out ↔
  (is_empty (strip content) = true ∧ out = []) ∨
  (is_empty (strip content) = false ∧
   ∃ parsed,
     Forall2 (fun line p => parse_token line source_id = Ok p)
       (split (tokenized content)) parsed ∧
     out = first_seen (omap Datatypes.id parsed)).
Proof.
  rewrite parse_server_configs_unfold.
  destruct (is_empty (strip content)).
  { split; [intros [= <-]; by left|]. by intros [[_ ->]|[[=] _]]. }
  destruct (parse_tokens (split (tokenized content)) source_id []) as [configs|e] eqn:Htokens;
    cbn [mbind result_bind].
  - apply parse_tokens_ok in Htokens as (parsed & Hall & ->). cbn [app].
    assert (Hout : (setdefault_all (omap Datatypes.id parsed) []).*2 = first_seen (omap Datatypes.id parsed)).
    { rewrite setdefault_all_first_seen. cbn [fmap list_fmap app].
      apply filter_all. intros c. by intros ?%elem_of_nil. }
    split.
    + intros [= <-]. right. split; [done|]. exists parsed. by rewrite Hout.
    + intros [[[=] _]|[_ (parsed' & Hall' & ->)]]. f_equal. rewrite Hout.
      do 2 f_equal. clear -Hall Hall'.
      revert parsed' Hall'. induction Hall; intros parsed' Hall'; inversion Hall'; subst;
        [done|]. f_equal; [congruence|auto].
  - split; [done|]. intros [[[=] _]|[_ (parsed & Hall & _)]].
    assert (parse_tokens (split (tokenized content)) source_id [] = Ok ([] ++ omap Datatypes.id parsed))
      by (apply parse_tokens_ok; eauto). congruence.
Qed.

End ParserOutput.

(* ===================================================================== *)
(** * [int] after [str]                                                   *)
(* ===================================================================== *)

Lemma pretty_N_char_digit (d : N) :
  (d < 10)%N →
  isdigit (pretty_N_char d) = true ∧ (Z.of_N (ord (pretty_N_char d)) - 48 = Z.of_N d)%Z.
Proof.
  intros Hd.
  assert (d = 0 ∨ d = 1 ∨ d = 2 ∨ d = 3 ∨ d = 4 ∨ d = 5 ∨ d = 6 ∨ d = 7
          ∨ d = 8 ∨ d = 9)%N as Hcases by lia.
  repeat (destruct Hcases as [->|Hcases]; [by vm_compute|]). subst d. by vm_compute.
Qed.

Lemma isdigit_not_blank (c : ascii) : isdigit c = true → int_blank c = false.
Proof.
  unfold isdigit, int_blank. cbv zeta. generalize (ord c). intros n Hn.
  apply andb_prop in Hn as [Hlo%N.leb_le Hhi%N.leb_le].
  repeat (apply orb_false_intro); try apply andb_false_iff;
    rewrite ?N.leb_gt, ?N.eqb_neq; lia.
Qed.

Lemma every_impl (P Q : ascii → bool) (s : string) :
  (∀ c, P c = true → Q c = true) → every P s = true → every Q s = true.
Proof.
  intros HPQ. induction s as [|c s IH]; [done|]. cbn [every].
  intros [Hc Hs]%andb_prop. by rewrite (HPQ _ Hc), IH.
Qed.

Lemma pretty_N_go_digits (x : N) (s : string) :
  every isdigit s = true → every isdigit (pretty_N_go x s) = true.
Proof.
  revert s. induction (N.lt_wf_0 x) as [x _ IH]; intros s Hs.
  assert (x = 0 ∨ 0 < x)%N as [->|Hx] by lia; [by rewrite pretty_N_go_0|].
  rewrite pretty_N_go_step by done. apply IH; [by apply N.div_lt|].
  cbn [every]. rewrite Hs.
  by destruct (pretty_N_char_digit (x `mod` 10)%N) as [-> _]; [apply N.mod_lt|].
Qed.

Lemma pretty_N_go_value (x : N) (s : string) :
  int_digits 0 false (pretty_N_go x s) = int_digits (Z.of_N x) false s.
Proof.
  revert s. induction (N.lt_wf_0 x) as [x _ IH]; intros s.
  assert (x = 0 ∨ 0 < x)%N as [->|Hx] by lia; [by rewrite pretty_N_go_0|].
  rewrite pretty_N_go_step by done. rewrite IH by (by apply N.div_lt).
  cbn [int_digits].
  destruct (pretty_N_char_digit (x `mod` 10)%N) as [-> ->]; [by apply N.mod_lt|].
  f_equal. rewrite (N.div_mod x 10) at 3 by done. lia.
Qed.

Lemma pretty_N_go_head (x : N) (d : ascii) (s : string) :
  isdigit d = true →
  ∃ c s', pretty_N_go x (String d s) = String c s' ∧ isdigit c = true.
Proof.
  revert d s. induction (N.lt_wf_0 x) as [x _ IH]; intros d s Hd.
  assert (x = 0 ∨ 0 < x)%N as [->|Hx] by lia.
  { rewrite pretty_N_go_0. eauto. }
  rewrite pretty_N_go_step by done. apply IH; [by apply N.div_lt|].
  by destruct (pretty_N_char_digit (x `mod` 10)%N) as [-> _]; [apply N.mod_lt|].
Qed.

Lemma int_unsigned_pretty (p : positive) :
  int_unsigned (pretty (Npos p)) = Some (Zpos p) ∧ every isdigit (pretty (Npos p)) = true.
Proof.
  unfold pretty, pretty_N. rewrite decide_False by done.
  rewrite pretty_N_go_step by lia.
  destruct (pretty_N_char_digit (N.pos p `mod` 10)%N) as [Hd _]; [by apply N.mod_lt|].
  split; [|by apply pretty_N_go_digits; cbn [every]; rewrite Hd].
  destruct (pretty_N_go_head (N.pos p `div` 10) _ EmptyString Hd) as (c & s' & Heq & Hc).
  unfold int_unsigned. rewrite Heq, Hc, <- Heq, <- pretty_N_go_step by lia.
  by rewrite pretty_N_go_value.
Qed.

Lemma int_strip_no_blank (s : string) :
  every (fun c => negb (int_blank c)) s = true → int_rstrip (int_lstrip s) = s.
Proof.
  intros Hs. assert (int_lstrip s = s) as ->.
  { destruct s as [|c s]; [done|]. cbn [every] in Hs.
    apply andb_prop in Hs as [Hc%negb_true_iff _]. cbn [int_lstrip]. by rewrite Hc. }
  induction s as [|c s IH]; [done|]. cbn [every] in Hs.
  apply andb_prop in Hs as [Hc%negb_true_iff Hs]. cbn [int_rstrip].
  by rewrite IH, Hc, andb_false_r.
Qed.

Lemma count_digits_length (s : string) :
  every isdigit s = true → count_digits s = String.length s.
Proof.
  induction s as [|c s IH]; [done|]. cbn [every count_digits String.length].
  intros [-> Hs]%andb_prop. by rewrite IH.
Qed.

Lemma pretty_N_go_length (k : nat) (x : N) (s : string) :
  (x < 10 ^ N.of_nat k)%N →
  (String.length (pretty_N_go x s) ≤ k + String.length s)%nat.
Proof.
  revert x s. induction k as [|k IH]; intros x s Hx.
  { assert (x = 0%N) as -> by (cbn in Hx; lia). rewrite pretty_N_go_0. lia. }
  assert (x = 0 ∨ 0 < x)%N as [->|Hpos] by lia.
  { rewrite pretty_N_go_0. lia. }
  rewrite pretty_N_go_step by done.
  etrans; [apply IH|cbn [String.length]; lia].
  apply N.Div0.div_lt_upper_bound.
  by rewrite Nat2N.inj_succ, N.pow_succ_r' in Hx.
Qed.

(** [int(str(z))] is [z] for an integer of at most 640 digits: the text
    [str] prints for it is read back by [int] as the same integer. *)
Lemma int_of_str_pretty (max_str_digits k : nat) (z : Z) :
  (Z.abs z < 10 ^ Z.of_nat k)%Z → (k ≤ 640)%nat →
  int_of_str max_str_digits (pretty z) = Ok z.
Proof.
  intros Hz Hk.
  assert (Hlimit : ∀ n, (n ≤ k)%nat → over_digit_limit max_str_digits n = false).
  { intros n Hn. unfold over_digit_limit.
    destruct (Nat.ltb_spec 640 n); [lia|done]. }
  assert (Hblank : ∀ s, every isdigit s = true →
                        every (fun c => negb (int_blank c)) s = true).
  { intros s. apply every_impl. intros c Hc. by rewrite (isdigit_not_blank _ Hc). }
  assert (Hlen : ∀ p : positive, (Z.pos p < 10 ^ Z.of_nat k)%Z →
                 (count_digits (pretty (N.pos p)) ≤ k)%nat).
  { intros p Hp. destruct (int_unsigned_pretty p) as [_ Hdigits].
    rewrite count_digits_length by done.
    unfold pretty, pretty_N. rewrite decide_False by done.
    etrans; [apply (pretty_N_go_length k)|cbn [String.length]; lia].
    apply N2Z.inj_lt. rewrite N2Z.inj_pow, nat_N_Z. exact Hp. }
  destruct z as [|p|p]; [done|..]; unfold pretty, pretty_Z, pretty, pretty_positive.
  - destruct (int_unsigned_pretty p) as [Hval Hdigits].
    unfold int_of_str. cbv zeta. rewrite int_strip_no_blank by (by apply Hblank).
    rewrite (Hlimit _ (Hlen p Hz)).
    destruct (pretty (N.pos p)) as [|c s] eqn:Hs; [done|].
    cbn [every] in Hdigits. apply andb_prop in Hdigits as [Hc _].
    assert (Ascii.eqb c "-" = false) as ->.
    { apply Ascii.eqb_neq. intros ->. done. }
    assert (Ascii.eqb c "+" = false) as ->.
    { apply Ascii.eqb_neq. intros ->. done. }
    by rewrite Hval.
  - destruct (int_unsigned_pretty p) as [Hval Hdigits].
    unfold int_of_str. cbv zeta.
    change ("-" +:+ pretty (N.pos p)) with (String "-" (pretty (N.pos p))).
    rewrite int_strip_no_blank.
    + rewrite Ascii.eqb_refl, Hval. cbn [fmap option_fmap option_map count_digits].
      change (isdigit "-") with false. cbv iota.
      by rewrite (Hlimit _ (Hlen p Hz)).
    + cbn [every]. apply andb_true_intro. split; [done|]. by apply Hblank.
Qed.

(* ===================================================================== *)
(** * What the parser returns                                             *)
(* ===================================================================== *)

Section ParserFields.
Context `{PyRuntime}.

Lemma parse_vmess_sound (line : string) (source_id : option Z) (c : ParsedConfig) :
  startswith line "vmess://" = true →
  _parse_vmess line source_id = Ok (Some c) →
  original_string c = line ∧ sound_config source_id c.
Proof.
  intros Hscheme. unfold _parse_vmess. cbv zeta.
  destruct (is_empty _); [done|].
  destruct (json_loads _) as [data|]; [|done].
  destruct (get data "add") as [v_add|]; [|done]. cbn [mbind result_bind].
  destruct (get data "port") as [v_port|]; [|done]. cbn [mbind result_bind].
  destruct (int_of_str _) as [port|]; [|done]. cbn [mbind result_bind].
  destruct (is_empty (strip (str_ (or_ v_add (PStr ""))))) eqn:Hempty; [done|].
  destruct (String.eqb_spec (strip (str_ (or_ v_add (PStr "")))) "unknown") as [|Hne];
    [done|].
  destruct (Z.leb_spec port 0); [done|].
  destruct (Z.leb_spec 65536 port); [done|]. cbn [orb].
  destruct (get data "net"); [|done]. destruct (get data "ps"); [|done].
  destruct (get data "host"); [|done]. destruct (get data "path"); [|done].
  destruct (get data "tls"); [|done]. cbn [mbind result_bind].
  intros [= <-]. unfold sound_config, known_scheme.
  cbn [original_string Parser.protocol Parser.port Parser.source_id add].
  change ("vmess" +:+ "://") with "vmess://". rewrite Hscheme.
  repeat split; try done; lia.
Qed.

Lemma parse_url_config_sound (line protocol : string) (source_id : option Z)
    (c : ParsedConfig) :
  startswith line (protocol +:+ "://") = true →
  known_scheme line = true →
  protocol ≠ "vmess" →
  _parse_url_config line protocol 443 source_id = Ok (Some c) →
  original_string c = line ∧ sound_config source_id c.
Proof.
  intros Hscheme Hknown Hproto. unfold _parse_url_config. cbv zeta.
  destruct (urlparse line) as [parsed|]; [|done].
  destruct (is_empty (strip (or_str (Urllib.hostname parsed) ""))) eqn:Hempty; [done|].
  destruct (String.eqb_spec (strip (or_str (Urllib.hostname parsed) "")) "unknown")
    as [|Hne]; [done|]. cbn [orb].
  destruct (Urllib.port parsed) as [p|]; [|done]. cbn [mbind result_bind].
  intros [= <-]. unfold sound_config.
  cbn [original_string Parser.protocol Parser.port Parser.source_id add].
  repeat split; try done.
  destruct p as [n|]; [|done]. by destruct (Z.eqb_spec n 0).
Qed.

Lemma parse_token_sound (line : string) (source_id : option Z) (c : ParsedConfig) :
  parse_token line source_id = Ok (Some c) →
  original_string c = strip line ∧ sound_config source_id c.
Proof.
  unfold parse_token. cbv zeta.
  destruct (is_empty (strip line)); [done|].
  destruct (startswith (strip line) "vmess://") eqn:Hvmess;
    [by apply parse_vmess_sound|].
  destruct (startswith (strip line) "vless://") eqn:Hvless.
  { apply parse_url_config_sound; [done| |done].
    unfold known_scheme. by rewrite Hvless, orb_true_r. }
  destruct (startswith (strip line) "trojan://") eqn:Htrojan; [|done].
  apply parse_url_config_sound; [done| |done].
  unfold known_scheme. by rewrite Htrojan, orb_true_r.
Qed.

Lemma parse_server_configs_members (content : string) (source_id : option Z)
    (out : list ParsedConfig) :
  parse_server_configs content source_id = Ok out →
  Forall (fun c => original_string c ∈ split (tokenized content) ∧
                   sound_config source_id c) out.
Proof.
  rewrite parse_server_configs_unfold.
  destruct (is_empty (strip content)).
  { intros [= <-]. constructor. }
  destruct (parse_tokens (split (tokenized content)) source_id []) as [configs|e] eqn:Htokens;
    [|done]. cbn [mbind result_bind]. intros [= <-].
  apply parse_tokens_ok in Htokens as (parsed & Hall & ->). cbn [app].
  rewrite setdefault_all_first_seen. cbn [fmap list_fmap app].
  rewrite filter_all by (intros c; by intros ?%elem_of_nil).
  apply Forall_forall. intros c Hc.
  assert (Hin : c ∈ omap Datatypes.id parsed).
  { by apply (sublist_subseteq _ _ (first_seen_sublist _)). }
  apply list_elem_of_omap in Hin as (p & Hp & Heq). cbn in Heq. subst p.
  apply list_elem_of_lookup in Hp as [i Hi].
  destruct (Forall2_lookup_r _ _ _ _ _ Hall Hi) as (line & Hline & Htoken).
  apply parse_token_sound in Htoken as [Horig Hsound].
  assert (Hmem : line ∈ split (tokenized content)) by (by eapply list_elem_of_lookup_2).
  destruct (split_tokens _ _ Hmem) as (_ & _ & Hstrip).
  split; [|done]. by rewrite Horig, Hstrip.
Qed.

(** Every config [parse_server_configs] returns carries the source it was
    asked for, a fingerprint that is one of the tokens of the text and
    starts with the scheme of its protocol, an address that is neither
    empty nor the word unknown, and a port that is not zero (within 1 to
    65535 for vmess); no two returned configs share a fingerprint. *)
Theorem parse_server_configs_sound (content : string) (source_id : option Z)
    (out : list ParsedConfig) :
  parse_server_configs content source_id = Ok out →
  NoDup (original_string <$> out) ∧
  Forall (fun c => original_string c ∈ split (tokenized content) ∧
                   sound_config source_id c) out.
Proof.
  intros Hparse. split; [|by apply parse_server_configs_members].
  revert Hparse. rewrite parse_server_configs_unfold.
  destruct (is_empty (strip content)); [intros [= <-]; constructor|].
  destruct (parse_tokens (split (tokenized content)) source_id []) as [configs|e];
    [|done].
  cbn [mbind result_bind]. intros [= <-].
  rewrite setdefault_all_first_seen. cbn [fmap list_fmap app].
  rewrite filter_all by (intros c; by intros ?%elem_of_nil).
  apply first_seen_NoDup.
Qed.

(** Content that is blank, or whose tokens all start with none of the
    three schemes, gives the empty list: nothing is raised. *)
Theorem parse_server_configs_no_scheme (content : string) (source_id : option Z) :
  all_space content = true ∨
  Forall (fun line => known_scheme line = false) (split (tokenized content)) →
  parse_server_configs content source_id = Ok [].
Proof.
  rewrite parse_server_configs_unfold.
  intros [Hblank|Hall]; [by rewrite (strip_all_space _ Hblank)|].
  destruct (is_empty (strip content)); [done|].
  assert (Htokens : parse_tokens (split (tokenized content)) source_id [] = Ok []).
  { apply parse_tokens_ok.
    exists ((fun _ => None) <$> split (tokenized content)). split.
    - apply Forall2_fmap_r, Forall_Forall2_diag, Forall_forall.
      intros line Hmem.
      pose proof (proj1 (Forall_forall _ _) Hall line Hmem) as Hline. cbv beta in Hline.
      destruct (split_tokens _ _ Hmem) as (_ & _ & Hstrip).
      unfold parse_token. cbv zeta. rewrite Hstrip. unfold known_scheme in Hline.
      apply orb_false_elim in Hline as [[-> ->]%orb_false_elim ->].
      by destruct (is_empty line).
    - cbn [app]. generalize (split (tokenized content)). intros l.
      induction l as [|line l IH]; [done|]. by rewrite fmap_cons. }
  by rewrite Htokens.
Qed.

(** A vmess token whose JSON object has a usable address and a port in
    range, written as a number or as its decimal text, is parsed with that
    address and that port. *)
Theorem parse_vmess_reads_port (line : string) (source_id : option Z)
    (d : list (string * pyval)) (a : string) (v_port : pyval) (p : Z) :
  is_empty (_safe_b64decode (sdrop 8 line)) = false →
  json_loads (_safe_b64decode (sdrop 8 line)) = Some (PDict d) →
  assoc "add" d = Some (PStr a) →
  is_empty (strip a) = false → strip a ≠ "unknown" →
  assoc "port" d = Some v_port →
  v_port = PInt p ∨ v_port = PStr (pretty p) →
  (0 < p < 65536)%Z →
  ∃ c, _parse_vmess line source_id = Ok (Some c) ∧
       original_string c = line ∧ Parser.protocol c = "vmess" ∧
       add c = strip a ∧ Parser.port c = p ∧ Parser.source_id c = source_id.
Proof.
  intros Hpayload Hjson Hadd Hne Hunknown Hport Hv Hp.
  unfold _parse_vmess. cbv zeta. rewrite Hpayload, Hjson.
  cbn [get mbind result_bind]. rewrite Hadd, Hport. cbn [default].
  assert (Ha : str_ (or_ (PStr a) (PStr "")) = a).
  { unfold or_. cbn [truthy]. by destruct a. }
  assert (Hint : int_of_str int_max_str_digits (pretty p) = Ok p).
  { apply (int_of_str_pretty _ 5); lia. }
  assert (Htext : str_ (or_ v_port (PStr "0")) = pretty p).
  { assert (pretty p ≠ EmptyString) as Hpretty.
    { intros Heq. by rewrite Heq in Hint. }
    destruct Hv as [-> | ->]; unfold or_; cbn [truthy].
    - destruct (Z.eqb_spec p 0); [lia|done].
    - by destruct (pretty p). }
  cbn [Datatypes.id]. rewrite Ha, Htext.
  assert (is_empty (pretty p) = false) as ->.
  { destruct (pretty p); [|done]. by vm_compute in Hint. }
  rewrite Hint. cbn [mbind result_bind].
  rewrite Hne. destruct (String.eqb_spec (strip a) "unknown"); [done|].
  destruct (Z.leb_spec p 0); [lia|]. destruct (Z.leb_spec 65536 p); [lia|].
  cbn [orb]. eexists. split; [reflexivity|]. done.
Qed.

End ParserFields.

Lemma parse_server_configs_sound_witness :
  NoDup (original_string <$> [Scenario.candidate]) ∧
  Forall (fun c =>
            original_string c ∈
              split (@tokenized Scenario.runtime
                       ("x " +:+ Scenario.good_token +:+ " " +:+ Scenario.good_token)) ∧
            sound_config (Some 1%Z) c) [Scenario.candidate].
Proof.
  exact (@parse_server_configs_sound Scenario.runtime
           ("x " +:+ Scenario.good_token +:+ " " +:+ Scenario.good_token)
           (Some 1%Z) [Scenario.candidate] eq_refl).
Defined.

Lemma parse_server_configs_no_scheme_witness :
  @parse_server_configs Scenario.runtime "ss://abc http://example.org" None = Ok [].
Proof.
  apply (@parse_server_configs_no_scheme Scenario.runtime). right.
  apply (bool_decide_unpack _). vm_compute. exact I.
Defined.

Lemma parse_vmess_reads_port_witness :
  ∃ c, @_parse_vmess Scenario.vmess_runtime Scenario.vmess_token None = Ok (Some c) ∧
       original_string c = Scenario.vmess_token ∧ Parser.protocol c = "vmess" ∧
       add c = "5.6.7.8" ∧ Parser.port c = 8443%Z ∧ Parser.source_id c = None.
Proof.
  apply (@parse_vmess_reads_port Scenario.vmess_runtime Scenario.vmess_token None
           Scenario.vmess_dict "5.6.7.8" (PInt 8443) 8443);
    try reflexivity; [discriminate|by left|lia].
Defined.

(* ===================================================================== *)
(** * More on the store                                                   *)
(* ===================================================================== *)

Section UpsertMore.
Context `{PyRuntime}.


Lemma store_eq (a b : Store) :
  sources a = sources b → servers a = servers b → next_id a = next_id b → a = b.
Proof. destruct a, b. simpl. by intros -> -> ->. Qed.

Lemma upsert_server_unfold (db : Store) (server : ServerDict) (ts : Z) :
  binds (excluded db server ts) = true →
  foreign_key_ok db (d_source_id server) = true →
  upsert_server db server ts =
    if has_config db (d_config_string server)
    then Ok {|
      sources := sources db;
      servers := (fun r => if String.eqb (config_string r) (d_config_string server)
                           then do_update r (excluded db server ts) else r) <$> servers db;
      next_id := (next_id db + 1)%Z |}
    else Ok {|
      sources := sources db;
      servers := servers db ++ [excluded db server ts];
      next_id := (next_id db + 1)%Z |}.
Proof.
  intros Hbinds Hfk. unfold upsert_server. cbv zeta. rewrite Hbinds.
  change (source_id (excluded db server ts)) with (d_source_id server).
  by rewrite Hfk.
Qed.

Lemma upsert_server_guards (db : Store) (server : ServerDict) (ts : Z) (db' : Store) :
  upsert_server db server ts = Ok db' →
  binds (excluded db server ts) = true ∧ foreign_key_ok db (d_source_id server) = true.
Proof.
  unfold upsert_server. cbv zeta.
  change (source_id (excluded db server ts)) with (d_source_id server).
  destruct (binds (excluded db server ts)); [|done].
  by destruct (foreign_key_ok db (d_source_id server)).
Qed.

(** An upsert repeated at the same time changes no row: the second call
    leaves the tables [servers] and [sources] exactly as the first one
    left them, so the row is there once, with the id and the creation
    time of the first call. Only the AUTOINCREMENT counter moves on. *)
Theorem upsert_server_again (db : Store) (server : ServerDict) (ts : Z) (db' : Store) :
  upsert_server db server ts = Ok db' →
  ∃ db'', upsert_server db' server ts = Ok db'' ∧
          servers db'' = servers db' ∧ sources db'' = sources db' ∧
          next_id db'' = (next_id db' + 1)%Z.
Proof.
  intros Hup. destruct (upsert_server_guards _ _ _ _ Hup) as [Hbinds Hfk].
  apply upsert_server_ok in Hup as [Hsrc [(Hyes & Hnext & Hrows)|(Hno & Hnext & Hrows)]].
  - assert (has_config db' (d_config_string server) = true) as Hyes'.
    { apply has_config_elem. apply has_config_elem in Hyes as (r & Hin & Hr).
      exists (do_update r (excluded db server ts)). split; [|done].
      rewrite Hrows. apply list_elem_of_fmap. exists r. split; [|done].
      rewrite <- Hr. by rewrite String.eqb_refl. }
    eexists. split.
    { rewrite upsert_server_unfold; [by rewrite Hyes'|exact Hbinds|].
      unfold foreign_key_ok in *. by rewrite Hsrc. }
    cbn [sources servers next_id]. split; [|done].
    rewrite Hrows, <- list_fmap_compose.
    apply list_fmap_ext. intros i r _. cbn [compose].
    destruct (String.eqb_spec (config_string r) (d_config_string server)) as [Heq|Hne].
    + cbn [config_string do_update]. destruct (String.eqb_spec (config_string r)
        (d_config_string server)); [|done]. reflexivity.
    + by destruct (String.eqb_spec (config_string r) (d_config_string server)).
  - assert (has_config db' (d_config_string server) = true) as Hyes'.
    { apply has_config_elem. exists (excluded db server ts). split; [|done].
      rewrite Hrows. apply elem_of_app. right. by apply list_elem_of_singleton. }
    eexists. split.
    { rewrite upsert_server_unfold; [by rewrite Hyes'|exact Hbinds|].
      unfold foreign_key_ok in *. by rewrite Hsrc. }
    cbn [sources servers next_id]. split; [|done].
    rewrite Hrows, fmap_app. f_equal.
    + rewrite <- (list_fmap_id (servers db)) at 2.
      apply list_fmap_ext. intros i r Hi.
      destruct (String.eqb_spec (config_string r) (d_config_string server)) as [Heq|Hne];
        [|done].
      assert (has_config db (d_config_string server) = true) as Hyes; [|congruence].
      apply has_config_elem. exists r. split; [by eapply list_elem_of_lookup_2|done].
    + cbn [fmap list_fmap]. cbn [config_string excluded].
      by rewrite String.eqb_refl.
Qed.

Lemma find_by_id (rows : list ServerRow) (r : ServerRow) :
  NoDup (id <$> rows) → r ∈ rows →
  List.find (fun x => (id x =? id r)%Z) rows = Some r.
Proof.
  induction rows as [|x rows IH]; [by intros _ ?%elem_of_nil|].
  rewrite fmap_cons. intros [Hx Hnd]%NoDup_cons Hin. cbn [List.find].
  destruct (Z.eqb_spec (id x) (id r)) as [Heq|Hne].
  - apply elem_of_cons in Hin as [->|Hin]; [done|].
    destruct Hx. rewrite Heq. by apply list_elem_of_fmap_2.
  - apply elem_of_cons in Hin as [->|Hin]; [done|]. by apply IH.
Qed.

Lemma find_fmap_key (f : ServerRow → ServerRow) (i : Z) (rows : list ServerRow) :
  (∀ r, id (f r) = id r) →
  List.find (fun x => (id x =? i)%Z) (f <$> rows)
    = f <$> List.find (fun x => (id x =? i)%Z) rows.
Proof.
  intros Hf. induction rows as [|x rows IH]; [done|].
  rewrite fmap_cons. cbn [List.find]. rewrite Hf. by destruct (id x =? i)%Z.
Qed.

Lemma find_app_l {A : Type} (p : A → bool) (l k : list A) (x : A) :
  List.find p l = Some x → List.find p (l ++ k) = Some x.
Proof.
  induction l as [|y l IH]; [done|]. cbn [List.find app]. by destruct (p y).
Qed.

Lemma find_app_r {A : Type} (p : A → bool) (l k : list A) :
  (∀ x, x ∈ l → p x = false) → List.find p (l ++ k) = List.find p k.
Proof.
  induction l as [|y l IH]; [done|]. intros Hl. cbn [List.find app].
  rewrite (Hl y) by (by left). apply IH. intros x Hx. apply Hl. by right.
Qed.

(** After an upsert the fingerprint can be fetched by an id, and every id
    that gave a config before gives the same config. *)
Theorem upsert_then_get_config (db : Store) (server : ServerDict) (ts : Z) (db' : Store) :
  well_formed db →
  upsert_server db server ts = Ok db' →
  (∃ i, get_server_config_string db' i = Some (d_config_string server)) ∧
  (∀ i s, get_server_config_string db i = Some s →
          get_server_config_string db' i = Some s).
Proof.
  intros (Hids & _ & Hlt) Hup. unfold get_server_config_string.
  apply upsert_server_ok in Hup as [_ [(Hyes & _ & Hrows)|(Hno & _ & Hrows)]]; rewrite Hrows.
  - assert (Hfind : ∀ i,
      List.find (fun x => (id x =? i)%Z)
        ((fun r => if String.eqb (config_string r) (d_config_string server)
                   then do_update r (excluded db server ts) else r) <$> servers db)
      = (fun r => if String.eqb (config_string r) (d_config_string server)
                  then do_update r (excluded db server ts) else r)
          <$> List.find (fun x => (id x =? i)%Z) (servers db)).
    { intros i. apply find_fmap_key. intros r. by case_match. }
    split.
    + apply has_config_elem in Hyes as (r & Hin & Hr). exists (id r).
      rewrite Hfind, (find_by_id _ _ Hids Hin). cbn [fmap option_fmap option_map].
      rewrite Hr, String.eqb_refl. by rewrite <- Hr.
    + intros i s. rewrite Hfind.
      destruct (List.find _ (servers db)) as [r|]; [|done].
      cbn [fmap option_fmap option_map]. intros [= <-]. by case_match.
  - split.
    + exists (next_id db). rewrite find_app_r.
      * cbn [List.find id excluded]. by rewrite Z.eqb_refl.
      * intros r Hin. apply Z.eqb_neq.
        pose proof (proj1 (Forall_forall _ _) Hlt r Hin) as Hr. cbv beta in Hr. lia.
    + intros i s.
      destruct (List.find (fun x => (id x =? i)%Z) (servers db)) as [r|] eqn:Hfind; [|done].
      by rewrite (find_app_l _ _ _ _ Hfind).
Qed.

End UpsertMore.

Lemma upsert_server_again_witness :
  ∃ db', @upsert_server Scenario.runtime Scenario.stocked Scenario.bare 2000 = Ok db' ∧
    ∃ db'', @upsert_server Scenario.runtime db' Scenario.bare 2000 = Ok db'' ∧
            servers db'' = servers db' ∧ sources db'' = sources db' ∧
            next_id db'' = (next_id db' + 1)%Z.
Proof.
  eexists. split; [reflexivity|].
  apply (@upsert_server_again Scenario.runtime Scenario.stocked Scenario.bare 2000).
  reflexivity.
Defined.

Lemma upsert_then_get_config_witness :
  ∃ db', @upsert_server Scenario.runtime Scenario.stocked Scenario.bare 2000 = Ok db' ∧
    (∃ i, get_server_config_string db' i = Some "vless://new@c.example:443") ∧
    (∀ i s, get_server_config_string Scenario.stocked i = Some s →
            get_server_config_string db' i = Some s).
Proof.
  eexists. split; [reflexivity|].
  apply (@upsert_then_get_config Scenario.runtime Scenario.stocked Scenario.bare 2000);
    [|reflexivity].
  repeat split.
  - apply (bool_decide_unpack _). vm_compute. exact I.
  - apply (bool_decide_unpack _). vm_compute. exact I.
  - repeat constructor.
Defined.

(* ===================================================================== *)
(** * The size of the selection after a rebalance                         *)
(* ===================================================================== *)

Lemma length_filter_fmap {A B : Type} (f : A → B) (P : B → Prop)
    `{!∀ y, Decision (P y)} (l : list A) :
  List.length (filter P (f <$> l)) = List.length (filter (fun x => P (f x)) l).
Proof.
  induction l as [|x l IH]; [done|]. rewrite fmap_cons, !filter_cons.
  destruct (decide (P (f x))); cbn [List.length]; by rewrite IH.
Qed.

Lemma length_filter_split {A : Type} (P Q : A → Prop)
    `{!∀ x, Decision (P x), !∀ x, Decision (Q x)} (l : list A) :
  List.length (filter P l) =
    (List.length (filter (fun x => P x ∧ Q x) l)
     + List.length (filter (fun x => P x ∧ ¬ Q x) l))%nat.
Proof.
  induction l as [|x l IH]; [done|]. rewrite !filter_cons.
  destruct (decide (P x)) as [HP|HP]; destruct (decide (Q x)) as [HQ|HQ].
  - rewrite decide_True, decide_False by tauto. cbn [List.length]. lia.
  - rewrite decide_False, decide_True by tauto. cbn [List.length]. lia.
  - rewrite !decide_False by tauto. done.
  - rewrite !decide_False by tauto. done.
Qed.

Lemma filter_ext_elem {A : Type} (P Q : A → Prop)
    `{!∀ x, Decision (P x), !∀ x, Decision (Q x)} (l : list A) :
  (∀ x, x ∈ l → P x ↔ Q x) → filter P l = filter Q l.
Proof.
  induction l as [|x l IH]; [done|]. intros Hl. rewrite !filter_cons.
  assert (Hx : P x ↔ Q x) by (apply Hl; by left).
  rewrite IH by (intros y Hy; apply Hl; by right).
  destruct (decide (P x)); [rewrite decide_True by tauto|rewrite decide_False by tauto];
    done.
Qed.

Lemma update_is_selected_nil (b : bool) (db : Store) : update_is_selected b [] db = db.
Proof.
  destruct db as [srcs rows nxt]. unfold update_is_selected. cbn [sources servers next_id].
  f_equal. rewrite <- (list_fmap_id rows) at 2. apply list_fmap_ext.
  intros i r _. rewrite bool_decide_eq_false_2; [done|]. by intros ?%elem_of_nil.
Qed.

Lemma select_ids_empty (cond : ServerRow → bool) (order : relation ServerRow)
    `{!RelDecision order} (n : Z) (db : Store) :
  filter (fun r => cond r = true) (servers db) = [] → select_ids cond order n db = [].
Proof. intros Hpool. unfold select_ids. rewrite Hpool. by destruct (Z.to_nat n). Qed.

Section SelectionSize.
Context (cond : ServerRow → bool) (order : relation ServerRow).
Context `{!RelDecision order} (order_total : Total order)
        (order_transitive : Transitive order).

(** The UPDATE after the SELECT moves the number of selected active rows
    by the number of rows the SELECT gave, up for a promotion and down
    for a demotion. *)
Lemma count_after_select (n : Z) (db : Store) (b : bool) :
  NoDup (id <$> servers db) →
  (∀ r, cond r = true → is_selected r = negb b ∧ status r = "active") →
  count_selected_active (update_is_selected b (select_ids cond order n db) db) =
    (count_selected_active db
     + (if b then 1 else -1)
       * Z.of_nat (Nat.min (Z.to_nat n)
                     (List.length (filter (fun r => cond r = true) (servers db)))))%Z.
Proof.
  intros Hnd Hcond.
  destruct (select_then_update cond order order_total order_transitive n db b Hnd)
    as (Hlen & _ & _); [intros r Hr; by apply Hcond|].
  destruct (flipped_update b (select_ids cond order n db) db) as [Hf _].
  rewrite Hf in Hlen. clear Hf. rewrite <- Hlen. clear Hlen.
  set (ids := select_ids cond order n db).
  assert (Hids : ∀ r, r ∈ servers db → id r ∈ ids → cond r = true).
  { intros r Hin Hr. by eapply select_ids_cond. }
  unfold count_selected_active. cbn [servers update_is_selected].
  rewrite length_filter_fmap.
  destruct b; cbn [negb].
  - rewrite (length_filter_split _ (fun r => id r ∈ ids)).
    rewrite (filter_ext_elem
               (fun r => selected_active (if bool_decide (id r ∈ ids)
                                          then set_is_selected true r else r) = true
                         ∧ id r ∈ ids)
               (fun r => is_selected r = false ∧ id r ∈ ids)).
    2:{ intros r Hin. split.
        - intros [_ Hr]. split; [|done]. by apply Hcond, Hids.
        - intros [_ Hr]. split; [|done]. rewrite bool_decide_eq_true_2 by done.
          unfold selected_active. cbn [is_selected status set_is_selected andb].
          apply String.eqb_eq. by apply Hcond, Hids. }
    rewrite (filter_ext_elem
               (fun r => selected_active (if bool_decide (id r ∈ ids)
                                          then set_is_selected true r else r) = true
                         ∧ ¬ id r ∈ ids)
               (fun r => selected_active r = true)).
    2:{ intros r Hin. split.
        - intros [Hsel Hr]. by rewrite bool_decide_eq_false_2 in Hsel.
        - intros Hsel. assert (Hr : ¬ id r ∈ ids).
          { intros Hr. destruct (Hcond r (Hids r Hin Hr)) as [Hno _].
            unfold selected_active in Hsel. rewrite Hno in Hsel. done. }
          split; [|done]. by rewrite bool_decide_eq_false_2. }
    lia.
  - rewrite (length_filter_split (fun r => selected_active r = true)
               (fun r => id r ∈ ids)).
    rewrite (filter_ext_elem
               (fun r => selected_active r = true ∧ id r ∈ ids)
               (fun r => is_selected r = true ∧ id r ∈ ids)).
    2:{ intros r Hin. split.
        - intros [Hsel Hr]. split; [|done]. by apply Hcond, Hids.
        - intros [Hsel Hr]. split; [|done]. unfold selected_active. rewrite Hsel.
          apply String.eqb_eq. by apply Hcond, Hids. }
    rewrite (filter_ext_elem
               (fun r => selected_active (if bool_decide (id r ∈ ids)
                                          then set_is_selected false r else r) = true)
               (fun r => selected_active r = true ∧ ¬ id r ∈ ids)).
    2:{ intros r Hin. case_bool_decide as Hr.
        - unfold selected_active at 1. cbn [is_selected set_is_selected andb].
          split; [done|]. by intros [_ ?].
        - split; [done|]. by intros [? _]. }
    lia.
Qed.

End SelectionSize.

Lemma selected_active_cond (r : ServerRow) :
  selected_active r = true → is_selected r = negb false ∧ status r = "active".
Proof. intros [? ?]%selected_active_iff. done. Qed.

Lemma promotable_cond (r : ServerRow) :
  promotable r = true → is_selected r = negb true ∧ status r = "active".
Proof. intros (? & ? & _)%promotable_iff. done. Qed.

Lemma count_after_demotion (db : Store) (n : Z) :
  NoDup (id <$> servers db) →
  count_selected_active
    (update_is_selected false (select_ids selected_active worst_first n db) db)
  = (count_selected_active db - Z.min (Z.max n 0) (count_selected_active db))%Z.
Proof.
  intros Hnd.
  rewrite (count_after_select selected_active worst_first worst_first_total
             worst_first_transitive _ db false Hnd selected_active_cond).
  unfold count_selected_active. lia.
Qed.

Lemma count_after_promotion (db : Store) (n : Z) :
  NoDup (id <$> servers db) →
  count_selected_active
    (update_is_selected true (select_ids promotable best_first n db) db)
  = (count_selected_active db
     + Z.min (Z.max n 0)
         (Z.of_nat (List.length (filter (fun r => promotable r = true) (servers db)))))%Z.
Proof.
  intros Hnd.
  rewrite (count_after_select promotable best_first best_first_total
             best_first_transitive _ db true Hnd promotable_cond).
  lia.
Qed.

(** The number of selected active rows after a rebalance, C being the
    number before: above the upper bound it falls to the bound (to zero
    for a negative bound); otherwise, below the lower bound, it rises to
    the lower bound or as far as the candidates reach; otherwise it
    stays. The lower bound is not always met. *)
Theorem manage_selected_servers_count (db : Store) (min_selected max_selected : Z) :
  NoDup (id <$> servers db) →
  let c := count_selected_active db in
  let c' := count_selected_active (manage_selected_servers db min_selected max_selected) in
  let candidates := filter (fun r => promotable r = true) (servers db) in
  ((max_selected < c)%Z → c' = Z.max max_selected 0) ∧
  ((c ≤ max_selected)%Z → (c < min_selected)%Z →
     c' = Z.min min_selected (c + Z.of_nat (List.length candidates))) ∧
  ((c ≤ max_selected)%Z → (min_selected ≤ c)%Z → c' = c).
Proof.
  intros Hnd c c' candidates. unfold c', manage_selected_servers. fold c.
  assert (Hc : (0 ≤ c)%Z) by (unfold c, count_selected_active; lia).
  destruct (Z.ltb_spec max_selected c) as [Hmax|Hmax];
    [|destruct (Z.ltb_spec c min_selected) as [Hmin|Hmin]].
  - split; [|split; intros; lia]. intros _.
    rewrite count_after_demotion by done. fold c. lia.
  - split; [intros; lia|]. split; [|intros; lia]. intros _ _.
    rewrite count_after_promotion by done. fold c candidates. lia.
  - split; [intros; lia|]. split; intros; [lia|done].
Qed.

Lemma manage_selected_servers_count_witness :
  count_selected_active Scenario.crowded = 2%Z ∧
  count_selected_active (manage_selected_servers Scenario.crowded 3 1) = 1%Z.
Proof.
  split; [reflexivity|].
  assert (Hids : NoDup (id <$> servers Scenario.crowded)).
  { apply (bool_decide_unpack _). vm_compute. exact I. }
  destruct (manage_selected_servers_count Scenario.crowded 3 1 Hids) as (Hdemote & _).
  apply Hdemote. reflexivity.
Defined.

(** With the lower bound no greater than the upper bound, one rebalance
    settles the selection: a second one right after it changes nothing. *)
Theorem manage_selected_servers_stable (db : Store) (min_selected max_selected : Z) :
  NoDup (id <$> servers db) → (min_selected ≤ max_selected)%Z →
  manage_selected_servers (manage_selected_servers db min_selected max_selected)
    min_selected max_selected
  = manage_selected_servers db min_selected max_selected.
Proof.
  intros Hnd Hle.
  set (c := count_selected_active db).
  set (db1 := manage_selected_servers db min_selected max_selected).
  set (c1 := count_selected_active db1).
  assert (Hc : (0 ≤ c)%Z) by (unfold c, count_selected_active; lia).
  assert (Hdem : (max_selected < c)%Z → c1 = Z.max max_selected 0).
  { intros Hmax. unfold c1, db1, manage_selected_servers. fold c.
    destruct (Z.ltb_spec max_selected c); [|lia].
    rewrite count_after_demotion by done. fold c. lia. }
  assert (Hpro : (c ≤ max_selected)%Z → (c < min_selected)%Z →
                 c1 = Z.min min_selected
                        (c + Z.of_nat (List.length
                               (filter (fun r => promotable r = true) (servers db))))).
  { intros Hmax Hmin. unfold c1, db1, manage_selected_servers. fold c.
    destruct (Z.ltb_spec max_selected c); [lia|].
    destruct (Z.ltb_spec c min_selected); [|lia].
    rewrite count_after_promotion by done. fold c. lia. }
  unfold manage_selected_servers at 1. fold c1.
  destruct (Z.ltb_spec max_selected c) as [Hmax|Hmax];
    [|destruct (Z.ltb_spec c min_selected) as [Hmin|Hmin]].
  - specialize (Hdem Hmax).
    destruct (Z.ltb_spec max_selected c1) as [Hmax1|Hmax1].
    + rewrite select_ids_empty; [apply update_is_selected_nil|].
      apply nil_length_inv. unfold c1, count_selected_active in Hdem, Hmax1. lia.
    + destruct (Z.ltb_spec c1 min_selected); [lia|done].
  - specialize (Hpro Hmax Hmin).
    destruct (Z.ltb_spec max_selected c1) as [Hmax1|Hmax1]; [lia|].
    destruct (Z.ltb_spec c1 min_selected) as [Hmin1|Hmin1]; [|done].
    rewrite select_ids_empty; [apply update_is_selected_nil|].
    apply elem_of_nil_inv. intros r1 [Hr1 Hin1]%list_elem_of_filter.
    assert (Hdb1 : db1 = update_is_selected true
                     (select_ids promotable best_first (min_selected - c) db) db).
    { unfold db1, manage_selected_servers. fold c.
      destruct (Z.ltb_spec max_selected c); [lia|].
      by destruct (Z.ltb_spec c min_selected); [|lia]. }
    rewrite Hdb1 in Hin1. cbn [servers update_is_selected] in Hin1.
    apply list_elem_of_fmap in Hin1 as (r & -> & Hin).
    case_bool_decide as Hr.
    + unfold promotable in Hr1. cbn [is_selected set_is_selected negb andb] in Hr1. done.
    + apply Hr. unfold select_ids. apply list_elem_of_fmap_2.
      rewrite take_ge.
      * rewrite order_by_Permutation. by apply list_elem_of_filter.
      * rewrite order_by_Permutation. lia.
  - assert (Hdb1 : manage_selected_servers db min_selected max_selected = db).
    { unfold manage_selected_servers. fold c.
      destruct (Z.ltb_spec max_selected c); [lia|].
      by destruct (Z.ltb_spec c min_selected); [lia|]. }
    clear Hdem Hpro. subst c1 db1. rewrite Hdb1. fold c.
    destruct (Z.ltb_spec max_selected c); [lia|].
    by destruct (Z.ltb_spec c min_selected); [lia|].
Qed.

Lemma manage_selected_servers_stable_witness :
  manage_selected_servers (manage_selected_servers Scenario.crowded 1 1) 1 1
  = manage_selected_servers Scenario.crowded 1 1.
Proof.
  apply manage_selected_servers_stable; [|lia].
  apply (bool_decide_unpack _). vm_compute. exact I.
Defined.

(* ===================================================================== *)
(** * The listing                                                         *)
(* ===================================================================== *)

Lemma listing_order_total : Total listing_order.
Proof. intros a b. unfold listing_order. lia. Qed.

Lemma listing_order_transitive : Transitive listing_order.
Proof. intros a b c. unfold listing_order. lia. Qed.

Lemma StronglySorted_drop {A : Type} (R : relation A) (n : nat) (l : list A) :
  StronglySorted R l → StronglySorted R (drop n l).
Proof.
  intros Hl. rewrite <- (take_drop n l) in Hl. by apply StronglySorted_app_1_r in Hl.
Qed.

Lemma StronglySorted_take {A : Type} (R : relation A) (n : nat) (l : list A) :
  StronglySorted R l → StronglySorted R (take n l).
Proof.
  intros Hl. rewrite <- (take_drop n l) in Hl. by apply StronglySorted_app_1_l in Hl.
Qed.

Lemma sql_limit_sublist {A : Type} (n : Z) (l : list A) : sql_limit n l `sublist_of` l.
Proof. unfold sql_limit. case_match; [done|apply sublist_take]. Qed.

Lemma page_length (db : Store) (offset limit : Z) (max_config_len : option Z) :
  (0 ≤ limit)%Z →
  (Z.of_nat (List.length (get_selected_servers_page db offset limit max_config_len))
   ≤ limit)%Z.
Proof.
  intros Hlimit. unfold get_selected_servers_page. rewrite length_fmap. unfold sql_limit.
  destruct (Z.ltb_spec limit 0); [lia|]. rewrite length_take. lia.
Qed.

(** A page of the listing holds rows of the table that are active and no
    longer than the length asked for, the length being the one LENGTH
    gives (the characters before the first NUL), fastest first with a
    missing latency counted as 99999, and no more of them than the
    limit. *)
Theorem get_selected_servers_page_listing (db : Store) (offset limit : Z)
    (max_config_len : option Z) :
  let page := get_selected_servers_page db offset limit max_config_len in
  (∀ x, x ∈ page →
     ∃ r, r ∈ servers db ∧ x = listed r ∧ status r = "active" ∧
          ∀ m, max_config_len = Some m →
               (Z.of_nat (sql_length (config_string r)) ≤ m)%Z) ∧
  StronglySorted
    (fun a b => (default 99999 (ls_latency a) ≤ default 99999 (ls_latency b))%Z) page ∧
  ((0 ≤ limit)%Z → (Z.of_nat (List.length page) ≤ limit)%Z).
Proof.
  cbv zeta. unfold get_selected_servers_page.
  set (pool := filter (fun r => active_within max_config_len r = true) (servers db)).
  set (sorted := order_by listing_order pool).
  split; [|split].
  - intros x (r & -> & Hin)%list_elem_of_fmap. exists r.
    assert (Hpool : r ∈ pool).
    { unfold sorted in Hin. rewrite <- (order_by_Permutation listing_order pool).
      apply (sublist_subseteq _ _ (sublist_drop _ (Z.to_nat offset))).
      by apply (sublist_subseteq _ _ (sql_limit_sublist limit _)). }
    apply list_elem_of_filter in Hpool as [Hr Hdb].
    unfold active_within in Hr. apply andb_prop in Hr as [Hs%String.eqb_eq Hlen].
    repeat split; try done. intros m ->. by apply Z.leb_le.
  - apply (StronglySorted_fmap listed listing_order).
    + intros a b. unfold listing_order, coalesce_latency. cbn [ls_latency listed]. lia.
    + assert (Hsorted : StronglySorted listing_order (sql_offset offset sorted)).
      { apply StronglySorted_drop, StronglySorted_order_by.
        - apply listing_order_transitive.
        - apply listing_order_total. }
      unfold sql_limit. case_match; [done|]. by apply StronglySorted_take.
  - apply page_length.
Qed.

Lemma filter_fmap_commute {A : Type} (f : A → A) (P : A → Prop)
    `{!∀ x, Decision (P x)} (l : list A) :
  (∀ x, P (f x) ↔ P x) → filter P (f <$> l) = f <$> filter P l.
Proof.
  intros Hf. induction l as [|x l IH]; [done|].
  rewrite fmap_cons, !filter_cons.
  destruct (decide (P x)) as [Hx|Hx].
  - rewrite decide_True by (by apply Hf). by rewrite fmap_cons, IH.
  - rewrite decide_False by (by rewrite Hf). done.
Qed.

(** The listing does not look at [is_selected]: whatever rows an UPDATE
    selects or deselects, every page stays as it was. *)
Theorem get_selected_servers_page_ignores_selection (b : bool) (ids : list Z) (db : Store)
    (offset limit : Z) (max_config_len : option Z) :
  get_selected_servers_page (update_is_selected b ids db) offset limit max_config_len
  = get_selected_servers_page db offset limit max_config_len.
Proof.
  unfold get_selected_servers_page. cbn [servers update_is_selected].
  set (f := fun r => if bool_decide (id r ∈ ids) then set_is_selected b r else r).
  rewrite (filter_fmap_commute f) by (intros r; unfold f; by case_bool_decide).
  rewrite (order_by_fmap listing_order f)
    by (intros r r'; unfold f; by do 2 case_bool_decide).
  unfold sql_limit, sql_offset. rewrite <- fmap_drop.
  assert (Hlisted : ∀ l : list ServerRow, listed <$> (f <$> l) = listed <$> l).
  { intros l. rewrite <- list_fmap_compose. apply list_fmap_ext.
    intros i r _. cbn [compose]. unfold f. by case_bool_decide. }
  case_match; [apply Hlisted|]. rewrite <- fmap_take. apply Hlisted.
Qed.

(* ===================================================================== *)
(** * The provider                                                        *)
(* ===================================================================== *)

Section ProviderFacts.
Import Providers.

Lemma total_of_max_len (db : Store) (max_config_len : option Z) :
  match max_config_len with
  | None => get_selected_servers_total db
  | Some m => get_selected_servers_total_with_max_len db (Some m)
  end = get_selected_servers_total_with_max_len db max_config_len.
Proof. by destruct max_config_len. Qed.

Lemma pick_db_raises (p p' : DbProvider) (e : raised) :
  _pick_db p = (p', inl e) ↔ _dbs p = [] ∧ e = RuntimeError ∧ p' = p.
Proof.
  unfold _pick_db. destruct (_dbs p) as [|first rest].
  - split; [by intros [= <- <-]|]. by intros (_ & -> & ->).
  - split; [done|]. by intros ([=] & _).
Qed.

(** With a page size and a length limit that SQLite can bind (64-bit
    integers), [get_servers_page] raises in two cases only: the pool is
    empty, or the page size is zero while there is something to list.
    With nothing to list a page size of zero gives the empty page. *)
Theorem get_servers_page_raises_iff (p p' : DbProvider) (page per_page : Z)
    (max_config_len : option Z) (e : raised) :
  fits_int64 per_page = true →
  default true (fits_int64 <$> max_config_len) = true →
  get_servers_page p page per_page max_config_len = (p', inl e) ↔
  (_dbs p = [] ∧ e = RuntimeError ∧ p' = p) ∨
  (∃ db, _pick_db p = (p', inr db) ∧ e = ZeroDivisionError ∧ per_page = 0%Z ∧
         (0 < get_selected_servers_total_with_max_len db max_config_len)%Z).
Proof.
  intros _ _. unfold get_servers_page.
  destruct (_pick_db p) as [p1 [e1|db]] eqn:Hpick.
  - apply pick_db_raises in Hpick as (Hnil & -> & ->). split.
    + intros [= <- <-]. by left.
    + by intros [(_ & -> & ->)|(db & Hdb & _)].
  - rewrite total_of_max_len.
    destruct (Z.leb_spec (get_selected_servers_total_with_max_len db max_config_len) 0)
      as [Hnone|Hsome].
    + split; [done|]. intros [(Hnil & _)|(db' & [= <- <-] & _ & _ & Htotal)]; [|lia].
      unfold _pick_db in Hpick. by rewrite Hnil in Hpick.
    + destruct (Z.eqb_spec per_page 0) as [->|Hper].
      * split.
        -- intros [= <- <-]. right. by exists db.
        -- intros [(Hnil & _)|(db' & [= <- <-] & -> & _)]; [|done].
           unfold _pick_db in Hpick. by rewrite Hnil in Hpick.
      * split; [done|]. intros [(Hnil & _)|(db' & _ & _ & Hzero & _)]; [|done].
        unfold _pick_db in Hpick. by rewrite Hnil in Hpick.
Qed.

(** With a positive page size and something to list, the page asked for
    is brought into range: the provider answers with the total and a page
    that is not empty and no longer than the page size; a negative page
    number gives the first page and one past the end the last. *)
Theorem get_servers_page_clamped (p p' : DbProvider) (db : Store) (page per_page : Z)
    (max_config_len : option Z) :
  _pick_db p = (p', inr db) →
  (0 < per_page)%Z →
  let count := get_selected_servers_total_with_max_len db max_config_len in
  (0 < count)%Z →
  let last := ((count - 1) / per_page)%Z in
  ∃ rows,
    get_servers_page p page per_page max_config_len
      = (p', inr {| paged_servers := rows; total := count |}) ∧
    rows ≠ [] ∧ (Z.of_nat (List.length rows) ≤ per_page)%Z ∧
    rows = get_selected_servers_page db
             (Z.max 0 (Z.min page last) * per_page) per_page max_config_len.
Proof.
  intros Hpick Hper count Hcount last.
  unfold get_servers_page. rewrite Hpick, total_of_max_len. fold count.
  destruct (Z.leb_spec count 0); [lia|]. destruct (Z.eqb_spec per_page 0); [lia|].
  assert (Hlast : (0 ≤ last)%Z) by (apply Z.div_pos; lia).
  fold last. rewrite (Z.max_r 0 last) by done.
  eexists. split; [reflexivity|].
  set (pg := Z.max 0 (Z.min page last)).
  assert (Hpg : (0 ≤ pg ≤ last)%Z) by lia.
  assert (Hoff : (pg * per_page < count)%Z).
  { assert (last * per_page ≤ count - 1)%Z.
    { unfold last. rewrite Z.mul_comm. apply Z.mul_div_le. lia. }
    nia. }
  split; [|split; [|done]].
  - unfold get_selected_servers_page, sql_limit, sql_offset.
    destruct (Z.ltb_spec per_page 0); [lia|].
    intros Hnil. apply fmap_nil_inv in Hnil.
    apply (f_equal List.length) in Hnil.
    rewrite length_take, length_drop in Hnil.
    pose proof (Permutation_length
      (order_by_Permutation listing_order
         (filter (fun r => active_within max_config_len r = true) (servers db)))) as Hlen.
    unfold count, get_selected_servers_total_with_max_len in Hoff, Hcount.
    cbn [List.length] in Hnil. lia.
  - apply page_length. lia.
Qed.

End ProviderFacts.

Lemma get_servers_page_raises_iff_witness :
  Providers.get_servers_page Scenario.pool 7 0 None
  = (Scenario.pool, inl Providers.ZeroDivisionError).
Proof.
  apply (get_servers_page_raises_iff Scenario.pool Scenario.pool 7 0 None);
    [reflexivity|reflexivity|].
  right. exists Scenario.crowded.
  split; [reflexivity|]. split; [reflexivity|]. split; reflexivity.
Defined.

Lemma get_servers_page_clamped_witness :
  ∃ rows,
    Providers.get_servers_page Scenario.pool 7 2 None
      = (Scenario.pool, inr {| Providers.paged_servers := rows; Providers.total := 3 |}) ∧
    rows ≠ [] ∧ (Z.of_nat (List.length rows) ≤ 2)%Z ∧
    rows = get_selected_servers_page Scenario.crowded 2 2 None.
Proof.
  apply (get_servers_page_clamped Scenario.pool Scenario.pool Scenario.crowded 7 2 None);
    [reflexivity|lia|reflexivity].
Defined.

(* ===================================================================== *)
(** * The tables [sources] and [stats]                                    *)
(* ===================================================================== *)

Section SeedFacts.
Context (ts : Z).

Lemma has_url_elem (u : string) (rows : list SourceRow) :
  existsb (fun s => String.eqb (url s) u) rows = true ↔ ∃ s, s ∈ rows ∧ url s = u.
Proof.
  rewrite existsb_exists. split.
  - intros (s & Hin%list_elem_of_In & Heq%String.eqb_eq). eauto.
  - intros (s & Hin%list_elem_of_In & Heq%String.eqb_eq). eauto.
Qed.

Lemma insert_source_keeps (d : Database) (u n : string) :
  let d' := insert_source_or_ignore d u n ts in
  stats d' = stats d ∧ servers (tables d') = servers (tables d) ∧
  next_id (tables d') = next_id (tables d) ∧
  sources (tables d) `prefix_of` sources (tables d') ∧
  (∃ s, s ∈ sources (tables d') ∧ url s = u) ∧
  (∀ s, s ∈ sources (tables d') →
        s ∈ sources (tables d) ∨
        (url s = u ∧ Db.active s = true ∧ last_scan s = None ∧
         ¬ ∃ s0, s0 ∈ sources (tables d) ∧ url s0 = u)).
Proof.
  cbv zeta. unfold insert_source_or_ignore.
  destruct (existsb _ (sources (tables d))) eqn:Hhas.
  - repeat split; try done; [by apply has_url_elem|auto].
  - cbn [tables stats sources servers next_id]. repeat split; try done.
    + by apply prefix_app_r.
    + eexists. split; [apply elem_of_app; right; by apply list_elem_of_singleton|done].
    + intros s [Hs | ->%list_elem_of_singleton]%elem_of_app; [by left|right].
      cbn [url Db.active last_scan]. repeat split; try done.
      intros Hex%has_url_elem. congruence.
Qed.

Lemma seed_keeps (l : list (Z * string)) (d : Database) :
  let d' := foldl (fun d '(idx, u) =>
                     insert_source_or_ignore d u ("Source " +:+ pretty idx) ts) d l in
  stats d' = stats d ∧ servers (tables d') = servers (tables d) ∧
  next_id (tables d') = next_id (tables d) ∧
  sources (tables d) `prefix_of` sources (tables d') ∧
  (∀ u, u ∈ l.*2 → ∃ s, s ∈ sources (tables d') ∧ url s = u) ∧
  (∀ s, s ∈ sources (tables d') →
        s ∈ sources (tables d) ∨
        (url s ∈ l.*2 ∧ Db.active s = true ∧ last_scan s = None)) ∧
  (NoDup (url <$> sources (tables d)) → NoDup (url <$> sources (tables d'))).
Proof.
  revert d. induction l as [|[idx u] l IH]; intros d; cbn [foldl].
  { repeat split; try done; [by intros u ?%elem_of_nil|auto]. }
  destruct (insert_source_keeps d u ("Source " +:+ pretty idx))
    as (Hstats & Hservers & Hnext & Hprefix & Hhere & Hnew).
  destruct (IH (insert_source_or_ignore d u ("Source " +:+ pretty idx) ts))
    as (Hstats' & Hservers' & Hnext' & Hprefix' & Hall & Hnew' & Hnd).
  cbv zeta in *. split; [congruence|]. split; [congruence|]. split; [congruence|].
  split; [by etrans|]. split; [|split].
  - intros u' [->|Hin]%elem_of_cons; [|by apply Hall].
    destruct Hhere as (s & Hs & Hu). exists s. split; [|done].
    by apply (elem_of_prefix _ _ _ Hs Hprefix').
  - intros s Hs. destruct (Hnew' s Hs) as [Hold|(Hu & Ha & Hl)].
    + destruct (Hnew s Hold) as [?|(Hu & Ha & Hl & _)]; [by left|right].
      rewrite fmap_cons. cbn [snd]. repeat split; try done. rewrite Hu. by left.
    + right. rewrite fmap_cons. repeat split; try done. by right.
  - intros Hd. apply Hnd. clear -Hd. unfold insert_source_or_ignore.
    destruct (existsb _ (sources (tables d))) eqn:Hhas; [done|].
    cbn [tables sources]. rewrite fmap_app. apply NoDup_app.
    split; [done|]. split; [|apply NoDup_singleton].
    intros u' (s & -> & Hs)%list_elem_of_fmap Hu%list_elem_of_singleton.
    cbn [url] in Hu.
    assert (existsb (fun s => String.eqb (url s) u) (sources (tables d)) = true);
      [|congruence].
    apply has_url_elem. eauto.
Qed.

Lemma seed_noop (l : list (Z * string)) (d : Database) :
  (∀ u, u ∈ l.*2 → ∃ s, s ∈ sources (tables d) ∧ url s = u) →
  let d' := foldl (fun d '(idx, u) =>
                     insert_source_or_ignore d u ("Source " +:+ pretty idx) ts) d l in
  tables d' = tables d ∧ stats d' = stats d.
Proof.
  revert d. induction l as [|[idx u] l IH]; intros d Hall; cbn [foldl]; [done|].
  assert (Hhas : existsb (fun s => String.eqb (url s) u) (sources (tables d)) = true).
  { apply has_url_elem, Hall. rewrite fmap_cons. by left. }
  unfold insert_source_or_ignore at 2 4. rewrite Hhas.
  apply (IH {| tables := tables d; stats := stats d;
               next_source_id := (next_source_id d + 1)%Z |}).
  intros u' Hin. apply Hall. rewrite fmap_cons. by right.
Qed.

End SeedFacts.

Lemma enumerate_values {A : Type} (n : Z) (l : list A) : (enumerate n l).*2 = l.
Proof.
  revert n. induction l as [|x l IH]; intros n; [done|].
  cbn [enumerate]. rewrite fmap_cons. by rewrite IH.
Qed.

Lemma init_db_stats (d : Database) (ts : Z) :
  stats (init_db d ts) = Some (default (fresh_stats ts) (stats d)).
Proof.
  unfold init_db. cbv zeta.
  by destruct (seed_keeps ts (enumerate 1 DEFAULT_SOURCES)
     {| tables := tables d; stats := Some (default (fresh_stats ts) (stats d));
        next_source_id := next_source_id d |}) as (-> & _).
Qed.

(** [init_db] leaves the rows it finds: the sources are kept, in place,
    the table [servers] is not touched, every default URL is a source
    afterwards, a row that was added is active and never scanned, and
    URLs that were unique stay unique. *)
Theorem init_db_sources (d : Database) (ts : Z) :
  let d' := init_db d ts in
  sources (tables d) `prefix_of` sources (tables d') ∧
  servers (tables d') = servers (tables d) ∧
  (∀ u, u ∈ DEFAULT_SOURCES → ∃ s, s ∈ sources (tables d') ∧ url s = u) ∧
  (∀ s, s ∈ sources (tables d') →
        s ∈ sources (tables d) ∨
        (url s ∈ DEFAULT_SOURCES ∧ Db.active s = true ∧ last_scan s = None)) ∧
  (NoDup (url <$> sources (tables d)) → NoDup (url <$> sources (tables d'))).
Proof.
  cbv zeta. unfold init_db. cbv zeta.
  destruct (seed_keeps ts (enumerate 1 DEFAULT_SOURCES)
     {| tables := tables d; stats := Some (default (fresh_stats ts) (stats d));
        next_source_id := next_source_id d |})
    as (_ & Hservers & _ & Hprefix & Hall & Hnew & Hnd).
  cbv zeta in *. rewrite enumerate_values in Hall, Hnew. cbn [tables] in *. done.
Qed.

(** A second [init_db] changes no row: the tables [sources] and
    [servers] and the row of [stats] stay as the first call left them,
    no default source is added twice. *)
Theorem init_db_idempotent (d : Database) (ts ts' : Z) :
  tables (init_db (init_db d ts) ts') = tables (init_db d ts) ∧
  stats (init_db (init_db d ts) ts') = stats (init_db d ts).
Proof.
  pose proof (init_db_stats d ts) as Hstats.
  assert (Hall : ∀ u, u ∈ DEFAULT_SOURCES →
                      ∃ s, s ∈ sources (tables (init_db d ts)) ∧ url s = u).
  { unfold init_db. cbv zeta.
    destruct (seed_keeps ts (enumerate 1 DEFAULT_SOURCES)
       {| tables := tables d; stats := Some (default (fresh_stats ts) (stats d));
          next_source_id := next_source_id d |}) as (_ & _ & _ & _ & Hall & _).
    cbv zeta in Hall. by rewrite enumerate_values in Hall. }
  destruct (init_db d ts) as [tbl st nxt]. cbn [stats tables] in *. subst st.
  unfold init_db. cbv zeta. cbn [stats tables next_source_id default].
  apply (seed_noop ts' (enumerate 1 DEFAULT_SOURCES)
           {| tables := tbl; stats := Some (default (fresh_stats ts) (stats d));
              next_source_id := nxt |}).
  by rewrite enumerate_values.
Qed.

(** The scan times [get_scan_times] reads back are the ones [update_stats]
    wrote, as the DATETIME columns store them (a text that reads as a
    number comes back as that number), once [init_db] has run; dates in
    ISO format, and every text with a character that no number is written
    with, are read back as they were written. Without the row of [stats]
    the update is lost and both times read as missing. *)
Theorem update_stats_then_get_scan_times `{PyRuntime} (d : Database)
    (completed next : option string) (ts0 ts : Z) :
  get_scan_times (update_stats (init_db d ts0) completed next ts)
    = (numeric_column_text <$> completed, numeric_column_text <$> next) ∧
  (default false (Py.numeric_chars_only <$> completed) = false →
   default false (Py.numeric_chars_only <$> next) = false →
   get_scan_times (update_stats (init_db d ts0) completed next ts) = (completed, next)) ∧
  get_scan_times (update_stats d completed next ts)
    = match stats d with
      | Some _ => (numeric_column_text <$> completed, numeric_column_text <$> next)
      | None => (None, None)
      end.
Proof.
  unfold get_scan_times, update_stats. cbn [stats].
  rewrite init_db_stats. split; [done|]. split; [|by destruct (stats d)].
  intros Hcompleted Hnext. f_equal.
  - destruct completed as [c|]; [|done].
    cbn [fmap option_fmap option_map default] in Hcompleted |- *.
    by rewrite numeric_column_text_other.
  - destruct next as [n|]; [|done].
    cbn [fmap option_fmap option_map default] in Hnext |- *.
    by rewrite numeric_column_text_other.
Qed.

Lemma update_stats_then_get_scan_times_witness :
  get_scan_times
    (@update_stats Scenario.runtime (init_db Scenario.database 0)
       (Some "2024-05-01T10:00:00+00:00") (Some "2024-05-01T11:00:00+00:00") 5)
  = (Some "2024-05-01T10:00:00+00:00", Some "2024-05-01T11:00:00+00:00").
Proof.
  apply (@update_stats_then_get_scan_times Scenario.runtime Scenario.database
           (Some "2024-05-01T10:00:00+00:00") (Some "2024-05-01T11:00:00+00:00") 0 5);
    reflexivity.
Defined.




(* ===================================================================== *)
(** * More on the scanner                                                 *)
(* ===================================================================== *)

Lemma upper_char_capital (c : ascii) : is_az c = true → is_capital (upper_char c) = true.
Proof.
  destruct c as [[] [] [] [] [] [] [] []]; vm_compute; try reflexivity; discriminate.
Qed.

Lemma search_suffix_letters (s g : string) :
  search_suffix s = Some g →
  ∃ a b, g = String a (String b EmptyString) ∧ is_az a = true ∧ is_az b = true.
Proof.
  induction s as [|sep s' IH]; [done|]. cbn [search_suffix].
  destruct s' as [|a [|b [|bs [|any [|t1 [|x [|t2 rest]]]]]]]; try exact IH.
  destruct (is_sep sep && is_az a && is_az b && Ascii.eqb bs "\"
            && negb (Ascii.eqb any "010") && Ascii.eqb t1 "t" && Ascii.eqb x "x"
            && Ascii.eqb t2 "t") eqn:Hm; [|exact IH].
  intros [= <-]. exists a, b.
  repeat (apply andb_prop in Hm as [Hm ?]). done.
Qed.

(** A country code inferred from a URL is made of two capital letters. *)
Theorem infer_country_code_two_capitals (source_url code : string) :
  _infer_country_code source_url = Some code →
  ∃ a b, code = String a (String b EmptyString) ∧
         is_capital a = true ∧ is_capital b = true.
Proof.
  unfold _infer_country_code. cbv zeta.
  destruct (last (findall_segment 0 (lower source_url))) as [g|] eqn:Hlast.
  - intros [= <-]. apply last_Some in Hlast as [l' Hl'].
    assert (g ∈ findall_segment 0 (lower source_url)) as Hin.
    { rewrite Hl'. apply elem_of_app. right. by apply list_elem_of_singleton. }
    destruct (findall_segment_letters _ _ _ Hin) as (x & y & -> & Hx & Hy).
    exists (upper_char x), (upper_char y). auto using upper_char_capital.
  - destruct (search_suffix (lower source_url)) as [g|] eqn:Hsearch; [|done].
    intros [= <-]. destruct (search_suffix_letters _ _ Hsearch) as (x & y & -> & Hx & Hy).
    exists (upper_char x), (upper_char y). auto using upper_char_capital.
Qed.

Lemma infer_country_code_two_capitals_witness :
  ∃ a b, "US" = String a (String b EmptyString) ∧
         is_capital a = true ∧ is_capital b = true.
Proof.
  apply (infer_country_code_two_capitals
           "https://raw.githubusercontent.com/ShatakVPN/ConfigForge-V2Ray/refs/heads/main/configs/us/all.txt").
  reflexivity.
Defined.

Section GeoFacts.
Context `{PyRuntime} {W : Type} `{Network W}.

(** A lookup made after an earlier lookup of the same host has returned
    is answered without the network: the answer of the first, a failure
    included, is kept in the cache, the cache only grows, and the second
    lookup returns that answer and leaves the cache and the world as they
    are, whatever the network would say then. Lookups that run at the
    same time in several workers are not covered: each of them may miss
    the cache. *)
Theorem geo_country_code_cached (host : string) (cache : gmap string (option string))
    (w w2 : W) :
  let '(code, cache', w') := _geo_country_code host cache w in
  cache ⊆ cache' ∧ _geo_country_code host cache' w2 = (code, cache', w2).
Proof.
  unfold _geo_country_code. cbv zeta.
  destruct (is_empty (lower (strip host))) eqn:Hkey; [done|].
  destruct (cache !! lower (strip host)) as [code|] eqn:Hhit; [by rewrite Hhit|].
  destruct (geo_lookup (lower (strip host)) w) as [code w'].
  rewrite lookup_insert_eq. split; [|done]. by apply insert_subseteq.
Qed.

End GeoFacts.

Section TestingFacts.
Context `{PyRuntime} {W : Type} `{Network W}.

Lemma worker_cells (settings : Settings) (source_country_map : gmap Z (option string))
    (scan_started_at : Z) (cfg : ParsedConfig) (st : ScanState W) :
  let st' := (worker settings source_country_map scan_started_at cfg st).2 in
  processed (cells st') = (processed (cells st) + 1)%Z ∧
  (Scanner.active (cells st) ≤ Scanner.active (cells st')
   ≤ Scanner.active (cells st) + 1)%Z ∧
  cleared_old (cells st') = cleared_old (cells st).
Proof.
  unfold worker. cbv zeta.
  destruct (test_server cfg _ _ (world st)) as [tested w1].
  destruct (country_code_for source_country_map cfg (geo_cache st) w1)
    as [[country_code cache] w2].
  destruct (String.eqb (ServerTester.status tested) "active");
    rewrite ?purge_once_unbound; cbn [snd cells processed Scanner.active cleared_old];
    repeat split; lia.
Qed.

Lemma run_batch_cells (settings : Settings) (source_country_map : gmap Z (option string))
    (scan_started_at : Z) (batch : list ParsedConfig) (st : ScanState W) :
  let st' := run_batch settings source_country_map scan_started_at batch st in
  processed (cells st') = (processed (cells st) + Z.of_nat (List.length batch))%Z ∧
  (Scanner.active (cells st) ≤ Scanner.active (cells st')
   ≤ Scanner.active (cells st) + Z.of_nat (List.length batch))%Z ∧
  cleared_old (cells st') = cleared_old (cells st).
Proof.
  unfold run_batch. revert st.
  induction batch as [|cfg batch IH]; intros st; cbn [foldl List.length].
  - repeat split; lia.
  - destruct (worker_cells settings source_country_map scan_started_at cfg st)
      as (Hp & Ha & Hc).
    destruct (IH (worker settings source_country_map scan_started_at cfg st).2)
      as (Hp' & Ha' & Hc').
    cbv zeta in *. rewrite Hp', Hc', Hp, Hc. repeat split; lia.
Qed.

Lemma tested_row_verdict (row : ServerDict) (db : Store) (ts : Z) :
  tested_row row →
  carries_verdict (excluded db row ts) ∧
  ∀ old, carries_verdict (do_update old (excluded db row ts)).
Proof.
  intros (cfg & timeout_s & max_latency_ms & w & country_code & ->).
  rewrite test_server_unfold. cbv zeta. unfold carries_verdict.
  destruct (negb _ || _); split; try intros old; simpl; repeat split; auto.
Qed.

(** The table holds a row of the fingerprint that carries a verdict. *)
Lemma upsert_stores (db : Store) (item : ServerDict) (ts : Z) (db' : Store) (k : string) :
  upsert_server db item ts = Ok db' → tested_row item →
  (k = d_config_string item ∨
   ∃ r, r ∈ servers db ∧ config_string r = k ∧ carries_verdict r) →
  ∃ r, r ∈ servers db' ∧ config_string r = k ∧ carries_verdict r.
Proof.
  intros Hup Hrow Hk.
  destruct (tested_row_verdict item db ts Hrow) as [Hnew Hupd].
  destruct (decide (k = d_config_string item)) as [->|Hne].
  - apply upsert_server_ok in Hup as [_ [(Hyes & _ & Hrows)|(_ & _ & Hrows)]];
      rewrite Hrows.
    + apply has_config_elem in Hyes as (r & Hin & Hr).
      exists (do_update r (excluded db item ts)). split; [|by split].
      apply list_elem_of_fmap. exists r. split; [|done].
      by rewrite Hr, String.eqb_refl.
    + exists (excluded db item ts). split; [|by split].
      apply elem_of_app. right. by apply list_elem_of_singleton.
  - destruct Hk as [?|(r & Hin & Hr & Hv)]; [done|].
    exists r. split; [|done]. eapply upsert_keeps_others; [exact Hup|done|congruence].
Qed.

Lemma writer_stores (items : list ServerDict) (db : Store) (ts : Z) (db' : Store)
    (k : string) :
  writer items db ts = Ok db' → Forall tested_row items →
  (k ∈ d_config_string <$> items ∨
   ∃ r, r ∈ servers db ∧ config_string r = k ∧ carries_verdict r) →
  ∃ r, r ∈ servers db' ∧ config_string r = k ∧ carries_verdict r.
Proof.
  revert db. induction items as [|item items IH]; intros db; cbn [writer].
  - intros [= <-] _ [Hk|Hk]; [by apply elem_of_nil in Hk|done].
  - destruct (upsert_server db item ts) as [db1|e] eqn:Hup; [|done].
    cbn [mbind result_bind]. intros Hw [Hitem Hitems]%Forall_cons Hk.
    apply (IH db1 Hw Hitems).
    rewrite fmap_cons in Hk.
    destruct (decide (k ∈ d_config_string <$> items)) as [Hlater|Hlater]; [by left|].
    right. eapply upsert_stores; [exact Hup|exact Hitem|].
    destruct Hk as [[->|?]%elem_of_cons|Hk]; [by left|done|by right].
Qed.

Lemma run_batches_stores (fuel : nat) (settings : Settings)
    (source_country_map : gmap Z (option string)) (scan_started_at : Z)
    (configs : list ParsedConfig) (st st' : ScanState W) (k : string) :
  (List.length configs ≤ fuel)%nat →
  run_batches fuel settings source_country_map scan_started_at configs st = Ok st' →
  write_queue st = [] →
  write_queue st' = [] ∧
  processed (cells st') = (processed (cells st) + Z.of_nat (List.length configs))%Z ∧
  (Scanner.active (cells st) ≤ Scanner.active (cells st')
   ≤ Scanner.active (cells st) + Z.of_nat (List.length configs))%Z ∧
  cleared_old (cells st') = cleared_old (cells st) ∧
  ((k ∈ original_string <$> configs ∨
    ∃ r, r ∈ servers (db st) ∧ config_string r = k ∧ carries_verdict r) →
   ∃ r, r ∈ servers (db st') ∧ config_string r = k ∧ carries_verdict r).
Proof.
  revert configs st. induction fuel as [|fuel IH]; intros configs st Hfuel.
  - destruct configs; [|cbn [List.length] in Hfuel; lia].
    intros [= <-] Hq. cbn [List.length]. repeat split; try done; try lia.
    intros [Hk|Hk]; [by apply elem_of_nil in Hk|done].
  - destruct configs as [|cfg configs].
    { intros [= <-] Hq. cbn [List.length]. repeat split; try done; try lia.
      intros [Hk|Hk]; [by apply elem_of_nil in Hk|done]. }
    rewrite run_batches_cons. revert Hfuel.
    assert (Hlen : (1 ≤ List.length (cfg :: configs))%nat) by (cbn [List.length]; lia).
    revert Hlen. generalize (cfg :: configs). intros all Hlen Hfuel.
    destruct (run_batch_effect settings source_country_map scan_started_at
                (take 10 all) st) as (Hdb & _ & rows & Hkeys & Hrows & Hq).
    destruct (run_batch_cells settings source_country_map scan_started_at
                (take 10 all) st) as (Hp & Ha & Hc).
    cbv zeta in *. unfold join_queue.
    destruct (writer _ _ _) as [db1|e] eqn:Hw; [|done].
    cbn [mbind result_bind]. intros Hrun Hempty.
    apply IH in Hrun; [|rewrite length_drop; lia|done].
    destruct Hrun as (Hq' & Hp' & Ha' & Hc' & Hstored).
    cbn [cells db write_queue] in *.
    assert (Hsplit : (List.length (take 10 all) + List.length (drop 10 all)
                      = List.length all)%nat).
    { rewrite <- (take_drop 10 all) at 3. by rewrite length_app. }
    split; [done|]. split; [lia|]. split; [lia|]. split; [congruence|].
    intros Hk. apply Hstored.
    destruct (decide (k ∈ original_string <$> drop 10 all)) as [Hlater|Hlater];
      [by left|right].
    rewrite Hq, Hempty, app_nil_l in Hw.
    eapply writer_stores; [exact Hw|exact Hrows|].
    rewrite Hkeys, Hdb. destruct Hk as [Hk|Hk]; [|by right].
    rewrite <- (take_drop 10 all), fmap_app in Hk.
    apply elem_of_app in Hk as [Hk|Hk]; [by left|done].
Qed.

(** When the testing phase completes, every config was tested and
    written: the counter of processed configs is their number, the
    counter of active ones lies between zero and it, the queue is empty,
    and for each config the table holds a row of its fingerprint that
    carries a verdict. The flag [cleared_old] of the cycle is still
    unset. *)
Theorem testing_stores_every_config (settings : Settings)
    (source_country_map : gmap Z (option string)) (scan_started_at : Z)
    (configs : list ParsedConfig) (db0 : Store) (w : W) (st : ScanState W) :
  testing settings source_country_map scan_started_at configs db0 w = Ok st →
  write_queue st = [] ∧
  processed (cells st) = Z.of_nat (List.length configs) ∧
  (0 ≤ Scanner.active (cells st) ≤ processed (cells st))%Z ∧
  cleared_old (cells st) = false ∧
  ∀ cfg, cfg ∈ configs →
    ∃ r, r ∈ servers (db st) ∧ config_string r = original_string cfg ∧ carries_verdict r.
Proof.
  unfold testing. intros Hrun.
  destruct (run_batches_stores _ _ _ _ _ _ _ EmptyString (le_n _) Hrun eq_refl)
    as (Hq & Hp & Ha & Hc & _).
  cbn [cells processed Scanner.active cleared_old] in *.
  split; [done|]. split; [lia|]. split; [lia|]. split; [done|].
  intros cfg Hcfg.
  destruct (run_batches_stores _ _ _ _ _ _ _ (original_string cfg) (le_n _) Hrun eq_refl)
    as (_ & _ & _ & _ & Hstored).
  apply Hstored. left. by apply list_elem_of_fmap_2.
Qed.

End TestingFacts.

Lemma testing_stores_every_config_witness :
  ∃ st,
    @testing Scenario.runtime Scenario.Script Scenario.script_network
      Scenario.settings ∅ 1000 [Scenario.candidate] Scenario.stocked Scenario.online
    = Ok st ∧
    processed (cells st) = 1%Z ∧
    ∃ r, r ∈ servers (db st) ∧ config_string r = Scenario.good_token ∧ carries_verdict r.
Proof.
  destruct (@testing Scenario.runtime Scenario.Script Scenario.script_network
              Scenario.settings ∅ 1000 [Scenario.candidate] Scenario.stocked
              Scenario.online) as [st|e] eqn:Hrun; [|vm_compute in Hrun; discriminate Hrun].
  exists st. split; [reflexivity|].
  destruct (@testing_stores_every_config Scenario.runtime Scenario.Script
              Scenario.script_network _ _ _ _ _ _ _ Hrun) as (_ & Hp & _ & _ & Hstored).
  split; [exact Hp|]. apply (Hstored Scenario.candidate). by left.
Defined.

Section HarvestMore.
Context `{PyRuntime} {W : Type} `{Network W}.

Lemma setdefault_all_keeps (P : ParsedConfig → Prop) (configs : list ParsedConfig)
    (unique : list (string * ParsedConfig)) :
  NoDup unique.*1 →
  Forall (fun kc => kc.1 = original_string kc.2 ∧ P kc.2) unique →
  Forall P configs →
  let unique' := setdefault_all configs unique in
  unique `prefix_of` unique' ∧ NoDup unique'.*1 ∧
  Forall (fun kc => kc.1 = original_string kc.2 ∧ P kc.2) unique'.
Proof.
  revert unique. induction configs as [|c rest IH]; intros unique Hnd Hall Hconfigs;
    cbn [setdefault_all]; [done|].
  apply Forall_cons in Hconfigs as [Hc Hrest]. rewrite existsb_key.
  case_bool_decide as Hseen; [by apply IH|].
  destruct (IH (unique ++ [(original_string c, c)])) as (Hprefix & Hnd' & Hall').
  - rewrite fmap_app. apply NoDup_app. split; [done|]. split; [|apply NoDup_singleton].
    intros k Hk ->%list_elem_of_singleton. done.
  - apply Forall_app. split; [done|]. by apply Forall_singleton.
  - done.
  - split; [|done]. etrans; [|exact Hprefix]. by apply prefix_app_r.
Qed.

Lemma update_last_scan_identity (db : Store) (sid ts : Z) :
  source_identity <$> sources (update_last_scan db sid ts) = source_identity <$> sources db.
Proof.
  unfold update_last_scan. cbn [sources]. rewrite <- list_fmap_compose.
  apply list_fmap_ext. intros i s _. cbn [compose]. by destruct (src_id s =? sid)%Z.
Qed.

Lemma harvest_collects_from (pool sources : list SourceRow) (servers_needed : Z)
    (unique unique' : list (string * ParsedConfig)) (db db' : Store) (w w' : W) :
  sources ⊆ pool →
  harvest sources servers_needed unique db w = Ok (unique', db', w') →
  NoDup unique.*1 →
  Forall (fun kc => kc.1 = original_string kc.2 ∧
                    ∃ s, s ∈ pool ∧ sound_config (Some (src_id s)) kc.2) unique →
  unique `prefix_of` unique' ∧ NoDup unique'.*1 ∧
  Forall (fun kc => kc.1 = original_string kc.2 ∧
                    ∃ s, s ∈ pool ∧ sound_config (Some (src_id s)) kc.2) unique' ∧
  source_identity <$> Db.sources db' = source_identity <$> Db.sources db.
Proof.
  revert unique db w. induction sources as [|source sources IH];
    intros unique db w Hpool; cbn [harvest].
  - by intros [= <- <- <-].
  - destruct (servers_needed <=? _)%Z; [by intros [= <- <- <-]|].
    assert (Hsource : source ∈ pool) by (apply Hpool; by left).
    assert (Hrest : sources ⊆ pool) by (intros s Hs; apply Hpool; by right).
    unfold harvest_source.
    destruct (http_get (url source) w) as [[text|] w1].
    + destruct (parse_server_configs text _) as [parsed|e] eqn:Hparse; [|done].
      cbn [mbind result_bind]. intros Hrun Hnd Hall.
      pose proof (parse_server_configs_members _ _ _ Hparse) as Hsound.
      destruct (setdefault_all_keeps
                  (fun c => ∃ s, s ∈ pool ∧ sound_config (Some (src_id s)) c)
                  parsed unique Hnd Hall) as (Hprefix & Hnd1 & Hall1).
      { eapply Forall_impl; [exact Hsound|]. intros c [_ Hc]. eauto. }
      destruct (IH _ _ _ Hrest Hrun Hnd1 Hall1) as (Hprefix' & Hnd' & Hall' & Hsrc).
      split; [by etrans|]. split; [done|]. split; [done|].
      by rewrite Hsrc, update_last_scan_identity.
    + cbn [mbind result_bind]. intros Hrun Hnd Hall. by apply (IH _ _ _ Hrest Hrun).
Qed.

(** What a harvest that completes has collected: no fingerprint twice,
    each under its own key, each config sound and attributed to one of
    the sources read; of the sources nothing changed but [last_scan], and
    the table [servers] was not written. *)
Theorem harvest_collects (sources : list SourceRow) (servers_needed : Z)
    (unique : list (string * ParsedConfig)) (db db' : Store) (w w' : W) :
  harvest sources servers_needed [] db w = Ok (unique, db', w') →
  NoDup unique.*1 ∧
  Forall (fun kc => kc.1 = original_string kc.2 ∧
                    ∃ s, s ∈ sources ∧ sound_config (Some (src_id s)) kc.2) unique ∧
  source_identity <$> Db.sources db' = source_identity <$> Db.sources db ∧
  servers db' = servers db.
Proof.
  intros Hrun.
  destruct (harvest_collects_from sources sources servers_needed [] unique db db' w w')
    as (_ & Hnd & Hall & Hsrc); [done|done|constructor|constructor|].
  destruct (harvest_keeps_servers _ _ _ _ _ _ _ _ Hrun) as [Hservers _]. done.
Qed.

(** A cycle with nothing to do leaves the store and the network as they
    are: without an active source, or with no server to test asked for,
    no source is fetched and the selection is not reset. *)
Theorem run_scan_nothing_to_do (settings : Settings) (db : Store) (w : W) :
  get_active_sources db = [] ∨ (servers_to_test settings ≤ 0)%Z →
  _run_scan settings db w = Ok (db, w).
Proof.
  intros Hidle. unfold _run_scan. cbv zeta.
  destruct (get_active_sources db) as [|source sources]; [done|].
  destruct Hidle as [?|Hzero]; [done|].
  cbn [harvest List.length].
  destruct (Z.leb_spec (servers_to_test settings) (Z.of_nat 0)); [|lia].
  cbn [mbind result_bind fmap list_fmap].
  assert (slice_to (servers_to_test settings) (@nil ParsedConfig) = []) as ->; [|done].
  unfold slice_to. case_match; apply take_nil.
Qed.

End HarvestMore.

Lemma harvest_collects_witness :
  NoDup [(Scenario.good_token, Scenario.candidate)].*1 ∧
  Forall (fun kc => kc.1 = original_string kc.2 ∧
                    ∃ s, s ∈ [Scenario.feed] ∧ sound_config (Some (src_id s)) kc.2)
    [(Scenario.good_token, Scenario.candidate)].
Proof.
  destruct (@harvest_collects Scenario.runtime Scenario.Script Scenario.script_network
              [Scenario.feed] 1000 [(Scenario.good_token, Scenario.candidate)]
              Scenario.stocked
              (update_last_scan Scenario.stocked 1 1000) Scenario.online Scenario.online
              eq_refl) as (Hnd & Hall & _).
  split; [exact Hnd|exact Hall].
Defined.

Lemma run_scan_nothing_to_do_witness :
  @_run_scan Scenario.runtime Scenario.Script Scenario.script_network
    Scenario.settings Scenario.paused Scenario.online
  = Ok (Scenario.paused, Scenario.online) ∧
  @_run_scan Scenario.runtime Scenario.Script Scenario.script_network
    Scenario.idle_settings Scenario.stocked Scenario.online
  = Ok (Scenario.stocked, Scenario.online) ∧
  Db.sources Scenario.paused ≠ [] ∧ get_active_sources Scenario.stocked ≠ [].
Proof.
  split; [|split].
  - apply (@run_scan_nothing_to_do Scenario.runtime Scenario.Script
             Scenario.script_network).
    left. reflexivity.
  - apply (@run_scan_nothing_to_do Scenario.runtime Scenario.Script
             Scenario.script_network).
    right. cbn [servers_to_test Scenario.idle_settings]. lia.
  - split; discriminate.
Defined.

(* ===================================================================== *)
(** * The purge                                                           *)
(* ===================================================================== *)

(** A purge after an upsert, with a bound no later than the time of the
    upsert, keeps the row of the upserted fingerprint, whether it was
    inserted or overwritten; of the table it keeps exactly the rows
    updated at the bound or later, and a second purge with the same bound
    removes nothing more. *)
Theorem purge_keeps_fresh_rows `{PyRuntime} (db : Store) (item : ServerDict)
    (ts before_ts : Z) (db' : Store) :
  upsert_server db item ts = Ok db' → (before_ts ≤ ts)%Z →
  let purged := delete_servers_before db' before_ts in
  (∃ r, r ∈ servers purged ∧ config_string r = d_config_string item ∧ updated_at r = ts) ∧
  (∀ r, r ∈ servers purged ↔ r ∈ servers db' ∧ (before_ts ≤ updated_at r)%Z) ∧
  delete_servers_before purged before_ts = purged.
Proof.
  intros Hup Hts purged.
  assert (Hmem : ∀ r, r ∈ servers purged ↔ r ∈ servers db' ∧ (before_ts ≤ updated_at r)%Z).
  { intros r. unfold purged, delete_servers_before. cbn [servers].
    rewrite list_elem_of_filter. split; intros [? ?]; split; try done; lia. }
  split; [|split; [exact Hmem|]].
  - apply upsert_server_ok in Hup as [_ [(Hyes & _ & Hrows)|(_ & _ & Hrows)]].
    + apply has_config_elem in Hyes as (r & Hin & Hr).
      exists (do_update r (excluded db item ts)). split; [|done].
      apply Hmem. split; [|cbn [updated_at do_update excluded]; lia].
      rewrite Hrows. apply list_elem_of_fmap. exists r. split; [|done].
      by rewrite Hr, String.eqb_refl.
    + exists (excluded db item ts). split; [|done].
      apply Hmem. split; [|cbn [updated_at excluded]; lia].
      rewrite Hrows. apply elem_of_app. right. by apply list_elem_of_singleton.
  - unfold purged, delete_servers_before. apply store_eq; cbn [sources servers next_id];
      try done.
    rewrite list_filter_filter. apply list_filter_iff. intros r. tauto.
Qed.

Lemma purge_keeps_fresh_rows_witness :
  ∃ db', @upsert_server Scenario.runtime Scenario.stocked Scenario.bare 2000 = Ok db' ∧
    ∃ r, r ∈ servers (delete_servers_before db' 1000) ∧
         config_string r = "vless://new@c.example:443" ∧ updated_at r = 2000%Z.
Proof.
  eexists. split; [reflexivity|].
  apply (@purge_keeps_fresh_rows Scenario.runtime Scenario.stocked Scenario.bare 2000 1000);
    [reflexivity|lia].
Defined.
